(** * Single-wheel rig co-simulation driver (demo_VEH_Cosim_WheelRig.cpp)

    A shallow embedding of the driver's [main] and [GetProblemSpecs]: every
    call the driver makes on MPI, the file system, the console and its node
    object is recorded as an event, so that a run of one rank is a trace
    together with the way the process ended.  C++ [double] is IEEE binary64
    (Rocq's primitive floats), [int] is a 32-bit two's complement integer. *)

From Stdlib Require Import ZArith List String Bool Lia Floats.
Import ListNotations.

Set Warnings "-inexact-float".

Local Open Scope string_scope.
Local Open Scope list_scope.
Local Open Scope Z_scope.

(** ** Machine arithmetic *)

Module Cpp.

Definition INT_MAX : Z := 2147483647.
Definition INT_MIN : Z := -2147483648.

Definition in_int (z : Z) : bool := (INT_MIN <=? z) && (z <=? INT_MAX).

(** Mathematical value of [std::ceil x] for a finite [x]; infinities and
    NaN have none. *)
Definition ceil (x : float) : option Z :=
  match Prim2SF x with
  | S754_zero _ => Some 0
  | S754_finite s m e =>
      let up := if 0 <=? e then Zpos m * 2 ^ e else - ((- Zpos m) / 2 ^ (- e)) in
      let down := if 0 <=? e then Zpos m * 2 ^ e else Zpos m / 2 ^ (- e) in
      Some (if s then - down else up)
  | S754_infinity _ => None
  | S754_nan => None
  end.

(** [(int)std::ceil(x)]: the conversion is defined only when the value is
    representable in [int]. *)
Definition int_of_ceil (x : float) : option Z :=
  match ceil x with
  | Some z => if in_int z then Some z else None
  | None => None
  end.

(** Conversion of an [int] to [double] (exact for 32-bit values). *)
Definition double_of_int (z : Z) : float :=
  if z <? 0 then PrimFloat.opp (PrimFloat.of_uint63 (Uint63.of_Z (- z)))
  else PrimFloat.of_uint63 (Uint63.of_Z z).

(** [a % b] on [int]: truncated remainder, undefined for a zero divisor. *)
Definition rem (a b : Z) : option Z :=
  if b =? 0 then None else Some (Z.rem a b).

End Cpp.

(** ** Data model *)

(** [ChVehicleCosimTerrainNode::Type], as far as the driver names it. *)
Inductive TerrainType : Set :=
| RIGID | SCM | GRANULAR_OMP | GRANULAR_GPU | GRANULAR_MPI | GRANULAR_SPH.

(** [ChVehicleCosimRigNode::Type]. *)
Inductive TireType : Set :=
| TIRE_RIGID | TIRE_FLEXIBLE.

(** The concrete node classes the driver instantiates. *)
Inductive NodeClass : Set :=
| RigNodeRigidTire | RigNodeFlexibleTire
| TerrainNodeRigid | TerrainNodeSCM
| TerrainNodeGranularOMP | TerrainNodeGranularGPU | TerrainNodeGranularSPH.

Definition is_rig (c : NodeClass) : bool :=
  match c with
  | RigNodeRigidTire | RigNodeFlexibleTire => true
  | _ => false
  end.

(** Preprocessor configuration and the rank macros of the co-simulation
    headers (their values are not fixed by the driver). *)
Record Build : Set := {
  _DEBUG : bool;
  CHRONO_MULTICORE : bool;
  CHRONO_GPU : bool;
  CHRONO_FSI : bool;
  RIG_NODE_RANK : Z;
  TERRAIN_NODE_RANK : Z
}.

(** File-scope variables of the driver and the library functions it uses to
    build the output path. *)
Record Globals : Type := {
  output_fps : float;
  render_fps : float;
  tire_type : TireType;
  GetChronoOutputPath : string;
  RigTypeAsString : TireType -> string;
  TerrainTypeAsString : TerrainType -> string
}.

(** What the command-line parser yields once its options are registered. *)
Record CLI : Type := {
  cli_parse : bool;
  cli_terrain_type : Z;
  cli_sim_time : float;
  cli_step_size : float;
  cli_init_vel : float;
  cli_slip : float;
  cli_coh_pressure : float;
  cli_sys_mass : float;
  cli_quiet : bool;
  cli_no_render : bool;
  cli_no_output : bool;
  cli_use_checkpoint : bool;
  cli_threads_rig : Z;
  cli_threads_terrain : Z;
  cli_suffix : string
}.

(** Everything a run receives from outside: the size of the MPI job, the
    command line, and whether the two directory creations succeed. *)
Record Input : Type := {
  num_procs : Z;
  cli : CLI;
  mkdir_top : bool;
  mkdir_out : bool
}.

(** The local variables of [main] that [GetProblemSpecs] fills in. *)
Record Specs : Type := {
  terrain_type : TerrainType;
  nthreads_rig : Z;
  nthreads_terrain : Z;
  step_size : float;
  sim_time : float;
  init_vel : float;
  slip : float;
  coh_pressure : float;
  sys_mass : float;
  use_checkpoint : bool;
  output : bool;
  render : bool;
  verbose : bool;
  suffix : string
}.

(** Values of the locals before the command line is read (lines 115-128). *)
Definition initial_specs : Specs := {|
  terrain_type := RIGID;
  nthreads_rig := 1;
  nthreads_terrain := 1;
  step_size := 1e-4%float;
  sim_time := 10%float;
  init_vel := 0.5%float;
  slip := 0%float;
  coh_pressure := 0%float;
  sys_mass := 200%float;
  use_checkpoint := false;
  output := true;
  render := true;
  verbose := true;
  suffix := ""
|}.

(** ** Events and outcomes *)

Inductive Message : Set :=
| msg_debug_prompt
| msg_two_ranks
| msg_need_multicore
| msg_need_gpu
| msg_need_fsi
| msg_dir_error (dir : string)
| msg_rig_rank (rank : Z)
| msg_rig_outdir
| msg_terrain_rank (rank : Z)
| msg_terrain_outdir
| msg_step (is_ : Z)
| msg_sim_time (rank : Z).

(** The calls of the driver.  [New] stands for the constructor of a node
    class, whose arguments ([init_vel], [slip], the thread counts, the
    contact method) are not recorded; [Config] for a setter kept by name;
    [Get] for a getter of the node read while a message is printed. *)
Inductive Event : Set :=
| MPI_Init
| MPI_Comm_size
| MPI_Comm_rank
| MPI_Get_processor_name
| MPI_Barrier
| MPI_Abort (code : Z)
| MPI_Finalize
| cin_int
| cout (m : Message)
| cli_Help
| create_directory (path : string)
| New (c : NodeClass)
| Config (c : NodeClass) (setter : string)
| SetVerbose (c : NodeClass) (v : bool)
| Get (c : NodeClass) (getter : string)
| SetOutDir (c : NodeClass) (dir sfx : string)
| SetInputFromCheckpoint (c : NodeClass) (file : string)
| SetSettlingTime (c : NodeClass) (t : float)
| EnableSettlingOutput (c : NodeClass) (on : bool) (fps : float)
| Settle (c : NodeClass)
| WriteCheckpoint (c : NodeClass) (file : string)
| Initialize (c : NodeClass)
| Synchronize (c : NodeClass) (is_ : Z) (time : float)
| Advance (c : NodeClass) (dt : float)
| OutputData (c : NodeClass) (frame : Z)
| Delete (c : NodeClass).

Inductive Undef : Set :=
| NullDereference
| IntConversion
| DivisionByZero.

(** How a process ends: [return code] from [main], [MPI_Abort], being taken
    down by a peer's [MPI_Abort], or undefined behaviour. *)
Inductive Outcome : Set :=
| Exit (code : Z)
| Aborted (code : Z)
| Killed
| Undefined (u : Undef).

Definition Trace : Set := list Event.

(** ** A monad for traces with early termination *)

Definition M (A : Type) : Type := (Trace * (A + Outcome))%type.

Definition ret {A} (a : A) : M A := ([], inl a).

Definition stop {A} (o : Outcome) : M A := ([], inr o).

Definition emit (e : Event) : M unit := ([e], inl tt).

Definition bind {A B} (m : M A) (k : A -> M B) : M B :=
  match m with
  | (t, inl a) => let (t', r) := k a in (t ++ t', r)
  | (t, inr o) => (t, inr o)
  end.

Declare Scope cosim_scope.
Delimit Scope cosim_scope with cosim.
Notation "x <- m ;; k" := (bind m (fun x => k))
  (at level 61, m at next level, right associativity) : cosim_scope.
Notation "' p <- m ;; k" := (bind m (fun x => match x with p => k end))
  (at level 61, p pattern, m at next level, right associativity) : cosim_scope.
Notation "m ;; k" := (bind m (fun _ => k))
  (at level 61, right associativity) : cosim_scope.
Local Open Scope cosim_scope.

Definition when (b : bool) (m : M unit) : M unit :=
  if b then m else ret tt.

Definition emits (l : Trace) : M unit := (l, inl tt).

(** A value whose computation has undefined behaviour when absent: the run
    is followed up to that operation and no further, since the language does
    not say what a program does after it. *)
Definition defined {A} (u : Undef) (o : option A) : M A :=
  match o with
  | Some a => ret a
  | None => stop (Undefined u)
  end.

(** ** The driver *)

Inductive ChContactMethod : Set := SMC | NSC.

(** [return code;] inside [main]. *)
Definition return_ {A} (code : Z) : M A := stop (Exit code).

(** [MPI_Abort(MPI_COMM_WORLD, code)]: the call does not return. *)
Definition abort {A} (code : Z) : M A :=
  emit (MPI_Abort code) ;; stop (Aborted code).

(** [node->...] on the driver's node pointer. *)
Definition deref (node : option NodeClass) : M NodeClass :=
  defined NullDereference node.

(** Calls on a freshly built node that only store parameters are kept by
    name, in program order: their arguments are constants or the variables
    [step_size], [sys_mass], [coh_pressure], [render] and [render_fps].
    [SetVerbose], whose argument is [verbose], is an event of its own. *)
Definition configure (c : NodeClass) (setters : list string) : M unit :=
  emits (map (Config c) setters).

(** The assignments of lines 539-576; a [terrain_type] option outside 0..5
    matches no case of the switch and leaves the variable as it was. *)
Definition read_options (c : CLI) (s : Specs) : Specs :=
  let terrain :=
    match cli_terrain_type c with
    | 0 => RIGID
    | 1 => SCM
    | 2 => GRANULAR_OMP
    | 3 => GRANULAR_GPU
    | 4 => GRANULAR_SPH
    | 5 => GRANULAR_MPI
    | _ => terrain_type s
    end in
  {| terrain_type := terrain;
     nthreads_rig := cli_threads_rig c;
     nthreads_terrain := cli_threads_terrain c;
     step_size := cli_step_size c;
     sim_time := cli_sim_time c;
     init_vel := cli_init_vel c;
     slip := cli_slip c;
     coh_pressure := cli_coh_pressure c;
     sys_mass := cli_sys_mass c;
     use_checkpoint := cli_use_checkpoint c;
     output := negb (cli_no_output c);
     render := negb (cli_no_render c);
     verbose := negb (cli_quiet c);
     suffix := cli_suffix c |}.

(** [GetProblemSpecs] (lines 492-579): the locals are passed by reference and
    overwritten only when parsing succeeds. *)
Definition GetProblemSpecs (c : CLI) (rank : Z) (s : Specs) : M (bool * Specs) :=
  if negb (cli_parse c) then
    when (rank =? 0) (emit cli_Help) ;;
    ret (false, s)
  else ret (true, read_options c s).

Section Driver.

Variable b : Build.
Variable g : Globals.
Variable inp : Input.
Variable rank : Z.

(** Lines 93-105. *)
Definition mpi_prologue : M unit :=
  emits [MPI_Init; MPI_Comm_size; MPI_Comm_rank; MPI_Get_processor_name] ;;
  when (_DEBUG b)
    (when (rank =? 0) (emit (cout msg_debug_prompt) ;; emit cin_int) ;;
     emit MPI_Barrier).

(** Lines 107-112. *)
Definition check_num_procs : M unit :=
  if negb (num_procs inp =? 2) then
    when (rank =? 0) (emit (cout msg_two_ranks)) ;;
    abort 1
  else ret tt.

(** Lines 114-133. *)
Definition parse_arguments : M Specs :=
  r <- GetProblemSpecs (cli inp) rank initial_specs ;;
  if negb (fst r) then emit MPI_Finalize ;; return_ 1
  else ret (snd r).

Definition required_module_missing (t : TerrainType) : option Message :=
  match t with
  | RIGID | GRANULAR_OMP =>
      if CHRONO_MULTICORE b then None else Some msg_need_multicore
  | GRANULAR_GPU => if CHRONO_GPU b then None else Some msg_need_gpu
  | GRANULAR_SPH => if CHRONO_FSI b then None else Some msg_need_fsi
  | SCM | GRANULAR_MPI => None
  end.

(** Lines 135-160: the three [#ifndef] guards test disjoint terrain types. *)
Definition check_modules (t : TerrainType) : M unit :=
  match required_module_missing t with
  | Some m => when (rank =? 0) (emit (cout m)) ;; abort 1
  | None => ret tt
  end.

Definition out_dir_top : string :=
  (GetChronoOutputPath g ++ "RIG_COSIM")%string.

Definition out_dir (t : TerrainType) : string :=
  (out_dir_top ++ "/" ++ RigTypeAsString g (tire_type g) ++ "_"
     ++ TerrainTypeAsString g t)%string.

Definition make_directory (ok : bool) (dir : string) : M unit :=
  emit (create_directory dir) ;;
  if negb ok then emit (cout (msg_dir_error dir)) ;; abort 1
  else ret tt.

(** Lines 162-179. *)
Definition prepare_output (t : TerrainType) : M unit :=
  when (rank =? 0)
    (make_directory (mkdir_top inp) out_dir_top ;;
     make_directory (mkdir_out inp) (out_dir t)) ;;
  emit MPI_Barrier.

(** Line 182. *)
Definition sim_steps_of (sp : Specs) : option Z :=
  Cpp.int_of_ceil (sim_time sp / step_size sp)%float.

(** Line 183. *)
Definition output_steps_of (sp : Specs) : option Z :=
  Cpp.int_of_ceil (1 / (output_fps g * step_size sp))%float.

(** An output statement that prints what getters of the node return: the
    getters are called, in the order written, before the line is complete. *)
Definition report (node : NodeClass) (getters : list string) (m : Message) : M unit :=
  emits (map (Get node) getters) ;;
  emit (cout m).

(** Lines 188-219. *)
Definition create_rig (sp : Specs) : M (option NodeClass) :=
  when (verbose sp) (emit (cout (msg_rig_rank rank))) ;;
  rig <- match tire_type g with
         | TIRE_RIGID =>
             let rig := RigNodeRigidTire in
             emit (New rig) ;;
             emit (SetVerbose rig (verbose sp)) ;;
             configure rig ["SetTireJSONFile"; "SetBodyMasses"; "SetDBPfilterWindow"] ;;
             ret (Some rig)
         | TIRE_FLEXIBLE =>
             let rig := RigNodeFlexibleTire in
             emit (New rig) ;;
             emit (SetVerbose rig (verbose sp)) ;;
             configure rig ["SetTireJSONFile"; "SetBodyMasses"; "EnableTirePressure";
                            "SetDBPfilterWindow"] ;;
             ret (Some rig)
         end ;;
  node <- deref rig ;;
  configure node ["SetStepSize"] ;;
  emit (SetOutDir node (out_dir (terrain_type sp)) (suffix sp)) ;;
  when (verbose sp) (report node ["GetOutDirName"] msg_rig_outdir) ;;
  ret rig.

(** The part shared by all terrain cases: verbosity, step size, output
    directory, run-time visualization and the directory message. *)
Definition terrain_common (sp : Specs) (terrain : NodeClass) : M unit :=
  emit (SetVerbose terrain (verbose sp)) ;;
  configure terrain ["SetStepSize"] ;;
  emit (SetOutDir terrain (out_dir (terrain_type sp)) (suffix sp)) ;;
  configure terrain ["EnableRuntimeVisualization"] ;;
  when (verbose sp) (report terrain ["GetOutDirName"] msg_terrain_outdir).

(** Lines 357-364 and 407-414. *)
Definition settle_or_restore (sp : Specs) (terrain : NodeClass) : M unit :=
  if use_checkpoint sp then
    emit (SetInputFromCheckpoint terrain "checkpoint_settled.dat")
  else
    emit (SetSettlingTime terrain 0.4%float) ;;
    emit (EnableSettlingOutput terrain true (output_fps g)) ;;
    emit (Settle terrain) ;;
    emit (WriteCheckpoint terrain "checkpoint_settled.dat").

Definition contact_setters (method : ChContactMethod) (smc : list string) : list string :=
  match method with
  | SMC => "SetMaterialSurface" :: smc
  | NSC => ["SetMaterialSurface"]
  end.

(** Lines 221-448.  [node] is the pointer as the rig block left it; a case
    whose body is compiled out, or a type without a case, leaves it as is. *)
Definition create_terrain (sp : Specs) (node : option NodeClass) : M (option NodeClass) :=
  when (verbose sp) (emit (cout (msg_terrain_rank rank))) ;;
  match terrain_type sp with
  | RIGID =>
      if CHRONO_MULTICORE b then
        let method := SMC in
        let terrain := TerrainNodeRigid in
        emit (New terrain) ;;
        terrain_common sp terrain ;;
        configure terrain ["SetPatchDimensions"; "SetProxyFixed"; "SetProxyContactRadius"] ;;
        configure terrain
          (contact_setters method ["UseMaterialProperties"; "SetContactForceModel"]) ;;
        ret (Some terrain)
      else ret node
  | SCM =>
      let terrain := TerrainNodeSCM in
      emit (New terrain) ;;
      terrain_common sp terrain ;;
      configure terrain ["SetPatchDimensions"; "SetPropertiesSCM"; "SetProxyFixed";
                         "SetProxyContactRadius"] ;;
      when (use_checkpoint sp)
        (emit (SetInputFromCheckpoint terrain "checkpoint_end.dat")) ;;
      ret (Some terrain)
  | GRANULAR_OMP =>
      if CHRONO_MULTICORE b then
        let method := SMC in
        let terrain := TerrainNodeGranularOMP in
        emit (New terrain) ;;
        terrain_common sp terrain ;;
        configure terrain ["SetPatchDimensions"; "SetWallThickness"; "SetProxyFixed";
                           "SetProxyContactRadius"; "SetGranularMaterial";
                           "SetSamplingMethod"] ;;
        configure terrain
          (contact_setters method ["UseMaterialProperties"; "SetContactForceModel";
                                   "SetTangentialDisplacementModel"]) ;;
        settle_or_restore sp terrain ;;
        ret (Some terrain)
      else ret node
  | GRANULAR_GPU =>
      if CHRONO_GPU b then
        let terrain := TerrainNodeGranularGPU in
        emit (New terrain) ;;
        terrain_common sp terrain ;;
        configure terrain ["SetPatchDimensions"; "SetProxyFixed"; "SetGranularMaterial";
                           "SetTangentialDisplacementModel"; "SetSamplingMethod";
                           "SetMaterialSurface"] ;;
        settle_or_restore sp terrain ;;
        ret (Some terrain)
      else ret node
  | GRANULAR_SPH =>
      if CHRONO_FSI b then
        let terrain := TerrainNodeGranularSPH in
        emit (New terrain) ;;
        terrain_common sp terrain ;;
        configure terrain ["SetPatchDimensions"; "SetGranularMaterial"; "SetPropertiesSPH"] ;;
        ret (Some terrain)
      else ret node
  | GRANULAR_MPI => ret node
  end.

(** Lines 185-448. *)
Definition create_node (sp : Specs) : M (option NodeClass) :=
  let node : option NodeClass := None in
  node <- (if rank =? RIG_NODE_RANK b then create_rig sp else ret node) ;;
  (if rank =? TERRAIN_NODE_RANK b then create_terrain sp node else ret node).

(** Lines 476-479. *)
Definition maybe_output (sp : Specs) (node : NodeClass) (output_steps is_ output_frame : Z)
  : M Z :=
  if output sp then
    r <- defined DivisionByZero (Cpp.rem is_ output_steps) ;;
    if r =? 0 then emit (OutputData node output_frame) ;; ret (output_frame + 1)
    else ret output_frame
  else ret output_frame.

(** One pass through the body of the loop, lines 464-479. *)
Definition loop_body (sp : Specs) (node : NodeClass) (output_steps is_ output_frame : Z)
  : M Z :=
  let time := (Cpp.double_of_int is_ * step_size sp)%float in
  when (verbose sp && (rank =? 0)) (emit (cout (msg_step is_))) ;;
  emit MPI_Barrier ;;
  emit (Synchronize node is_ time) ;;
  emit (Advance node (step_size sp)) ;;
  when (verbose sp)
    (report node ["GetSimTime"; "GetTotalSimTime"] (msg_sim_time rank)) ;;
  maybe_output sp node output_steps is_ output_frame.

(** [for (int is = 0; is < sim_steps; is++)], lines 463-480; the result is
    the final [output_frame]. *)
Fixpoint main_loop (sp : Specs) (node : NodeClass) (sim_steps output_steps : Z)
         (fuel : nat) (is_ output_frame : Z) : M Z :=
  match fuel with
  | O => ret output_frame
  | S fuel' =>
      if is_ <? sim_steps then
        output_frame' <- loop_body sp node output_steps is_ output_frame ;;
        main_loop sp node sim_steps output_steps fuel' (is_ + 1) output_frame'
      else ret output_frame
  end.

(** Lines 450-487. *)
Definition cosimulate (sp : Specs) (sim_steps output_steps : Z) (node : option NodeClass)
  : M Z :=
  n <- deref node ;;
  emit (Initialize n) ;;
  let output_frame := 0 in
  main_loop sp n sim_steps output_steps (Z.to_nat sim_steps) 0 output_frame ;;
  emit (WriteCheckpoint n "checkpoint_end.dat") ;;
  emit (Delete n) ;;
  emit MPI_Finalize ;;
  ret 0.

(** Lines 86-179: everything up to and including the start-up barrier. *)
Definition reach_barrier : M Specs :=
  mpi_prologue ;;
  check_num_procs ;;
  sp <- parse_arguments ;;
  check_modules (terrain_type sp) ;;
  prepare_output (terrain_type sp) ;;
  ret sp.

(** Lines 86-183. *)
Definition startup : M (Specs * Z * Z) :=
  sp <- reach_barrier ;;
  sim_steps <- defined IntConversion (sim_steps_of sp) ;;
  output_steps <- defined IntConversion (output_steps_of sp) ;;
  ret (sp, sim_steps, output_steps).

Definition main_body : M Z :=
  '(sp, sim_steps, output_steps) <- startup ;;
  node <- create_node sp ;;
  cosimulate sp sim_steps output_steps node.

(** One rank's run of [main]. *)
Definition main : Trace * Outcome :=
  match main_body with
  | (t, inl code) => (t, Exit code)
  | (t, inr o) => (t, o)
  end.

End Driver.

(** ** The two-rank job *)

(** Number of barriers a process has entered. *)
Fixpoint barriers (t : Trace) : nat :=
  match t with
  | [] => O
  | MPI_Barrier :: t' => S (barriers t')
  | _ :: t' => barriers t'
  end.

(** What a process can have done when its peer entered only [k] barriers:
    its own events up to its [k+1]-st barrier, which never returns. *)
Fixpoint until_barrier (k : nat) (t : Trace) : Trace :=
  match t with
  | [] => []
  | MPI_Barrier :: t' =>
      match k with
      | O => [MPI_Barrier]
      | S k' => MPI_Barrier :: until_barrier k' t'
      end
  | e :: t' => e :: until_barrier k t'
  end.

(** The run of [rank] inside a job of two ranks, 0 and 1: [MPI_Abort] on
    [MPI_COMM_WORLD] by the peer takes this process down as well, at the
    latest in the barrier the peer never enters. *)
Definition job_run (b : Build) (g : Globals) (inp : Input) (rank : Z) : Trace * Outcome :=
  let mine := main b g inp rank in
  let peer := main b g inp (1 - rank) in
  match snd peer with
  | Aborted _ =>
      if (barriers (fst peer) <? barriers (fst mine))%nat
      then (until_barrier (barriers (fst peer)) (fst mine), Killed)
      else mine
  | _ => mine
  end.

(** ** Reading traces *)

Definition is_New (e : Event) : bool :=
  match e with New _ => true | _ => false end.

Definition is_Synchronize (e : Event) : bool :=
  match e with Synchronize _ _ _ => true | _ => false end.

Definition is_Advance (e : Event) : bool :=
  match e with Advance _ _ => true | _ => false end.

Definition is_OutputData (e : Event) : bool :=
  match e with OutputData _ _ => true | _ => false end.

(** Events in which a node computes: settling, the initial handshake and the
    stepping calls. *)
Definition is_physics (e : Event) : bool :=
  match e with
  | Settle _ | Initialize _ | Synchronize _ _ _ | Advance _ _ => true
  | _ => false
  end.

Definition is_settling (e : Event) : bool :=
  match e with
  | SetSettlingTime _ _ | EnableSettlingOutput _ _ _ | Settle _ => true
  | _ => false
  end.

Definition is_restore (e : Event) : bool :=
  match e with SetInputFromCheckpoint _ _ => true | _ => false end.

Definition is_checkpoint (file : string) (e : Event) : bool :=
  match e with
  | WriteCheckpoint _ f => String.eqb f file
  | _ => false
  end.

Definition created_directories (t : Trace) : list string :=
  flat_map (fun e => match e with create_directory d => [d] | _ => [] end) t.

(** The integers [0, 1, ..., n-1]. *)
Definition upto (n : Z) : list Z := map Z.of_nat (seq 0 (Z.to_nat n)).

Section Iteration.

Variable rank : Z.
Variable sp : Specs.
Variable node : NodeClass.
Variable output_steps : Z.

Definition output_due (n : Z) : bool :=
  output sp && (Z.rem n output_steps =? 0).

(** Number of loop indices below [n] at which output was written. *)
Definition frames_before (n : Z) : Z :=
  Z.of_nat (List.length (filter output_due (upto n))).

(** The events of the loop body at index [n] when [frame] outputs came
    before. *)
Definition iteration (n frame : Z) : Trace :=
  (if verbose sp && (rank =? 0) then [cout (msg_step n)] else [])
    ++ [MPI_Barrier;
        Synchronize node n (Cpp.double_of_int n * step_size sp)%float;
        Advance node (step_size sp)]
    ++ (if verbose sp
        then [Get node "GetSimTime"; Get node "GetTotalSimTime"; cout (msg_sim_time rank)]
        else [])
    ++ (if output_due n then [OutputData node frame] else []).

Definition next_frame (n frame : Z) : Z :=
  if output_due n then frame + 1 else frame.

Fixpoint loop_events (k : nat) (n frame : Z) : Trace :=
  match k with
  | O => []
  | S k' => iteration n frame ++ loop_events k' (n + 1) (next_frame n frame)
  end.

(** All iterations of a loop of [sim_steps] steps. *)
Definition iterations (sim_steps : Z) : Trace :=
  flat_map (fun n => iteration n (frames_before n)) (upto sim_steps).

End Iteration.

(** The events of a rank up to the start-up barrier when nothing fails. *)
Definition startup_events (b : Build) (g : Globals) (rank : Z) (t : TerrainType) : Trace :=
  fst (mpi_prologue b rank)
    ++ (if rank =? 0
        then [create_directory (out_dir_top g); create_directory (out_dir g t)]
        else [])
    ++ [MPI_Barrier].

(** The events of building and configuring the node. *)
Definition node_events (b : Build) (g : Globals) (rank : Z) (sp : Specs) : Trace :=
  fst (create_node b g rank sp).

(** ** Conditions under which a rank gets through start-up *)

Definition parsed (inp : Input) : Specs := read_options (cli inp) initial_specs.

Definition modules_ok (b : Build) (t : TerrainType) : bool :=
  match required_module_missing b t with
  | None => true
  | Some _ => false
  end.

Definition directories_ok (inp : Input) (rank : Z) : bool :=
  negb (rank =? 0) || (mkdir_top inp && mkdir_out inp).

(** The class of the node the rank ends up with, for a terrain type whose
    modules are compiled in. *)
Definition rig_class (g : Globals) : NodeClass :=
  match tire_type g with
  | TIRE_RIGID => RigNodeRigidTire
  | TIRE_FLEXIBLE => RigNodeFlexibleTire
  end.

Definition terrain_class (t : TerrainType) : option NodeClass :=
  match t with
  | RIGID => Some TerrainNodeRigid
  | SCM => Some TerrainNodeSCM
  | GRANULAR_OMP => Some TerrainNodeGranularOMP
  | GRANULAR_GPU => Some TerrainNodeGranularGPU
  | GRANULAR_SPH => Some TerrainNodeGranularSPH
  | GRANULAR_MPI => None
  end.

Definition node_class (b : Build) (g : Globals) (rank : Z) (t : TerrainType) : option NodeClass :=
  let rig := if rank =? RIG_NODE_RANK b then Some (rig_class g) else None in
  if rank =? TERRAIN_NODE_RANK b then
    match terrain_class t with
    | Some c => Some c
    | None => rig
    end
  else rig.

(** The loop never evaluates [is % 0]. *)
Definition remainder_ok (sp : Specs) (sim_steps output_steps : Z) : bool :=
  negb (output sp) || negb (output_steps =? 0) || (sim_steps <=? 0).

Record Launch (b : Build) (g : Globals) (inp : Input) (rank : Z)
       (node : NodeClass) (sim_steps output_steps : Z) : Prop := {
  launch_procs : num_procs inp = 2;
  launch_parse : cli_parse (cli inp) = true;
  launch_modules : modules_ok b (terrain_type (parsed inp)) = true;
  launch_directories : directories_ok inp rank = true;
  launch_sim_steps : sim_steps_of (parsed inp) = Some sim_steps;
  launch_output_steps : output_steps_of g (parsed inp) = Some output_steps;
  launch_node : node_class b g rank (terrain_type (parsed inp)) = Some node;
  launch_remainder : remainder_ok (parsed inp) sim_steps output_steps = true
}.

(** ** Kinds of events in each phase *)

Definition is_startup (e : Event) : bool :=
  match e with
  | MPI_Init | MPI_Comm_size | MPI_Comm_rank | MPI_Get_processor_name
  | MPI_Barrier | cin_int | cout msg_debug_prompt | create_directory _ => true
  | _ => false
  end.

Definition is_setup (e : Event) : bool :=
  match e with
  | New _ | Config _ _ | SetVerbose _ _ | SetOutDir _ _ _ | SetInputFromCheckpoint _ _
  | SetSettlingTime _ _ | EnableSettlingOutput _ _ _ | Settle _ => true
  | Get _ getter => String.eqb getter "GetOutDirName"
  | WriteCheckpoint _ f => String.eqb f "checkpoint_settled.dat"
  | cout (msg_rig_rank _) | cout msg_rig_outdir
  | cout (msg_terrain_rank _) | cout msg_terrain_outdir => true
  | _ => false
  end.

Definition is_stepping (e : Event) : bool :=
  match e with
  | cout (msg_step _) | cout (msg_sim_time _) | MPI_Barrier
  | Synchronize _ _ _ | Advance _ _ | OutputData _ _ => true
  | Get _ getter => String.eqb getter "GetSimTime" || String.eqb getter "GetTotalSimTime"
  | _ => false
  end.

(** Every [Advance] in the trace comes directly after a barrier and a
    [Synchronize] on the same node. *)
Definition advance_guarded (t : Trace) : Prop :=
  forall pre c dt post,
    t = pre ++ Advance c dt :: post ->
    exists pre' n time, pre = pre' ++ [MPI_Barrier; Synchronize c n time].

(** A property of every event a computation emits. *)
Definition all_events {A} (p : Event -> bool) (m : M A) : Prop :=
  forallb p (fst m) = true.

(** Events that can follow the check of the number of processes: all but
    its diagnostic. *)
Definition after_check (e : Event) : bool :=
  match e with
  | cout msg_two_ranks => false
  | _ => true
  end.

(** The node's own set-up calls other than settling and restoring. *)
Definition is_plain_setup (e : Event) : bool :=
  match e with
  | New _ | Config _ _ | SetVerbose _ _ | Get _ _ | SetOutDir _ _ _ | cout _ => true
  | _ => false
  end.

Definition is_settle_or_restore (e : Event) : bool :=
  is_settling e || is_restore e || is_checkpoint "checkpoint_settled.dat" e.

(** ** The node contract (specification sections 3, 4.1 and 4.2)

    The node classes are not part of the driver's sources; their contract is
    taken from the specification.  Vectors, the terrain patch, the backend
    state and the physical laws are opaque collaborators. *)

Section NodeContractModel.

Variable Vec : Type.
Variable zero : Vec.
Variable Patch : Type.
Variable inside : Patch -> Vec -> bool.
Variable Soil : Type.

(** Modelled from the spec: the tagged union TerrainVariant of section 3,
    whose class hierarchy is not in the sources. *)
Inductive TerrainVariant : Set :=
| V_RIGID | V_DEFORMABLE_SCM | V_GRANULAR_CPU | V_GRANULAR_GPU | V_GRANULAR_SPH.

(** The variant's physical model: the force on a contact node from its
    position and velocity. *)
Variable reaction : TerrainVariant -> Soil -> Vec -> Vec -> Vec.
Variable advance_soil : TerrainVariant -> Soil -> float -> Soil.
(** The tire's own dynamics: a vertex state moved over [dt] under a force. *)
Variable deform : float -> Vec * Vec -> Vec -> Vec * Vec.

Definition Face : Set := (nat * nat * nat)%type.

(** Modelled from the spec: the "full deformable surface mesh (vertex
    positions, vertex velocities, face connectivity)" of the exchange payload
    (section 3); the payload type is not in the sources. *)
Record Mesh : Type := {
  vertices : list (Vec * Vec);
  faces : list Face
}.

(** Modelled from the spec: the mesh topology of section 3, vertex count
    and face connectivity; the mesh class is not in the sources. *)
Definition topology (m : Mesh) : nat * list Face :=
  (List.length (vertices m), faces m).

(** Modelled from the spec: the state a flexible-tire RigNode (4.1) exports,
    its deformed mesh; the class is not in the sources. *)
Record RigNode : Type := {
  rig_mesh : Mesh
}.

(** Modelled from the spec: a TerrainNode (4.2) with its variant, its patch,
    the backend state and the topology received at [Initialize]; the class is
    not in the sources. *)
Record TerrainNode : Type := {
  variant : TerrainVariant;
  patch : Patch;
  soil : Soil;
  received_topology : option (nat * list Face)
}.

(** Modelled from the spec: the checkpoint store of section 3, persisted
    snapshots of terrain state by label; it is not in the sources. *)
Definition CheckpointStore : Type := list (string * Soil).

(** Modelled from the spec: [RigNode::Initialize] (4.1), which is not in the
    sources, "constructs the initial ExchangePayload (mesh topology + contact
    material for flexible tires ...)"; the payload is the rig's mesh. *)
Definition Rig_Initialize (r : RigNode) : Mesh := rig_mesh r.

(** Modelled from the spec: [TerrainNode::Initialize] (4.2), which is not in
    the sources, "receives the rig's initial ExchangePayload" and keeps the
    topology it was given. *)
Definition Terrain_Initialize (t : TerrainNode) (payload : Mesh) : TerrainNode :=
  {| variant := variant t;
     patch := patch t;
     soil := soil t;
     received_topology := Some (topology payload) |}.

(** Modelled from the spec: the rig side of [Synchronize] (4.1), which is not
    in the sources, publishes the current state of every vertex, in mesh
    order. *)
Definition Rig_Synchronize (r : RigNode) : list (Vec * Vec) :=
  vertices (rig_mesh r).

(** Modelled from the spec: the force [TerrainNode::Synchronize] (4.2),
    which is not in the sources, reports for one contact node: the variant's
    physical model inside the patch and, by the tie-break rule, zero for a
    node "outside the terrain patch bounds ... rather than causing a fault". *)
Definition force_on (t : TerrainNode) (s : Vec * Vec) : Vec :=
  if inside (patch t) (fst s)
  then reaction (variant t) (soil t) (fst s) (snd s)
  else zero.

(** Modelled from the spec: [TerrainNode::Synchronize] (4.2), which is not in
    the sources, "computes reaction forces via the variant's physical model,
    and returns them matched one-to-one against the node indices ... the rig
    supplied".  The reply is a plain list of forces: the call has no failing
    result. *)
Definition Terrain_Synchronize (t : TerrainNode) (step : Z) (time : float)
           (nodes : list (Vec * Vec)) : list Vec :=
  map (force_on t) nodes.

(** Modelled from the spec: [RigNode::Advance] (4.1), which is not in the
    sources, "integrates the vehicle/tire subsystem by exactly dt"; by the
    invariant of section 3 "only vertex positions/velocities may change per
    step". *)
Definition Rig_Advance (r : RigNode) (forces : list Vec) (dt : float) : RigNode :=
  {| rig_mesh :=
       {| vertices := map (fun sf => deform dt (fst sf) (snd sf))
                          (combine (vertices (rig_mesh r)) forces);
          faces := faces (rig_mesh r) |} |}.

(** Modelled from the spec: [TerrainNode::Advance] (4.2), which is not in the
    sources, "integrates the terrain subsystem ... by dt". *)
Definition Terrain_Advance (t : TerrainNode) (dt : float) : TerrainNode :=
  {| variant := variant t;
     patch := patch t;
     soil := advance_soil (variant t) (soil t) dt;
     received_topology := received_topology t |}.

(** Modelled from the spec: [RigNode::WriteCheckpoint] (4.1), which is not in
    the sources, is a "no-op for rig nodes in this design (rig state is not
    checkpointed), but the call must be accepted without error". *)
Definition Rig_WriteCheckpoint (r : RigNode) (store : CheckpointStore) (label : string)
  : RigNode * CheckpointStore :=
  (r, store).

(** Modelled from the spec: [TerrainNode::WriteCheckpoint] (4.2), which is
    not in the sources, "persists height-field or particle state" under the
    label. *)
Definition Terrain_WriteCheckpoint (t : TerrainNode) (store : CheckpointStore)
           (label : string) : TerrainNode * CheckpointStore :=
  (t, (label, soil t) :: store).

(** Modelled from the spec: one pass of the coordinator's loop (4.4) over
    the pair of nodes, "Synchronize -> Advance"; the result carries the
    forces returned in this step. *)
Definition cosim_step (dt : float) (step : Z) (s : RigNode * TerrainNode)
  : RigNode * TerrainNode * list Vec :=
  let (r, t) := s in
  let forces := Terrain_Synchronize t step (Cpp.double_of_int step * dt)%float
                                    (Rig_Synchronize r) in
  (Rig_Advance r forces dt, Terrain_Advance t dt, forces).

(** Modelled from the spec: the coordinator's loop (4.4), which the sources
    have only for one rank: the nodes after [k] steps starting at index
    [step], and the forces returned in each of them, oldest first. *)
Fixpoint cosim_steps (dt : float) (k : nat) (step : Z) (s : RigNode * TerrainNode)
  : RigNode * TerrainNode * list (list Vec) :=
  match k with
  | O => (s, [])
  | S k' =>
      let '(r, t, forces) := cosim_step dt step s in
      let '(s', replies) := cosim_steps dt k' (step + 1) (r, t) in
      (s', forces :: replies)
  end.

(** Modelled from the spec: a flexible-tire run (4.4): the handshake of
    [Initialize], then [k] steps. *)
Definition cosim_run (dt : float) (k : nat) (r : RigNode) (t : TerrainNode)
  : RigNode * TerrainNode * list (list Vec) :=
  cosim_steps dt k 0 (r, Terrain_Initialize t (Rig_Initialize r)).

(** Modelled from the spec: the variants whose exchange is a "per-particle /
    per-mesh-node force vector" (table of 4.2). *)
Definition mesh_based (v : TerrainVariant) : bool :=
  match v with
  | V_GRANULAR_CPU | V_GRANULAR_GPU | V_GRANULAR_SPH => true
  | V_RIGID | V_DEFORMABLE_SCM => false
  end.

End NodeContractModel.

Arguments vertices {Vec} m.
Arguments faces {Vec} m.
Arguments rig_mesh {Vec} r.
Arguments variant {Patch Soil} t.
Arguments patch {Patch Soil} t.
Arguments soil {Patch Soil} t.
Arguments received_topology {Patch Soil} t.
Arguments topology {Vec} m.
Arguments force_on {Vec} zero {Patch} inside {Soil} reaction t s.
Arguments Terrain_Synchronize {Vec} zero {Patch} inside {Soil} reaction t step time nodes.
Arguments Rig_WriteCheckpoint {Vec Soil} r store label.
Arguments cosim_run {Vec} zero {Patch} inside {Soil} reaction advance_soil deform dt k r t.
Arguments Rig_Initialize {Vec} r.
Arguments Rig_Synchronize {Vec} r.
Arguments Terrain_Initialize {Vec Patch Soil} t payload.
Arguments Rig_Advance {Vec} deform r forces dt.
Arguments Terrain_Advance {Patch Soil} advance_soil t dt.
Arguments Terrain_WriteCheckpoint {Patch Soil} t store label.
Arguments cosim_step {Vec} zero {Patch} inside {Soil} reaction advance_soil deform dt step s.
Arguments cosim_steps {Vec} zero {Patch} inside {Soil} reaction advance_soil deform dt k step s.

(** ** A concrete job

    Two ranks, every optional module compiled in, rig on rank 0 and terrain
    on rank 1.  Times are dyadic so that the literals are exact doubles:
    1/32 s of simulation at a step of 1/512 s gives 16 steps, and output at
    100 frames per second is due every 6 steps. *)

Definition demo_build : Build := {|
  _DEBUG := false;
  CHRONO_MULTICORE := true;
  CHRONO_GPU := true;
  CHRONO_FSI := true;
  RIG_NODE_RANK := 0;
  TERRAIN_NODE_RANK := 1
|}.

Definition demo_globals : Globals := {|
  output_fps := 100%float;
  render_fps := 100%float;
  tire_type := TIRE_RIGID;
  GetChronoOutputPath := "OUT/";
  RigTypeAsString := fun t =>
    match t with TIRE_RIGID => "RIGID" | TIRE_FLEXIBLE => "FLEXIBLE" end;
  TerrainTypeAsString := fun t =>
    match t with
    | RIGID => "RIGID"
    | SCM => "SCM"
    | GRANULAR_OMP => "GRANULAR_OMP"
    | GRANULAR_GPU => "GRANULAR_GPU"
    | GRANULAR_MPI => "GRANULAR_MPI"
    | GRANULAR_SPH => "GRANULAR_SPH"
    end
|}.

Definition demo_cli (terrain : Z) (checkpoint : bool) (sfx : string) : CLI := {|
  cli_parse := true;
  cli_terrain_type := terrain;
  cli_sim_time := 0.03125%float;
  cli_step_size := 0.001953125%float;
  cli_init_vel := 0.5%float;
  cli_slip := 0%float;
  cli_coh_pressure := 0%float;
  cli_sys_mass := 200%float;
  cli_quiet := false;
  cli_no_render := false;
  cli_no_output := false;
  cli_use_checkpoint := checkpoint;
  cli_threads_rig := 1;
  cli_threads_terrain := 1;
  cli_suffix := sfx
|}.

Definition demo_input (procs terrain : Z) (checkpoint : bool) (sfx : string) : Input := {|
  num_procs := procs;
  cli := demo_cli terrain checkpoint sfx;
  mkdir_top := true;
  mkdir_out := true
|}.

(** The same job asked to simulate 2^32 s at a step of 1 s. *)
Definition long_input : Input := {|
  num_procs := 2;
  cli := {|
    cli_parse := true;
    cli_terrain_type := 0;
    cli_sim_time := 4294967296%float;
    cli_step_size := 1%float;
    cli_init_vel := 0.5%float;
    cli_slip := 0%float;
    cli_coh_pressure := 0%float;
    cli_sys_mass := 200%float;
    cli_quiet := false;
    cli_no_render := false;
    cli_no_output := false;
    cli_use_checkpoint := false;
    cli_threads_rig := 1;
    cli_threads_terrain := 1;
    cli_suffix := ""
  |};
  mkdir_top := true;
  mkdir_out := true
|}.

(** The demo job on a file system that refuses the second directory. *)
Definition failing_mkdir_input : Input := {|
  num_procs := 2;
  cli := demo_cli 0 false "";
  mkdir_top := true;
  mkdir_out := false
|}.

(** A one-line instance of the contract for concrete runs: integer vectors,
    a patch given by its half-length and half-width, a constant unit force. *)
Definition demo_inside (patch : Z * Z) (p : Z * Z * Z) : bool :=
  let '(x, y, _) := p in
  (Z.abs x <=? fst patch) && (Z.abs y <=? snd patch).

Definition demo_terrain : TerrainNode (Z * Z) unit := {|
  variant := V_GRANULAR_CPU;
  patch := (1, 1);
  soil := tt;
  received_topology := None
|}.

Definition demo_rig : RigNode (Z * Z * Z) := {|
  rig_mesh := {| vertices := [((0, 0, 0), (1, 0, 0)); ((5, 0, 0), (1, 0, 0));
                              ((0, 1, 0), (1, 0, 0))];
                 faces := [(0, 1, 2)%nat] |}
|}.

Definition demo_reaction (v : TerrainVariant) (s : unit) (p q : Z * Z * Z) : Z * Z * Z :=
  (0, 0, 1).

Definition demo_deform (dt : float) (s : (Z * Z * Z) * (Z * Z * Z)) (f : Z * Z * Z)
  : (Z * Z * Z) * (Z * Z * Z) :=
  let '((x, y, z), (vx, vy, vz)) := s in
  ((x + vx, y + vy, z + vz), (vx, vy, vz)).

(** ** Further readings of traces and inputs *)

(** A call that acts on MPI, the file system or the node: anything but
    console output and the getters read for it. *)
Definition is_action (e : Event) : bool :=
  match e with
  | cout _ | Get _ _ => false
  | _ => true
  end.

(** The event with the flag handed to [SetVerbose] replaced by [v]. *)
Definition with_flag (v : bool) (e : Event) : Event :=
  match e with
  | SetVerbose c _ => SetVerbose c v
  | _ => e
  end.

(** What a run with [--quiet] may contain: no getter is read, the node is
    told not to be verbose, and the console shows diagnostics only. *)
Definition is_quiet (e : Event) : bool :=
  match e with
  | Get _ _ => false
  | SetVerbose _ v => negb v
  | cout m =>
      match m with
      | msg_debug_prompt | msg_two_ranks | msg_need_multicore | msg_need_gpu
      | msg_need_fsi | msg_dir_error _ => true
      | _ => false
      end
  | _ => true
  end.

Definition is_Delete (e : Event) : bool :=
  match e with Delete _ => true | _ => false end.

Definition is_Finalize (e : Event) : bool :=
  match e with MPI_Finalize => true | _ => false end.

Definition no_directory (e : Event) : bool :=
  match e with create_directory _ => false | _ => true end.

Definition no_Advance (e : Event) : bool := negb (is_Advance e).

(** The node an event is a call on, if any. *)
Definition node_of (e : Event) : option NodeClass :=
  match e with
  | New c | Config c _ | SetVerbose c _ | Get c _ | SetOutDir c _ _
  | SetInputFromCheckpoint c _
  | SetSettlingTime c _ | EnableSettlingOutput c _ _ | Settle c
  | WriteCheckpoint c _ | Initialize c | Synchronize c _ _ | Advance c _
  | OutputData c _ | Delete c => Some c
  | _ => None
  end.

(** A call on node [c] other than its construction and its deletion, or an
    event that is no call on a node at all. *)
Definition uses_only (c : NodeClass) (e : Event) : bool :=
  match e with
  | New _ | Delete _ => false
  | _ =>
      match node_of e with
      | Some c' =>
          match c, c' with
          | RigNodeRigidTire, RigNodeRigidTire
          | RigNodeFlexibleTire, RigNodeFlexibleTire
          | TerrainNodeRigid, TerrainNodeRigid
          | TerrainNodeSCM, TerrainNodeSCM
          | TerrainNodeGranularOMP, TerrainNodeGranularOMP
          | TerrainNodeGranularGPU, TerrainNodeGranularGPU
          | TerrainNodeGranularSPH, TerrainNodeGranularSPH => true
          | _, _ => false
          end
      | None => true
      end
  end.

(** The input with another [--terrain_type] option. *)
Definition with_terrain_option (z : Z) (inp : Input) : Input :=
  {| num_procs := num_procs inp;
     cli := {| cli_parse := cli_parse (cli inp);
               cli_terrain_type := z;
               cli_sim_time := cli_sim_time (cli inp);
               cli_step_size := cli_step_size (cli inp);
               cli_init_vel := cli_init_vel (cli inp);
               cli_slip := cli_slip (cli inp);
               cli_coh_pressure := cli_coh_pressure (cli inp);
               cli_sys_mass := cli_sys_mass (cli inp);
               cli_quiet := cli_quiet (cli inp);
               cli_no_render := cli_no_render (cli inp);
               cli_no_output := cli_no_output (cli inp);
               cli_use_checkpoint := cli_use_checkpoint (cli inp);
               cli_threads_rig := cli_threads_rig (cli inp);
               cli_threads_terrain := cli_threads_terrain (cli inp);
               cli_suffix := cli_suffix (cli inp) |};
     mkdir_top := mkdir_top inp;
     mkdir_out := mkdir_out inp |}.

(** The input with the [--quiet] option set as given. *)
Definition with_quiet (q : bool) (inp : Input) : Input :=
  {| num_procs := num_procs inp;
     cli := {| cli_parse := cli_parse (cli inp);
               cli_terrain_type := cli_terrain_type (cli inp);
               cli_sim_time := cli_sim_time (cli inp);
               cli_step_size := cli_step_size (cli inp);
               cli_init_vel := cli_init_vel (cli inp);
               cli_slip := cli_slip (cli inp);
               cli_coh_pressure := cli_coh_pressure (cli inp);
               cli_sys_mass := cli_sys_mass (cli inp);
               cli_quiet := q;
               cli_no_render := cli_no_render (cli inp);
               cli_no_output := cli_no_output (cli inp);
               cli_use_checkpoint := cli_use_checkpoint (cli inp);
               cli_threads_rig := cli_threads_rig (cli inp);
               cli_threads_terrain := cli_threads_terrain (cli inp);
               cli_suffix := cli_suffix (cli inp) |};
     mkdir_top := mkdir_top inp;
     mkdir_out := mkdir_out inp |}.

(** The demo job with a negative step: 2 s backwards at a step of -1 s give
    2 steps, and output would be due every 0 steps. *)
Definition backwards_input : Input := {|
  num_procs := 2;
  cli := {|
    cli_parse := true;
    cli_terrain_type := 1;
    cli_sim_time := (-2)%float;
    cli_step_size := (-1)%float;
    cli_init_vel := 0.5%float;
    cli_slip := 0%float;
    cli_coh_pressure := 0%float;
    cli_sys_mass := 200%float;
    cli_quiet := true;
    cli_no_render := false;
    cli_no_output := false;
    cli_use_checkpoint := false;
    cli_threads_rig := 1;
    cli_threads_terrain := 1;
    cli_suffix := ""
  |};
  mkdir_top := true;
  mkdir_out := true
|}.

(** The backwards job with [--no_output]. *)
Definition silent_backwards_input : Input :=
  {| num_procs := 2;
     cli := {| cli_parse := true;
               cli_terrain_type := 1;
               cli_sim_time := (-2)%float;
               cli_step_size := (-1)%float;
               cli_init_vel := 0.5%float;
               cli_slip := 0%float;
               cli_coh_pressure := 0%float;
               cli_sys_mass := 200%float;
               cli_quiet := true;
               cli_no_render := false;
               cli_no_output := true;
               cli_use_checkpoint := false;
               cli_threads_rig := 1;
               cli_threads_terrain := 1;
               cli_suffix := "" |};
     mkdir_top := true;
     mkdir_out := true |}.

(** The demo job with a step of 0 s. *)
Definition zero_step_input : Input := {|
  num_procs := 2;
  cli := {|
    cli_parse := true;
    cli_terrain_type := 1;
    cli_sim_time := 1%float;
    cli_step_size := 0%float;
    cli_init_vel := 0.5%float;
    cli_slip := 0%float;
    cli_coh_pressure := 0%float;
    cli_sys_mass := 200%float;
    cli_quiet := true;
    cli_no_render := false;
    cli_no_output := false;
    cli_use_checkpoint := false;
    cli_threads_rig := 1;
    cli_threads_terrain := 1;
    cli_suffix := ""
  |};
  mkdir_top := true;
  mkdir_out := true
|}.

(** The demo job whose command line does not parse. *)
Definition unparsed_input : Input := {|
  num_procs := 2;
  cli := {|
    cli_parse := false;
    cli_terrain_type := 0;
    cli_sim_time := 10%float;
    cli_step_size := 1e-4%float;
    cli_init_vel := 0.5%float;
    cli_slip := 0%float;
    cli_coh_pressure := 0%float;
    cli_sys_mass := 200%float;
    cli_quiet := false;
    cli_no_render := false;
    cli_no_output := false;
    cli_use_checkpoint := false;
    cli_threads_rig := 1;
    cli_threads_terrain := 1;
    cli_suffix := ""
  |};
  mkdir_top := true;
  mkdir_out := true
|}.

(** A build without any of the optional modules. *)
Definition bare_build : Build := {|
  _DEBUG := false;
  CHRONO_MULTICORE := false;
  CHRONO_GPU := false;
  CHRONO_FSI := false;
  RIG_NODE_RANK := 0;
  TERRAIN_NODE_RANK := 1
|}.

(** Neither of the two calls that end a process's part in the MPI job. *)
Definition still_running (e : Event) : bool :=
  match e with
  | MPI_Finalize | MPI_Abort _ => false
  | _ => true
  end.

Definition is_WriteCheckpoint (e : Event) : bool :=
  match e with WriteCheckpoint _ _ => true | _ => false end.

(** The events before the first construction of a node, and those after. *)
Fixpoint before_New (t : Trace) : Trace :=
  match t with
  | [] => []
  | New _ :: _ => []
  | e :: t' => e :: before_New t'
  end.

Fixpoint after_New (t : Trace) : Trace :=
  match t with
  | [] => []
  | New _ :: t' => t'
  | _ :: t' => after_New t'
  end.

(** The variables of [main] with another value of [verbose]. *)
Definition with_verbose (v : bool) (sp : Specs) : Specs :=
  {| terrain_type := terrain_type sp;
     nthreads_rig := nthreads_rig sp;
     nthreads_terrain := nthreads_terrain sp;
     step_size := step_size sp;
     sim_time := sim_time sp;
     init_vel := init_vel sp;
     slip := slip sp;
     coh_pressure := coh_pressure sp;
     sys_mass := sys_mass sp;
     use_checkpoint := use_checkpoint sp;
     output := output sp;
     render := render sp;
     verbose := v;
     suffix := suffix sp |}.

(** The calls that configure a freshly built node (set-up events other than
    console output). *)
Definition is_node_setup (e : Event) : bool :=
  match e with
  | New _ | Config _ _ | SetVerbose _ _ | SetOutDir _ _ _ | SetInputFromCheckpoint _ _
  | SetSettlingTime _ _ | EnableSettlingOutput _ _ _ | Settle _ => true
  | WriteCheckpoint _ f => String.eqb f "checkpoint_settled.dat"
  | _ => false
  end.

(** An event that is no call on a node. *)
Definition no_node_call (e : Event) : bool :=
  match node_of e with
  | None => true
  | Some _ => false
  end.


(** The events of a first pass through the loop that stops at the test of
    line 476. *)
Definition first_step_events (rank : Z) (sp : Specs) (node : NodeClass) : Trace :=
  (if verbose sp && (rank =? 0) then [cout (msg_step 0)] else [])
    ++ [MPI_Barrier;
        Synchronize node 0 (Cpp.double_of_int 0 * step_size sp)%float;
        Advance node (step_size sp)]
    ++ (if verbose sp
        then [Get node "GetSimTime"; Get node "GetTotalSimTime"; cout (msg_sim_time rank)]
        else []).

(** The run of a rank in closed form, by the first thing that goes wrong. *)
Definition summary (b : Build) (g : Globals) (inp : Input) (rank : Z) : Trace * Outcome :=
  let prologue := fst (mpi_prologue b rank) in
  let sp := parsed inp in
  let t := terrain_type sp in
  if negb (num_procs inp =? 2) then
    (prologue ++ (if rank =? 0 then [cout msg_two_ranks] else []) ++ [MPI_Abort 1],
     Aborted 1)
  else if negb (cli_parse (cli inp)) then
    (prologue ++ (if rank =? 0 then [cli_Help] else []) ++ [MPI_Finalize], Exit 1)
  else
    match required_module_missing b t with
    | Some m =>
        (prologue ++ (if rank =? 0 then [cout m] else []) ++ [MPI_Abort 1], Aborted 1)
    | None =>
        if negb (directories_ok inp rank) then
          (prologue
             ++ (if mkdir_top inp
                 then [create_directory (out_dir_top g); create_directory (out_dir g t);
                       cout (msg_dir_error (out_dir g t))]
                 else [create_directory (out_dir_top g);
                       cout (msg_dir_error (out_dir_top g))])
             ++ [MPI_Abort 1],
           Aborted 1)
        else
          match sim_steps_of sp, output_steps_of g sp with
          | Some sim_steps, Some output_steps =>
              match node_class b g rank t with
              | None =>
                  (startup_events b g rank t ++ node_events b g rank sp,
                   Undefined NullDereference)
              | Some node =>
                  if remainder_ok sp sim_steps output_steps then
                    (startup_events b g rank t
                       ++ node_events b g rank sp
                       ++ Initialize node
                       :: iterations rank sp node output_steps sim_steps
                       ++ [WriteCheckpoint node "checkpoint_end.dat"; Delete node;
                           MPI_Finalize],
                     Exit 0)
                  else
                    (startup_events b g rank t
                       ++ node_events b g rank sp
                       ++ Initialize node :: first_step_events rank sp node,
                     Undefined DivisionByZero)
              end
          | _, _ => (startup_events b g rank t, Undefined IntConversion)
          end
    end.

(** ** Basic facts about the monad *)

Lemma bind_inl {A B} (m : M A) (k : A -> M B) t a :
  m = (t, inl a) -> bind m k = (t ++ fst (k a), snd (k a)).
Proof. intros ->. unfold bind. destruct (k a); reflexivity. Qed.

Lemma bind_inr {A B} (m : M A) (k : A -> M B) t o :
  m = (t, inr o) -> bind m k = (t, inr o).
Proof. intros ->. reflexivity. Qed.

Lemma fst_bind {A B} (m : M A) (k : A -> M B) :
  fst (bind m k) =
  fst m ++ match snd m with inl a => fst (k a) | inr _ => [] end.
Proof.
  destruct m as [t [a | o]]; cbn.
  - destruct (k a); reflexivity.
  - now rewrite app_nil_r.
Qed.

(** ** The loop *)

Section LoopFacts.

Variable rank : Z.
Variable sp : Specs.
Variable node : NodeClass.
Variable sim_steps output_steps : Z.

Let iter := iteration rank sp node output_steps.
Let frames := frames_before sp output_steps.

Lemma loop_body_events n frame :
  output sp = false \/ output_steps <> 0 ->
  loop_body rank sp node output_steps n frame =
  (iteration rank sp node output_steps n frame,
   inl (next_frame sp output_steps n frame)).
Proof.
  intros Hclean.
  unfold loop_body, maybe_output, iteration, next_frame, output_due, Cpp.rem.
  destruct (output sp) eqn:Hout.
  - destruct Hclean as [Hc | Hc]; [discriminate |].
    apply Z.eqb_neq in Hc. rewrite Hc.
    destruct (verbose sp), (rank =? 0);
      cbn -[Z.rem Z.eqb Z.add PrimFloat.mul Cpp.double_of_int];
      destruct (Z.rem n output_steps =? 0); reflexivity.
  - destruct (verbose sp), (rank =? 0); reflexivity.
Qed.

Lemma main_loop_events fuel :
  forall n frame,
    output sp = false \/ output_steps <> 0 ->
    Z.of_nat fuel = Z.max 0 (sim_steps - n) ->
    exists last,
      main_loop rank sp node sim_steps output_steps fuel n frame =
      (loop_events rank sp node output_steps fuel n frame, inl last).
Proof.
  induction fuel as [| fuel IH]; intros n frame Hclean Hfuel.
  - exists frame. reflexivity.
  - cbn [main_loop loop_events].
    assert (Hlt : (n <? sim_steps) = true) by (apply Z.ltb_lt; lia).
    rewrite Hlt.
    destruct (IH (n + 1) (next_frame sp output_steps n frame) Hclean) as [last Hl];
      [lia |].
    exists last.
    rewrite (bind_inl _ _ _ _ (loop_body_events n frame Hclean)).
    rewrite Hl. reflexivity.
Qed.

Lemma upto_succ n : 0 <= n -> upto (n + 1) = upto n ++ [n].
Proof.
  intros Hn. unfold upto.
  replace (Z.to_nat (n + 1)) with (S (Z.to_nat n)) by lia.
  rewrite seq_S, map_app. cbn. now rewrite Z2Nat.id.
Qed.

Lemma frames_before_succ n :
  0 <= n -> frames (n + 1) = next_frame sp output_steps n (frames n).
Proof.
  intros Hn. unfold frames, frames_before, next_frame.
  rewrite (upto_succ n Hn), filter_app, length_app. cbn [filter].
  destruct (output_due sp output_steps n); cbn [List.length]; lia.
Qed.

Lemma loop_events_flat k :
  forall i : nat,
    loop_events rank sp node output_steps k (Z.of_nat i) (frames (Z.of_nat i)) =
    flat_map (fun n => iter n (frames n)) (map Z.of_nat (seq i k)).
Proof.
  induction k as [| k IH]; intros i; [reflexivity |].
  cbn [loop_events seq map flat_map]. f_equal.
  rewrite <- frames_before_succ by lia.
  replace (Z.of_nat i + 1) with (Z.of_nat (S i)) by lia.
  apply IH.
Qed.

(** The loop of the driver performs exactly the iterations 0 .. sim_steps-1. *)
Lemma main_loop_iterations :
  remainder_ok sp sim_steps output_steps = true ->
  exists last,
    main_loop rank sp node sim_steps output_steps (Z.to_nat sim_steps) 0 0 =
    (iterations rank sp node output_steps sim_steps, inl last).
Proof.
  intros Hrem. unfold iterations, upto.
  pose proof (loop_events_flat (Z.to_nat sim_steps) 0) as Hflat.
  subst iter frames. cbn [Z.of_nat] in Hflat.
  change (frames_before sp output_steps 0) with 0 in Hflat.
  rewrite <- Hflat. clear Hflat.
  destruct (Z_le_gt_dec sim_steps 0) as [Hle | Hgt].
  - replace (Z.to_nat sim_steps) with O by lia. exists 0. reflexivity.
  - apply (main_loop_events (Z.to_nat sim_steps) 0 0); [| lia].
    unfold remainder_ok in Hrem.
    destruct (output sp); [right | now left].
    cbn in Hrem. apply orb_true_iff in Hrem as [Hr | Hr].
    + apply negb_true_iff, Z.eqb_neq in Hr. exact Hr.
    + apply Z.leb_le in Hr. lia.
Qed.

End LoopFacts.

(** ** Start-up and node construction *)

Section LaunchFacts.

Variable b : Build.
Variable g : Globals.
Variable inp : Input.
Variable rank : Z.
Variable node : NodeClass.
Variable sim_steps output_steps : Z.
Hypothesis L : Launch b g inp rank node sim_steps output_steps.

Let sp := parsed inp.

Lemma reach_barrier_ok :
  num_procs inp = 2 ->
  cli_parse (cli inp) = true ->
  modules_ok b (terrain_type sp) = true ->
  directories_ok inp rank = true ->
  reach_barrier b g inp rank = (startup_events b g rank (terrain_type sp), inl sp).
Proof.
  intros Hp Hc Hm Hd.
  unfold reach_barrier, check_num_procs, parse_arguments, GetProblemSpecs, check_modules,
    prepare_output, make_directory, startup_events, mpi_prologue.
  unfold modules_ok in Hm. unfold directories_ok in Hd.
  rewrite Hp, Hc.
  change (read_options (cli inp) initial_specs) with sp.
  clearbody sp.
  destruct (required_module_missing b (terrain_type sp)) eqn:Hmiss; [discriminate |].
  destruct (_DEBUG b), (rank =? 0); cbn in Hd |- *.
  all: try (apply andb_true_iff in Hd as [-> ->]).
  all: cbn; rewrite Hmiss; reflexivity.
Qed.

Lemma startup_ok :
  num_procs inp = 2 ->
  cli_parse (cli inp) = true ->
  modules_ok b (terrain_type sp) = true ->
  directories_ok inp rank = true ->
  sim_steps_of sp = Some sim_steps ->
  output_steps_of g sp = Some output_steps ->
  startup b g inp rank =
  (startup_events b g rank (terrain_type sp), inl (sp, sim_steps, output_steps)).
Proof.
  intros Hp Hc Hm Hd Hs Ho.
  unfold startup.
  rewrite (bind_inl _ _ _ _ (reach_barrier_ok Hp Hc Hm Hd)).
  rewrite Hs, Ho. cbn. now rewrite app_nil_r.
Qed.

(** Whatever happens after the start-up barrier is appended to the events
    that led to it. *)
Lemma main_after_barrier t0 sp0 :
  reach_barrier b g inp rank = (t0, inl sp0) ->
  exists rest o, main b g inp rank = (t0 ++ rest, o).
Proof.
  intros E. unfold main, main_body, startup.
  rewrite (bind_inl _ _ _ _ E).
  match goal with |- context [bind (?t, ?r) ?k] => destruct r as [x | o] eqn:Er end.
  - match goal with |- context [bind (?t, inl x) ?k] =>
      rewrite (bind_inl (t, inl x) k t x eq_refl)
    end.
    rewrite <- app_assoc.
    match goal with |- context [snd ?m] => destruct (snd m) as [code | o] end;
      eexists _, _; reflexivity.
  - cbn. eexists _, _. reflexivity.
Qed.

Lemma startup_launch :
  startup b g inp rank =
  (startup_events b g rank (terrain_type sp), inl (sp, sim_steps, output_steps)).
Proof.
  destruct L as [Hp Hc Hm Hd Hs Ho _ _]. now apply startup_ok.
Qed.

Lemma create_node_launch :
  create_node b g rank sp = (node_events b g rank sp, inl (Some node)).
Proof.
  destruct L as [_ _ Hm _ _ _ Hn _]. fold sp in Hm, Hn.
  unfold node_events.
  destruct (create_node b g rank sp) as [t r] eqn:E. cbn [fst]. f_equal.
  apply (f_equal snd) in E. cbn [snd] in E. rewrite <- E. clear E t.
  unfold modules_ok, required_module_missing in Hm.
  unfold node_class, rig_class, terrain_class in Hn.
  unfold create_node, create_rig, create_terrain, terrain_common, settle_or_restore.
  destruct (rank =? RIG_NODE_RANK b), (rank =? TERRAIN_NODE_RANK b),
    (terrain_type sp), (tire_type g), (verbose sp), (use_checkpoint sp),
    (CHRONO_MULTICORE b), (CHRONO_GPU b), (CHRONO_FSI b);
    try discriminate; cbn; congruence.
Qed.

Lemma cosimulate_launch :
  cosimulate rank sp sim_steps output_steps (Some node) =
  (Initialize node
     :: iterations rank sp node output_steps sim_steps
     ++ [WriteCheckpoint node "checkpoint_end.dat"; Delete node; MPI_Finalize],
   inl 0).
Proof.
  destruct (main_loop_iterations rank sp node sim_steps output_steps
              (launch_remainder _ _ _ _ _ _ _ L)) as [last Hloop].
  unfold cosimulate. cbn [deref defined].
  rewrite (bind_inl _ _ [] node eq_refl). cbn [app fst snd].
  rewrite (bind_inl _ _ [Initialize node] tt eq_refl).
  rewrite (bind_inl _ _ _ _ Hloop). reflexivity.
Qed.

(** A launched rank runs to the end of [main]; this is its whole trace. *)
Lemma main_launch :
  main b g inp rank =
  (startup_events b g rank (terrain_type sp)
     ++ node_events b g rank sp
     ++ Initialize node
     :: iterations rank sp node output_steps sim_steps
     ++ [WriteCheckpoint node "checkpoint_end.dat"; Delete node; MPI_Finalize],
   Exit 0).
Proof.
  unfold main, main_body.
  rewrite (bind_inl _ _ _ _ startup_launch).
  rewrite (bind_inl _ _ _ _ create_node_launch).
  rewrite cosimulate_launch. reflexivity.
Qed.

End LaunchFacts.

Arguments startup_launch {b g inp rank node sim_steps output_steps} L.
Arguments create_node_launch {b g inp rank node sim_steps output_steps} L.
Arguments cosimulate_launch {b g inp rank node sim_steps output_steps} L.
Arguments main_launch {b g inp rank node sim_steps output_steps} L.

Lemma startup_events_kind b g rank t :
  forallb is_startup (startup_events b g rank t) = true.
Proof.
  unfold startup_events, mpi_prologue.
  destruct (_DEBUG b), (rank =? 0); reflexivity.
Qed.

Lemma node_events_kind b g rank sp :
  forallb is_setup (node_events b g rank sp) = true.
Proof.
  unfold node_events, create_node, create_rig, create_terrain, terrain_common,
    settle_or_restore.
  destruct (rank =? RIG_NODE_RANK b), (rank =? TERRAIN_NODE_RANK b),
    (terrain_type sp), (tire_type g), (verbose sp), (use_checkpoint sp),
    (CHRONO_MULTICORE b), (CHRONO_GPU b), (CHRONO_FSI b); reflexivity.
Qed.

Lemma iteration_kind rank sp node os n frame :
  forallb is_stepping (iteration rank sp node os n frame) = true.
Proof.
  unfold iteration.
  destruct (verbose sp), (rank =? 0), (output_due sp os n); reflexivity.
Qed.

Lemma forallb_flat_map {A B} (p : B -> bool) (f : A -> list B) (l : list A) :
  (forall a, forallb p (f a) = true) -> forallb p (flat_map f l) = true.
Proof.
  intros Hf. induction l as [| a l IH]; [reflexivity |].
  cbn. rewrite forallb_app, Hf, IH. reflexivity.
Qed.

Lemma iterations_kind rank sp node os sim_steps :
  forallb is_stepping (iterations rank sp node os sim_steps) = true.
Proof. apply forallb_flat_map. intros n. apply iteration_kind. Qed.

(** Filtering a list none of whose elements is of the wanted kind. *)
Lemma filter_other {A} (p q : A -> bool) (l : list A) :
  (forall a, q a = true -> p a = false) ->
  forallb q l = true -> filter p l = [].
Proof.
  intros Hpq. induction l as [| a l IH]; [reflexivity |].
  cbn. intros H. apply andb_true_iff in H as [Ha Hl].
  rewrite (Hpq a Ha). auto.
Qed.

Lemma not_in_other {A} (q : A -> bool) (l : list A) (a : A) :
  forallb q l = true -> q a = false -> ~ In a l.
Proof.
  intros Hall Hq Hin. rewrite forallb_forall in Hall.
  specialize (Hall a Hin). congruence.
Qed.

(** ** The order of barrier, [Synchronize] and [Advance] *)

Lemma advance_guarded_app t1 t2 :
  advance_guarded t1 -> advance_guarded t2 -> advance_guarded (t1 ++ t2).
Proof.
  intros H1 H2 pre c dt post E.
  apply app_eq_app in E as [l [[E1 E2] | [E1 E2]]].
  - destruct l as [| x l].
    + rewrite app_nil_l in E2. symmetry in E2.
      destruct (H2 [] c dt post E2) as (pre' & n & time & E).
      destruct pre'; discriminate.
    + cbn in E2. injection E2 as <- _. exact (H1 pre c dt l E1).
  - destruct (H2 l c dt post E2) as (pre' & n & time & ->).
    exists (t1 ++ pre'), n, time. now rewrite E1, app_assoc.
Qed.

Lemma advance_guarded_other t :
  forallb (fun e => negb (is_Advance e)) t = true -> advance_guarded t.
Proof.
  intros Hall pre c dt post ->.
  rewrite forallb_app in Hall. apply andb_true_iff in Hall as [_ Hall].
  discriminate.
Qed.

Lemma advance_guarded_step c n time dt :
  advance_guarded [MPI_Barrier; Synchronize c n time; Advance c dt].
Proof.
  intros pre c' dt' post E.
  destruct pre as [| e1 [| e2 [| e3 pre]]]; cbn in E; try discriminate.
  - inversion E; subst. exists [], n, time. reflexivity.
  - inversion E as [[E1 E2 E3 E4]]. destruct pre; discriminate.
Qed.

Lemma advance_guarded_iteration rank sp node os n frame :
  advance_guarded (iteration rank sp node os n frame).
Proof.
  unfold iteration.
  apply advance_guarded_app; [| apply advance_guarded_app].
  - apply advance_guarded_other. now destruct (verbose sp && (rank =? 0)).
  - apply advance_guarded_step.
  - apply advance_guarded_other. now destruct (verbose sp), (output_due sp os n).
Qed.

Lemma iteration_step rank sp node os n frame :
  exists a c,
    iteration rank sp node os n frame =
    a ++ [MPI_Barrier;
          Synchronize node n (Cpp.double_of_int n * step_size sp)%float;
          Advance node (step_size sp)] ++ c.
Proof. unfold iteration. eexists _, _. reflexivity. Qed.

Lemma advance_guarded_iterations rank sp node os sim_steps :
  advance_guarded (iterations rank sp node os sim_steps).
Proof.
  unfold iterations. induction (upto sim_steps) as [| n l IH].
  - now apply advance_guarded_other.
  - cbn [flat_map]. apply advance_guarded_app; [apply advance_guarded_iteration | exact IH].
Qed.

Lemma forallb_weaken {A} (p q : A -> bool) (l : list A) :
  (forall a, p a = true -> q a = true) -> forallb p l = true -> forallb q l = true.
Proof.
  intros Hpq. rewrite !forallb_forall. auto.
Qed.

Lemma in_upto n sim_steps : 0 <= n < sim_steps -> In n (upto sim_steps).
Proof.
  intros Hn. unfold upto. apply in_map_iff. exists (Z.to_nat n). split; [lia |].
  apply in_seq. lia.
Qed.

Lemma upto_bounds n sim_steps : In n (upto sim_steps) -> 0 <= n < sim_steps.
Proof.
  unfold upto. intros Hin. apply in_map_iff in Hin as (k & <- & Hk).
  apply in_seq in Hk. lia.
Qed.

Lemma flat_map_split {A B} (f : A -> list B) (l : list A) (a : A) :
  In a l -> exists pre post, flat_map f l = pre ++ f a ++ post.
Proof.
  intros Hin. apply in_split in Hin as (l1 & l2 & ->).
  exists (flat_map f l1), (flat_map f l2).
  rewrite flat_map_app. reflexivity.
Qed.

(** ** Counting the calls of the loop *)

Lemma filter_flat_map_single {A B} (p : B -> bool) (f : A -> list B) (h : A -> B) l :
  (forall a, filter p (f a) = [h a]) -> filter p (flat_map f l) = map h l.
Proof.
  intros Hf. induction l as [| a l IH]; [reflexivity |].
  cbn. now rewrite filter_app, Hf, IH.
Qed.

Lemma upto_length n : List.length (upto n) = Z.to_nat n.
Proof. unfold upto. now rewrite length_map, length_seq. Qed.

Lemma upto_max n : upto n = upto (Z.max 0 n).
Proof. unfold upto. f_equal. f_equal. lia. Qed.

Section CountFacts.

Variable rank : Z.
Variable sp : Specs.
Variable node : NodeClass.
Variable output_steps : Z.

Let iter := iteration rank sp node output_steps.
Let frames := frames_before sp output_steps.

Lemma iteration_synchronize n frame :
  filter is_Synchronize (iter n frame) =
  [Synchronize node n (Cpp.double_of_int n * step_size sp)%float].
Proof.
  unfold iter, iteration.
  destruct (verbose sp), (rank =? 0), (output_due sp output_steps n); reflexivity.
Qed.

Lemma iteration_advance n frame :
  filter is_Advance (iter n frame) = [Advance node (step_size sp)].
Proof.
  unfold iter, iteration.
  destruct (verbose sp), (rank =? 0), (output_due sp output_steps n); reflexivity.
Qed.

Lemma iteration_output n frame :
  filter is_OutputData (iter n frame) =
  if output_due sp output_steps n then [OutputData node frame] else [].
Proof.
  unfold iter, iteration.
  destruct (verbose sp), (rank =? 0), (output_due sp output_steps n); reflexivity.
Qed.

Lemma iterations_synchronize sim_steps :
  filter is_Synchronize (iterations rank sp node output_steps sim_steps) =
  map (fun n => Synchronize node n (Cpp.double_of_int n * step_size sp)%float)
      (upto sim_steps).
Proof.
  unfold iterations. apply filter_flat_map_single.
  intros n. apply iteration_synchronize.
Qed.

Lemma iterations_advance sim_steps :
  filter is_Advance (iterations rank sp node output_steps sim_steps) =
  map (fun _ => Advance node (step_size sp)) (upto sim_steps).
Proof.
  unfold iterations. apply filter_flat_map_single.
  intros n. apply iteration_advance.
Qed.

Lemma frames_nonneg n : 0 <= frames n.
Proof. unfold frames, frames_before. lia. Qed.

Lemma iterations_output_nat (k : nat) :
  filter is_OutputData (iterations rank sp node output_steps (Z.of_nat k)) =
  map (OutputData node) (upto (frames (Z.of_nat k))).
Proof.
  induction k as [| k IH]; [reflexivity |].
  replace (Z.of_nat (S k)) with (Z.of_nat k + 1) by lia.
  unfold iterations in *.
  rewrite (upto_succ (Z.of_nat k)) by lia.
  rewrite flat_map_app, filter_app, IH. cbn [flat_map]. rewrite app_nil_r.
  fold iter. rewrite iteration_output.
  unfold frames. rewrite (frames_before_succ sp output_steps (Z.of_nat k)) by lia.
  unfold next_frame. fold frames.
  destruct (output_due sp output_steps (Z.of_nat k)).
  - rewrite (upto_succ (frames (Z.of_nat k))) by apply frames_nonneg.
    now rewrite map_app.
  - now rewrite app_nil_r.
Qed.

(** The frames written by the loop are numbered 0, 1, 2, ... in order. *)
Lemma iterations_output sim_steps :
  filter is_OutputData (iterations rank sp node output_steps sim_steps) =
  map (OutputData node) (upto (frames sim_steps)).
Proof.
  unfold iterations, frames, frames_before.
  rewrite (upto_max sim_steps).
  rewrite <- (Z2Nat.id (Z.max 0 sim_steps)) by lia.
  apply iterations_output_nat.
Qed.

End CountFacts.

Ltac launch_by_computation :=
  constructor; vm_compute; reflexivity.

Example demo_run_steps :
  sim_steps_of (parsed (demo_input 2 2 false "")) = Some 16
  /\ output_steps_of demo_globals (parsed (demo_input 2 2 false "")) = Some 6.
Proof. split; vm_compute; reflexivity. Qed.

Example default_run_steps :
  sim_steps_of initial_specs = Some 100000
  /\ output_steps_of demo_globals initial_specs = Some 100.
Proof. split; vm_compute; reflexivity. Qed.

(** ** Claims about the step loop *)

(** C1. On every launched rank (rig or terrain) and for every step index
    [n] from 0 to [sim_steps - 1], the trace contains the per-step barrier
    directly followed by [Synchronize(n, n * step_size)] directly followed
    by [Advance(step_size)]; and every [Advance] found in the trace comes
    directly after a barrier and a [Synchronize] on the same node, so no
    step is advanced before its synchronization has returned. *)
Theorem barrier_synchronize_advance_order b g inp rank node sim_steps output_steps :
  Launch b g inp rank node sim_steps output_steps ->
  let t := fst (main b g inp rank) in
  let dt := step_size (parsed inp) in
  (forall n, 0 <= n < sim_steps ->
     exists pre post,
       t = pre ++ [MPI_Barrier;
                   Synchronize node n (Cpp.double_of_int n * dt)%float;
                   Advance node dt] ++ post)
  /\ advance_guarded t.
Proof.
  intros L t dt. subst t dt. rewrite (main_launch L). cbn [fst]. split.
  - intros n Hn.
    destruct (flat_map_split
                (fun n => iteration rank (parsed inp) node output_steps n
                            (frames_before (parsed inp) output_steps n))
                (upto sim_steps) n (in_upto n sim_steps Hn)) as (pre & post & E).
    unfold iterations. rewrite E. clear E.
    destruct (iteration_step rank (parsed inp) node output_steps n
                (frames_before (parsed inp) output_steps n)) as (a & c & ->).
    exists (startup_events b g rank (terrain_type (parsed inp))
              ++ node_events b g rank (parsed inp) ++ Initialize node :: pre ++ a).
    exists (c ++ post
              ++ [WriteCheckpoint node "checkpoint_end.dat"; Delete node; MPI_Finalize]).
    repeat (rewrite <- ?app_assoc; cbn [app]). reflexivity.
  - apply advance_guarded_app; [| apply advance_guarded_app].
    + apply advance_guarded_other.
      apply (forallb_weaken is_startup); [now intros [] | apply startup_events_kind].
    + apply advance_guarded_other.
      apply (forallb_weaken is_setup); [now intros [] | apply node_events_kind].
    + apply (advance_guarded_app [Initialize node]); [now apply advance_guarded_other |].
      apply advance_guarded_app; [apply advance_guarded_iterations |].
      now apply advance_guarded_other.
Qed.

Lemma barrier_synchronize_advance_order_witness :
  Launch demo_build demo_globals (demo_input 2 2 false "") 1 TerrainNodeGranularOMP 16 6
  /\ (exists pre post,
        fst (main demo_build demo_globals (demo_input 2 2 false "") 1) =
        pre ++ [MPI_Barrier;
                Synchronize TerrainNodeGranularOMP 15 0.029296875%float;
                Advance TerrainNodeGranularOMP 0.001953125%float] ++ post)
  /\ advance_guarded (fst (main demo_build demo_globals (demo_input 2 2 false "") 1)).
Proof.
  assert (L : Launch demo_build demo_globals (demo_input 2 2 false "") 1
                TerrainNodeGranularOMP 16 6) by launch_by_computation.
  split; [exact L |].
  destruct (barrier_synchronize_advance_order _ _ _ _ _ _ _ L) as [Hstep Hguard].
  split; [| exact Hguard].
  apply (Hstep 15). lia.
Defined.

Lemma launched_filter (p : Event -> bool) b g inp rank node sim_steps output_steps :
  Launch b g inp rank node sim_steps output_steps ->
  filter p (fst (main b g inp rank)) =
  filter p (startup_events b g rank (terrain_type (parsed inp)))
    ++ filter p (node_events b g rank (parsed inp))
    ++ filter p [Initialize node]
    ++ filter p (iterations rank (parsed inp) node output_steps sim_steps)
    ++ filter p [WriteCheckpoint node "checkpoint_end.dat"; Delete node; MPI_Finalize].
Proof.
  intros L. rewrite (main_launch L). cbn [fst].
  rewrite <- !filter_app. reflexivity.
Qed.

(** Only the loop synchronizes, advances and writes frames. *)
Lemma launched_filter_loop (p : Event -> bool) b g inp rank node sim_steps output_steps :
  Launch b g inp rank node sim_steps output_steps ->
  (forall e, p e = true -> is_Synchronize e || is_Advance e || is_OutputData e = true) ->
  filter p (fst (main b g inp rank)) =
  filter p (iterations rank (parsed inp) node output_steps sim_steps).
Proof.
  intros L Hp.
  assert (Hoff : forall e,
             is_Synchronize e || is_Advance e || is_OutputData e = false -> p e = false).
  { intros e He. destruct (p e) eqn:E; [| reflexivity].
    apply Hp in E. congruence. }
  rewrite (launched_filter p _ _ _ _ _ _ _ L).
  rewrite (filter_other p is_startup), (filter_other p is_setup).
  - cbn [filter app]. rewrite !Hoff by reflexivity. now rewrite app_nil_r.
  - intros e He. apply Hoff. destruct e; try reflexivity; discriminate.
  - apply node_events_kind.
  - intros e He. apply Hoff. destruct e; try reflexivity; discriminate.
  - apply startup_events_kind.
Qed.

(** C4 (amended). On a rank that gets through start-up and its loop
    without undefined behaviour -- two processes, a command line that
    parses, the terrain's module compiled in, rank 0's directories created,
    a node constructed for the rank, both conversions of lines 182-183
    representable in an [int], and no remainder by a zero [output_steps] --
    the loop performs exactly [(int)std::ceil(sim_time / step_size)]
    iterations, the quotient being evaluated in double precision (none when
    the value is not positive): the calls of [Synchronize] are, in order,
    those for the step indices 0 .. sim_steps-1, each with the time
    [n * step_size] computed as a double product, and [Advance(step_size)]
    is called once per step. *)
Theorem loop_runs_sim_steps_iterations b g inp rank node sim_steps output_steps :
  Launch b g inp rank node sim_steps output_steps ->
  let sp := parsed inp in
  let t := fst (main b g inp rank) in
  Cpp.ceil (sim_time sp / step_size sp)%float = Some sim_steps
  /\ Cpp.INT_MIN <= sim_steps <= Cpp.INT_MAX
  /\ filter is_Synchronize t =
     map (fun n => Synchronize node n (Cpp.double_of_int n * step_size sp)%float)
         (upto sim_steps)
  /\ filter is_Advance t = map (fun _ => Advance node (step_size sp)) (upto sim_steps)
  /\ Z.of_nat (List.length (filter is_Synchronize t)) = Z.max 0 sim_steps
  /\ Z.of_nat (List.length (filter is_Advance t)) = Z.max 0 sim_steps.
Proof.
  intros L sp t. subst t.
  assert (Hsync := launched_filter_loop is_Synchronize _ _ _ _ _ _ _ L).
  assert (Hadv := launched_filter_loop is_Advance _ _ _ _ _ _ _ L).
  rewrite Hsync by (intros e He; rewrite He; reflexivity).
  rewrite Hadv by (intros e He; rewrite He; apply orb_true_iff; left; apply orb_true_r).
  fold sp. rewrite iterations_synchronize, iterations_advance.
  rewrite !length_map, upto_length.
  pose proof (launch_sim_steps _ _ _ _ _ _ _ L) as Hs. fold sp in Hs.
  unfold sim_steps_of, Cpp.int_of_ceil in Hs.
  destruct (Cpp.ceil (sim_time sp / step_size sp)) as [z |]; [| discriminate].
  destruct (Cpp.in_int z) eqn:Hin; [| discriminate].
  injection Hs as ->. unfold Cpp.in_int in Hin.
  apply andb_true_iff in Hin as [Hlo Hhi].
  apply Z.leb_le in Hlo, Hhi.
  repeat split; try assumption; lia.
Qed.

Lemma loop_runs_sim_steps_iterations_witness :
  Launch demo_build demo_globals (demo_input 2 0 false "") 0 RigNodeRigidTire 16 6
  /\ Z.of_nat (List.length (filter is_Synchronize
                 (fst (main demo_build demo_globals (demo_input 2 0 false "") 0)))) = 16.
Proof.
  assert (L : Launch demo_build demo_globals (demo_input 2 0 false "") 0
                RigNodeRigidTire 16 6) by launch_by_computation.
  split; [exact L |].
  exact (proj1 (proj2 (proj2 (proj2 (proj2
           (loop_runs_sim_steps_iterations _ _ _ _ _ _ _ L)))))).
Defined.

Lemma loop_body_one_synchronize rank sp node os n frame :
  List.length (filter is_Synchronize (fst (loop_body rank sp node os n frame))) = 1%nat.
Proof.
  unfold loop_body, maybe_output, report, Cpp.rem.
  destruct (verbose sp), (rank =? 0), (output sp), (os =? 0);
    cbn -[Z.rem Z.eqb Z.add PrimFloat.mul Cpp.double_of_int];
    try reflexivity; destruct (Z.rem n os =? 0); reflexivity.
Qed.

Lemma main_loop_synchronize_bound rank sp node ss os fuel :
  forall n frame,
    (List.length (filter is_Synchronize
                    (fst (main_loop rank sp node ss os fuel n frame))) <= fuel)%nat.
Proof.
  induction fuel as [| fuel IH]; intros n frame; cbn [main_loop].
  - cbn. lia.
  - destruct (n <? ss); [| cbn; lia].
    rewrite fst_bind, filter_app, length_app, loop_body_one_synchronize.
    destruct (snd (loop_body rank sp node os n frame)) as [frame' | o].
    + specialize (IH (n + 1) frame'). lia.
    + cbn. lia.
Qed.

(** Whatever value [sim_steps] holds, a loop whose bound is an [int] calls
    [Synchronize] at most [INT_MAX] times. *)
Lemma cosimulate_synchronize_bound rank sp node ss os :
  Cpp.in_int ss = true ->
  Z.of_nat (List.length (filter is_Synchronize
                           (fst (cosimulate rank sp ss os (Some node))))) <= Cpp.INT_MAX.
Proof.
  intros Hin. unfold Cpp.in_int in Hin. apply andb_true_iff in Hin as [_ Hhi].
  apply Z.leb_le in Hhi.
  unfold cosimulate. cbn [deref defined].
  rewrite (bind_inl _ _ [] node eq_refl). cbn [app fst snd].
  rewrite (bind_inl _ _ [Initialize node] tt eq_refl). cbn [app fst snd filter is_Synchronize].
  rewrite fst_bind, filter_app, length_app.
  pose proof (main_loop_synchronize_bound rank sp node ss os (Z.to_nat ss) 0 0) as Hb.
  match goal with |- context [match ?s with inl _ => _ | inr _ => _ end] =>
    destruct s as [last | o]
  end; cbn [List.length filter fst is_Synchronize bind emit ret app];
    unfold Cpp.INT_MAX in *; lia.
Qed.

(** C4 as stated fails: with [sim_time] = 2^32 and [step_size] = 1, both
    positive, the quotient rounded up is 2^32, which no [int] holds, so the
    conversion on line 182 has no defined value.  Whatever [int] the
    variable [sim_steps] then holds, the rest of [main] calls [Synchronize]
    fewer than 2^32 times, for any rank, node and [output_steps]; in the
    model, which follows a run up to its first undefined operation, the
    trace has no [Synchronize] at all. *)
Lemma loop_count_not_ceil_beyond_int :
  (0 <? sim_time (parsed long_input))%float = true
  /\ (0 <? step_size (parsed long_input))%float = true
  /\ Cpp.ceil (sim_time (parsed long_input) / step_size (parsed long_input))%float
     = Some 4294967296
  /\ sim_steps_of (parsed long_input) = None
  /\ (forall rank node sim_steps output_steps,
        Cpp.in_int sim_steps = true ->
        Z.of_nat (List.length (filter is_Synchronize
                                 (fst (cosimulate rank (parsed long_input) sim_steps
                                         output_steps (Some node))))) <> 4294967296)
  /\ Z.of_nat (List.length (filter is_Synchronize
                 (fst (main demo_build demo_globals long_input 0)))) <> 4294967296.
Proof.
  do 4 (split; [vm_compute; reflexivity |]).
  split.
  - intros rank node ss os Hin.
    pose proof (cosimulate_synchronize_bound rank (parsed long_input) node ss os Hin) as Hb.
    unfold Cpp.INT_MAX in Hb. lia.
  - vm_compute. discriminate.
Qed.

(** C6. With output enabled on a launched rank, [output_steps] is
    [(int)std::ceil(1 / (output_fps * step_size))]; the trace is the loop's
    iterations between a prefix and a suffix that write no frame; iteration
    [n] calls [OutputData] exactly when [n % output_steps == 0]; and the
    frames written over the run are numbered 0, 1, 2, ... in order, one per
    such iteration. *)
Theorem output_every_output_steps b g inp rank node sim_steps output_steps :
  Launch b g inp rank node sim_steps output_steps ->
  output (parsed inp) = true ->
  let sp := parsed inp in
  let t := fst (main b g inp rank) in
  Cpp.int_of_ceil (1 / (output_fps g * step_size sp))%float = Some output_steps
  /\ (exists pre post,
        t = pre ++ iterations rank sp node output_steps sim_steps ++ post
        /\ filter is_OutputData pre = [] /\ filter is_OutputData post = [])
  /\ (forall n frame,
        filter is_OutputData (iteration rank sp node output_steps n frame) =
        if Z.rem n output_steps =? 0 then [OutputData node frame] else [])
  /\ frames_before sp output_steps sim_steps =
     Z.of_nat (List.length (filter (fun n => Z.rem n output_steps =? 0) (upto sim_steps)))
  /\ filter is_OutputData t =
     map (OutputData node) (upto (frames_before sp output_steps sim_steps)).
Proof.
  intros L Hout sp t. subst t.
  assert (Hdue : forall n, output_due sp output_steps n = (Z.rem n output_steps =? 0)).
  { intros n. unfold output_due. fold sp in Hout. now rewrite Hout. }
  split; [exact (launch_output_steps _ _ _ _ _ _ _ L) |].
  split; [| split; [| split]].
  - rewrite (main_launch L). cbn [fst]. fold sp.
    exists (startup_events b g rank (terrain_type sp)
              ++ node_events b g rank sp ++ [Initialize node]).
    exists [WriteCheckpoint node "checkpoint_end.dat"; Delete node; MPI_Finalize].
    split; [| split; [| reflexivity]].
    + repeat (rewrite <- ?app_assoc; cbn [app]). reflexivity.
    + rewrite !filter_app.
      rewrite (filter_other is_OutputData is_startup), (filter_other is_OutputData is_setup).
      * reflexivity.
      * now intros [].
      * apply node_events_kind.
      * now intros [].
      * apply startup_events_kind.
  - intros n frame. rewrite iteration_output. now rewrite Hdue.
  - unfold frames_before. do 2 f_equal. apply filter_ext. exact Hdue.
  - rewrite (launched_filter_loop is_OutputData _ _ _ _ _ _ _ L)
      by (intros e He; rewrite He; apply orb_true_r).
    apply iterations_output.
Qed.

Lemma output_every_output_steps_witness :
  Launch demo_build demo_globals (demo_input 2 2 false "") 1 TerrainNodeGranularOMP 16 6
  /\ output (parsed (demo_input 2 2 false "")) = true
  /\ filter is_OutputData (fst (main demo_build demo_globals (demo_input 2 2 false "") 1)) =
     map (OutputData TerrainNodeGranularOMP)
         (upto (frames_before (parsed (demo_input 2 2 false "")) 6 16)).
Proof.
  assert (L : Launch demo_build demo_globals (demo_input 2 2 false "") 1
                TerrainNodeGranularOMP 16 6) by launch_by_computation.
  split; [exact L |]. split; [reflexivity |].
  exact (proj2 (proj2 (proj2 (proj2
           (output_every_output_steps _ _ _ _ _ _ _ L eq_refl))))).
Defined.

Example demo_frames :
  filter is_OutputData (fst (main demo_build demo_globals (demo_input 2 2 false "") 1)) =
  [OutputData TerrainNodeGranularOMP 0;
   OutputData TerrainNodeGranularOMP 1;
   OutputData TerrainNodeGranularOMP 2].
Proof. vm_compute. reflexivity. Qed.

(** ** Properties of every event of a run *)

Lemma all_events_bind {A B} p (m : M A) (k : A -> M B) :
  all_events p m -> (forall a, all_events p (k a)) -> all_events p (bind m k).
Proof.
  unfold all_events. intros Hm Hk. rewrite fst_bind, forallb_app, Hm.
  destruct (snd m) as [a | o]; [apply Hk | reflexivity].
Qed.

Lemma all_events_weaken {A} (p q : Event -> bool) (m : M A) :
  (forall e, p e = true -> q e = true) -> all_events p m -> all_events q m.
Proof. intros Hpq. apply forallb_weaken. exact Hpq. Qed.

Lemma fst_main b g inp rank : fst (main b g inp rank) = fst (main_body b g inp rank).
Proof. unfold main. now destruct (main_body b g inp rank) as [t [code | o]]. Qed.

(** Splits a computation along its binds and branches. *)
Ltac all_events_step :=
  match goal with
  | |- all_events _ (bind _ _) => apply all_events_bind; [| intros ?]
  | |- all_events _ (when ?c _) => destruct c; [unfold when | reflexivity]
  | |- all_events _ (if ?c then _ else _) => destruct c
  | |- all_events _ (defined _ ?o) => destruct o; reflexivity
  | |- all_events _ (let (_, _) := ?x in _) => destruct x
  | |- all_events _ _ => reflexivity
  end.

Lemma loop_body_kind rank sp node os n frame :
  all_events is_stepping (loop_body rank sp node os n frame).
Proof.
  unfold loop_body, maybe_output. repeat all_events_step.
Qed.

Lemma main_loop_kind rank sp node ss os fuel :
  forall n frame, all_events is_stepping (main_loop rank sp node ss os fuel n frame).
Proof.
  induction fuel as [| fuel IH]; intros n frame; [reflexivity |].
  cbn [main_loop]. destruct (n <? ss); [| reflexivity].
  apply all_events_bind; [apply loop_body_kind | intros a; apply IH].
Qed.

Lemma setup_after_check e : is_setup e = true -> after_check e = true.
Proof.
  destruct e; try reflexivity.
  match goal with m : Message |- _ => destruct m end; first [reflexivity | discriminate].
Qed.

Lemma stepping_after_check e : is_stepping e = true -> after_check e = true.
Proof.
  destruct e; try reflexivity.
  match goal with m : Message |- _ => destruct m end; first [reflexivity | discriminate].
Qed.

Lemma main_body_after_check b g inp rank :
  num_procs inp = 2 -> all_events after_check (main_body b g inp rank).
Proof.
  intros Hp.
  unfold main_body, startup, reach_barrier, mpi_prologue, check_num_procs,
    parse_arguments, GetProblemSpecs, check_modules, prepare_output, make_directory,
    cosimulate, deref.
  rewrite Hp. cbn [Z.eqb Pos.eqb negb].
  repeat all_events_step.
  - unfold required_module_missing.
    destruct (terrain_type _), (CHRONO_MULTICORE b), (CHRONO_GPU b), (CHRONO_FSI b);
      repeat all_events_step.
  - apply (all_events_weaken is_setup); [apply setup_after_check |].
    apply node_events_kind.
  - apply (all_events_weaken is_stepping); [apply stepping_after_check |].
    apply main_loop_kind.
Qed.

(** ** Claims about start-up *)

(** C2. When the job does not have exactly 2 processes, every rank ends in
    [MPI_Abort(MPI_COMM_WORLD, 1)] right after the MPI prologue, rank 0
    printing the diagnostic first; no node object is constructed and no
    node computes anything.  With exactly 2 processes the check emits
    nothing and lets [main] continue, and the diagnostic is printed nowhere
    in the run. *)
Theorem wrong_process_count_aborts b g inp rank :
  (num_procs inp <> 2 ->
     main b g inp rank =
     (fst (mpi_prologue b rank)
        ++ (if rank =? 0 then [cout msg_two_ranks] else [])
        ++ [MPI_Abort 1],
      Aborted 1)
     /\ filter is_New (fst (main b g inp rank)) = []
     /\ filter is_physics (fst (main b g inp rank)) = [])
  /\ (num_procs inp = 2 ->
      check_num_procs inp rank = ret tt
      /\ ~ In (cout msg_two_ranks) (fst (main b g inp rank))).
Proof.
  split.
  - intros Hn. apply Z.eqb_neq in Hn.
    unfold main, main_body, startup, reach_barrier, check_num_procs, mpi_prologue.
    rewrite Hn. destruct (_DEBUG b), (rank =? 0); repeat split; reflexivity.
  - intros Hn. split.
    + unfold check_num_procs. now rewrite Hn.
    + rewrite fst_main.
      apply (not_in_other after_check); [| reflexivity].
      now apply main_body_after_check.
Qed.

Lemma wrong_process_count_aborts_witness :
  (num_procs (demo_input 3 0 false "") <> 2
   /\ main demo_build demo_globals (demo_input 3 0 false "") 0 =
      ([MPI_Init; MPI_Comm_size; MPI_Comm_rank; MPI_Get_processor_name;
        cout msg_two_ranks; MPI_Abort 1], Aborted 1)
   /\ main demo_build demo_globals (demo_input 3 0 false "") 1 =
      ([MPI_Init; MPI_Comm_size; MPI_Comm_rank; MPI_Get_processor_name;
        MPI_Abort 1], Aborted 1))
  /\ (num_procs (demo_input 2 0 false "") = 2
      /\ check_num_procs (demo_input 2 0 false "") 0 = ret tt).
Proof.
  assert (H3 : num_procs (demo_input 3 0 false "") <> 2) by (cbn; lia).
  split; [split; [exact H3 | split] | split; [reflexivity |]].
  - exact (proj1 (proj1 (wrong_process_count_aborts demo_build demo_globals
                           (demo_input 3 0 false "") 0) H3)).
  - exact (proj1 (proj1 (wrong_process_count_aborts demo_build demo_globals
                           (demo_input 3 0 false "") 1) H3)).
  - exact (proj1 (proj2 (wrong_process_count_aborts demo_build demo_globals
                           (demo_input 2 0 false "") 0) eq_refl)).
Defined.

Lemma stepping_not_settle_or_restore e :
  is_stepping e = true -> is_settle_or_restore e = false.
Proof. destruct e; try reflexivity; discriminate. Qed.

(** On the terrain rank a granular OMP or GPU node is configured and then
    either settled or restored, as the last thing before [Initialize]. *)
Lemma granular_node_events b g rank sp :
  (rank =? TERRAIN_NODE_RANK b) = true ->
  modules_ok b (terrain_type sp) = true ->
  terrain_type sp = GRANULAR_OMP \/ terrain_type sp = GRANULAR_GPU ->
  exists node pre,
    terrain_class (terrain_type sp) = Some node
    /\ node_events b g rank sp = pre ++ fst (settle_or_restore g sp node)
    /\ forallb is_plain_setup pre = true.
Proof.
  intros Hr Hm Ht.
  unfold node_events, create_node, create_rig, create_terrain, terrain_common,
    modules_ok, required_module_missing in *.
  rewrite Hr.
  destruct Ht as [Ht | Ht]; rewrite Ht in *; cbn [terrain_class];
    [destruct (CHRONO_MULTICORE b) | destruct (CHRONO_GPU b)]; try discriminate;
    eexists; unfold settle_or_restore;
    destruct (rank =? RIG_NODE_RANK b), (tire_type g), (verbose sp), (use_checkpoint sp);
    cbn;
    match goal with
    | |- exists pre, _ /\ ?l = pre ++ ?s /\ _ =>
        exists (firstn (List.length l - List.length s) l)
    end;
    repeat split; reflexivity.
Qed.

(** C3. On the terrain rank of a launched job whose terrain is granular OMP
    or granular GPU, exactly one of the two initialization paths is taken
    and it is chosen by [use_checkpoint]: without it the node is given the
    settling time 0.4, settles and then writes "checkpoint_settled.dat";
    with it the node is only told to read "checkpoint_settled.dat".  No
    other settling, restoring or settled-checkpoint call occurs in the run,
    and the chosen calls are the last ones before [Initialize], before any
    node computation. *)
Theorem granular_settle_or_restore b g inp rank node sim_steps output_steps :
  Launch b g inp rank node sim_steps output_steps ->
  rank = TERRAIN_NODE_RANK b ->
  terrain_type (parsed inp) = GRANULAR_OMP \/ terrain_type (parsed inp) = GRANULAR_GPU ->
  let sp := parsed inp in
  let t := fst (main b g inp rank) in
  let path :=
    if use_checkpoint sp
    then [SetInputFromCheckpoint node "checkpoint_settled.dat"]
    else [SetSettlingTime node 0.4%float;
          EnableSettlingOutput node true (output_fps g);
          Settle node;
          WriteCheckpoint node "checkpoint_settled.dat"] in
  (node = TerrainNodeGranularOMP \/ node = TerrainNodeGranularGPU)
  /\ filter is_settle_or_restore t = path
  /\ exists pre post,
       t = pre ++ path ++ Initialize node :: post
       /\ filter is_physics pre = []
       /\ filter is_settle_or_restore pre = [].
Proof.
  intros L Hrank Hterrain sp t path.
  assert (Hr : (rank =? TERRAIN_NODE_RANK b) = true) by now apply Z.eqb_eq.
  destruct (granular_node_events b g rank sp Hr (launch_modules _ _ _ _ _ _ _ L) Hterrain)
    as (node' & pre0 & Hclass & Hev & Hpre0).
  assert (Hnode : node' = node).
  { pose proof (launch_node _ _ _ _ _ _ _ L) as Hn. unfold node_class in Hn.
    rewrite Hr in Hn. fold sp in Hn. rewrite Hclass in Hn. congruence. }
  subst node'.
  assert (Hpath : fst (settle_or_restore g sp node) = path).
  { subst path. unfold settle_or_restore. now destruct (use_checkpoint sp). }
  rewrite Hpath in Hev.
  assert (Hplain_phys : forall e, is_plain_setup e = true -> is_physics e = false)
    by now intros [].
  assert (Hplain_sr : forall e, is_plain_setup e = true -> is_settle_or_restore e = false)
    by now intros [].
  assert (Hstart_phys : forall e, is_startup e = true -> is_physics e = false)
    by now intros [].
  assert (Hstart_sr : forall e, is_startup e = true -> is_settle_or_restore e = false)
    by now intros [].
  split; [| split].
  - unfold sp in Hclass.
    destruct Hterrain as [Ht | Ht]; rewrite Ht in Hclass; injection Hclass as <-; auto.
  - subst t. rewrite (launched_filter is_settle_or_restore _ _ _ _ _ _ _ L).
    fold sp. rewrite Hev, filter_app.
    rewrite (filter_other _ _ _ Hstart_sr (startup_events_kind b g rank _)).
    rewrite (filter_other _ _ _ Hplain_sr Hpre0).
    rewrite (filter_other _ _ _ stepping_not_settle_or_restore
               (iterations_kind rank sp node output_steps sim_steps)).
    cbn [app filter is_settle_or_restore is_settling is_restore is_checkpoint orb String.eqb].
    rewrite app_nil_r.
    subst path. destruct (use_checkpoint sp); destruct node; reflexivity.
  - subst t. rewrite (main_launch L). cbn [fst]. fold sp. rewrite Hev.
    exists (startup_events b g rank (terrain_type sp) ++ pre0).
    eexists. split; [| split].
    + rewrite <- !app_assoc. reflexivity.
    + rewrite filter_app.
      rewrite (filter_other _ _ _ Hstart_phys (startup_events_kind b g rank _)).
      now rewrite (filter_other _ _ _ Hplain_phys Hpre0).
    + rewrite filter_app.
      rewrite (filter_other _ _ _ Hstart_sr (startup_events_kind b g rank _)).
      now rewrite (filter_other _ _ _ Hplain_sr Hpre0).
Qed.

Lemma granular_settle_or_restore_witness :
  (Launch demo_build demo_globals (demo_input 2 2 false "") 1 TerrainNodeGranularOMP 16 6
   /\ filter is_settle_or_restore
        (fst (main demo_build demo_globals (demo_input 2 2 false "") 1)) =
      [SetSettlingTime TerrainNodeGranularOMP 0.4%float;
       EnableSettlingOutput TerrainNodeGranularOMP true 100%float;
       Settle TerrainNodeGranularOMP;
       WriteCheckpoint TerrainNodeGranularOMP "checkpoint_settled.dat"])
  /\ (Launch demo_build demo_globals (demo_input 2 3 true "") 1 TerrainNodeGranularGPU 16 6
      /\ filter is_settle_or_restore
           (fst (main demo_build demo_globals (demo_input 2 3 true "") 1)) =
         [SetInputFromCheckpoint TerrainNodeGranularGPU "checkpoint_settled.dat"]).
Proof.
  assert (L1 : Launch demo_build demo_globals (demo_input 2 2 false "") 1
                 TerrainNodeGranularOMP 16 6) by launch_by_computation.
  assert (L2 : Launch demo_build demo_globals (demo_input 2 3 true "") 1
                 TerrainNodeGranularGPU 16 6) by launch_by_computation.
  split; (split; [assumption |]).
  - exact (proj1 (proj2 (granular_settle_or_restore _ _ _ _ _ _ _ L1 eq_refl
                           (or_introl eq_refl)))).
  - exact (proj1 (proj2 (granular_settle_or_restore _ _ _ _ _ _ _ L2 eq_refl
                           (or_intror eq_refl)))).
Defined.

(** ** The output directories *)

Section Directories.

Variable b : Build.
Variable g : Globals.
Variable inp : Input.
Hypothesis Hprocs : num_procs inp = 2.
Hypothesis Hparse : cli_parse (cli inp) = true.
Hypothesis Hmodules : modules_ok b (terrain_type (parsed inp)) = true.

Let top := out_dir_top g.
Let dir := out_dir g (terrain_type (parsed inp)).

(** Rank 0 when one of the two directories cannot be created. *)
Lemma main_directory_failure :
  mkdir_top inp && mkdir_out inp = false ->
  main b g inp 0 =
  (fst (mpi_prologue b 0)
     ++ (if mkdir_top inp
         then [create_directory top; create_directory dir; cout (msg_dir_error dir)]
         else [create_directory top; cout (msg_dir_error top)])
     ++ [MPI_Abort 1],
   Aborted 1).
Proof.
  intros Hfail.
  unfold main, main_body, startup, reach_barrier, check_num_procs, parse_arguments,
    GetProblemSpecs, check_modules, prepare_output, make_directory, mpi_prologue.
  unfold modules_ok in Hmodules.
  rewrite Hprocs, Hparse.
  change (read_options (cli inp) initial_specs) with (parsed inp).
  subst top dir. revert Hmodules.
  generalize (parsed inp) as sp. intros sp Hmodules.
  destruct (required_module_missing b (terrain_type sp)) eqn:Hmiss;
    [discriminate |].
  destruct (_DEBUG b), (mkdir_top inp), (mkdir_out inp); try discriminate;
    cbn; rewrite Hmiss; reflexivity.
Qed.

(** The other rank gets as far as its start-up barrier. *)
Lemma main_peer_reaches_barrier :
  exists rest o,
    main b g inp 1 = (fst (mpi_prologue b 1) ++ MPI_Barrier :: rest, o).
Proof.
  destruct (main_after_barrier b g inp 1 _ _
              (reach_barrier_ok b g inp 1 Hprocs Hparse Hmodules eq_refl))
    as (rest & o & E).
  exists rest, o. rewrite E. unfold startup_events. cbn [Z.eqb app].
  now rewrite <- app_assoc.
Qed.

(** In the job, the abort of rank 0 leaves rank 1 in the start-up barrier. *)
Lemma job_directory_failure :
  mkdir_top inp && mkdir_out inp = false ->
  job_run b g inp 1 = (fst (mpi_prologue b 1) ++ [MPI_Barrier], Killed).
Proof.
  intros Hfail. unfold job_run. cbn [Z.sub Z.add Z.opp Z.pos_sub].
  rewrite (main_directory_failure Hfail).
  destruct main_peer_reaches_barrier as (rest & o & ->).
  unfold mpi_prologue.
  destruct (_DEBUG b), (mkdir_top inp); reflexivity.
Qed.

End Directories.

(** C7 (amended). On a two-rank job that passes parsing and the module
    checks, the directories rank 0 creates are [<outdir>RIG_COSIM] and then
    [<outdir>RIG_COSIM/<tireType>_<terrainType>], whose name carries no
    suffix; when both succeed they are created directly before the start-up
    barrier.  When either creation fails, rank 0 reports the directory and
    calls [MPI_Abort] on the whole communicator without entering the
    barrier, and rank 1 is taken down in that barrier, before it constructs
    a node. *)
Theorem directories_created_before_barrier b g inp :
  num_procs inp = 2 ->
  cli_parse (cli inp) = true ->
  modules_ok b (terrain_type (parsed inp)) = true ->
  let sp := parsed inp in
  let top := (GetChronoOutputPath g ++ "RIG_COSIM")%string in
  let dir := (top ++ "/" ++ RigTypeAsString g (tire_type g) ++ "_"
                ++ TerrainTypeAsString g (terrain_type sp))%string in
  (mkdir_top inp && mkdir_out inp = true ->
     exists rest,
       fst (main b g inp 0) =
       fst (mpi_prologue b 0)
         ++ [create_directory top; create_directory dir; MPI_Barrier] ++ rest
       /\ created_directories (fst (mpi_prologue b 0)) = [])
  /\ (mkdir_top inp && mkdir_out inp = false ->
        main b g inp 0 =
        (fst (mpi_prologue b 0)
           ++ (if mkdir_top inp
               then [create_directory top; create_directory dir; cout (msg_dir_error dir)]
               else [create_directory top; cout (msg_dir_error top)])
           ++ [MPI_Abort 1],
         Aborted 1)
        /\ job_run b g inp 1 = (fst (mpi_prologue b 1) ++ [MPI_Barrier], Killed)
        /\ filter is_New (fst (job_run b g inp 1)) = []).
Proof.
  intros Hp Hc Hm sp top dir. split.
  - intros Hok.
    assert (Hd : directories_ok inp 0 = true) by exact Hok.
    destruct (main_after_barrier b g inp 0 _ _ (reach_barrier_ok b g inp 0 Hp Hc Hm Hd))
      as (rest & o & E).
    exists rest. rewrite E. cbn [fst]. unfold startup_events. cbn [Z.eqb].
    split.
    + rewrite <- !app_assoc. reflexivity.
    + unfold mpi_prologue. now destruct (_DEBUG b).
  - intros Hfail. split; [| split].
    + exact (main_directory_failure b g inp Hp Hc Hm Hfail).
    + exact (job_directory_failure b g inp Hp Hc Hm Hfail).
    + rewrite (job_directory_failure b g inp Hp Hc Hm Hfail).
      unfold mpi_prologue. now destruct (_DEBUG b).
Qed.

Lemma directories_created_before_barrier_witness :
  (exists rest,
     fst (main demo_build demo_globals (demo_input 2 0 false "run1") 0) =
     [MPI_Init; MPI_Comm_size; MPI_Comm_rank; MPI_Get_processor_name;
      create_directory "OUT/RIG_COSIM"; create_directory "OUT/RIG_COSIM/RIGID_RIGID";
      MPI_Barrier] ++ rest)
  /\ main demo_build demo_globals failing_mkdir_input 0 =
     ([MPI_Init; MPI_Comm_size; MPI_Comm_rank; MPI_Get_processor_name;
       create_directory "OUT/RIG_COSIM"; create_directory "OUT/RIG_COSIM/RIGID_RIGID";
       cout (msg_dir_error "OUT/RIG_COSIM/RIGID_RIGID"); MPI_Abort 1], Aborted 1)
  /\ job_run demo_build demo_globals failing_mkdir_input 1 =
     ([MPI_Init; MPI_Comm_size; MPI_Comm_rank; MPI_Get_processor_name; MPI_Barrier],
      Killed).
Proof.
  split; [| split].
  - destruct (proj1 (directories_created_before_barrier demo_build demo_globals
                       (demo_input 2 0 false "run1") eq_refl eq_refl eq_refl) eq_refl)
      as (rest & E & _).
    exists rest. exact E.
  - exact (proj1 (proj2 (directories_created_before_barrier demo_build demo_globals
                           failing_mkdir_input eq_refl eq_refl eq_refl) eq_refl)).
  - exact (proj1 (proj2 (proj2 (directories_created_before_barrier demo_build demo_globals
                                  failing_mkdir_input eq_refl eq_refl eq_refl) eq_refl))).
Defined.

(** C7 as stated fails on the suffix: with the suffix "run1" rank 0 creates
    two directories before the barrier and neither name carries the suffix;
    the suffix only reaches the node's [SetOutDir], after the barrier. *)
Lemma suffixed_directory_not_created :
  suffix (parsed (demo_input 2 0 false "run1")) = "run1"
  /\ created_directories (fst (main demo_build demo_globals (demo_input 2 0 false "run1") 0))
     = ["OUT/RIG_COSIM"; "OUT/RIG_COSIM/RIGID_RIGID"]
  /\ ~ In (create_directory "OUT/RIG_COSIM/RIGID_RIGID_run1")
          (fst (main demo_build demo_globals (demo_input 2 0 false "run1") 0))
  /\ snd (main demo_build demo_globals (demo_input 2 0 false "run1") 0) = Exit 0.
Proof.
  split; [reflexivity |]. split; [vm_compute; reflexivity |]. split; [| vm_compute; reflexivity].
  intros Hin.
  assert (Hc : In "OUT/RIG_COSIM/RIGID_RIGID_run1"
                 (created_directories
                    (fst (main demo_build demo_globals (demo_input 2 0 false "run1") 0)))).
  { unfold created_directories. apply in_flat_map.
    eexists. split; [exact Hin | now left]. }
  vm_compute in Hc. destruct Hc as [Hc | [Hc | []]]; discriminate.
Qed.

(** ** The node pointer *)

(** A terrain type with a case in the switch gets its node built once the
    module checks have passed. *)
Lemma terrain_node_present b g rank t :
  rank = TERRAIN_NODE_RANK b ->
  t <> GRANULAR_MPI ->
  exists c, node_class b g rank t = Some c.
Proof.
  intros -> Ht. unfold node_class. rewrite Z.eqb_refl.
  destruct t; cbn; try (eexists; reflexivity). contradiction.
Qed.

(** A terrain type whose module is compiled out is refused before any node
    is built. *)
Lemma missing_module_aborts b g inp rank :
  num_procs inp = 2 ->
  cli_parse (cli inp) = true ->
  modules_ok b (terrain_type (parsed inp)) = false ->
  snd (main b g inp rank) = Aborted 1
  /\ filter is_New (fst (main b g inp rank)) = [].
Proof.
  intros Hp Hc Hm.
  unfold main, main_body, startup, reach_barrier, check_num_procs, parse_arguments,
    GetProblemSpecs, check_modules, mpi_prologue.
  unfold modules_ok in Hm. rewrite Hp, Hc.
  change (read_options (cli inp) initial_specs) with (parsed inp).
  revert Hm. generalize (parsed inp) as sp. intros sp Hm.
  destruct (required_module_missing b (terrain_type sp)) eqn:Hmiss; [| discriminate].
  destruct (_DEBUG b), (rank =? 0); cbn; rewrite Hmiss; split; reflexivity.
Qed.

(** C10 (the code at the failing input). With [terrain_type] 5 the parser
    selects GRANULAR_MPI, which no module check refuses and no case of the
    switch handles: on the terrain rank no node is constructed, nothing
    aborts, and [node->Initialize()] is reached with a null pointer. *)
Theorem granular_mpi_null_node b g inp rank sim_steps output_steps :
  num_procs inp = 2 ->
  cli_parse (cli inp) = true ->
  cli_terrain_type (cli inp) = 5 ->
  directories_ok inp rank = true ->
  sim_steps_of (parsed inp) = Some sim_steps ->
  output_steps_of g (parsed inp) = Some output_steps ->
  rank = TERRAIN_NODE_RANK b ->
  rank <> RIG_NODE_RANK b ->
  terrain_type (parsed inp) = GRANULAR_MPI
  /\ main b g inp rank =
     (startup_events b g rank GRANULAR_MPI
        ++ (if verbose (parsed inp) then [cout (msg_terrain_rank rank)] else []),
      Undefined NullDereference)
  /\ filter is_New (fst (main b g inp rank)) = []
  /\ (forall code, ~ In (MPI_Abort code) (fst (main b g inp rank))).
Proof.
  intros Hp Hc H5 Hd Hs Ho Hterrain Hrig.
  assert (Ht : terrain_type (parsed inp) = GRANULAR_MPI).
  { unfold parsed, read_options. now rewrite H5. }
  assert (Hm : modules_ok b (terrain_type (parsed inp)) = true) by now rewrite Ht.
  assert (Hmain : main b g inp rank =
                  (startup_events b g rank GRANULAR_MPI
                     ++ (if verbose (parsed inp) then [cout (msg_terrain_rank rank)] else []),
                   Undefined NullDereference)).
  { unfold main, main_body.
    rewrite (bind_inl _ _ _ _ (startup_ok b g inp rank _ _ Hp Hc Hm Hd Hs Ho)).
    unfold create_node, create_terrain.
    apply Z.eqb_neq in Hrig. apply Z.eqb_eq in Hterrain.
    rewrite Hrig, Hterrain, Ht.
    destruct (verbose (parsed inp)); reflexivity. }
  split; [exact Ht |]. split; [exact Hmain |]. rewrite Hmain. cbn [fst].
  assert (Hkind : forallb (fun e => is_startup e || is_plain_setup e)
                    (startup_events b g rank GRANULAR_MPI
                       ++ (if verbose (parsed inp)
                           then [cout (msg_terrain_rank rank)] else [])) = true).
  { rewrite forallb_app. apply andb_true_iff. split.
    - apply (forallb_weaken is_startup); [| apply startup_events_kind].
      intros e ->. reflexivity.
    - now destruct (verbose (parsed inp)). }
  split.
  - unfold startup_events, mpi_prologue.
    destruct (_DEBUG b), (rank =? 0), (verbose (parsed inp)); reflexivity.
  - intros code. apply (not_in_other _ _ _ Hkind). reflexivity.
Qed.

Lemma granular_mpi_null_node_witness :
  main demo_build demo_globals (demo_input 2 5 false "") 1 =
  ([MPI_Init; MPI_Comm_size; MPI_Comm_rank; MPI_Get_processor_name; MPI_Barrier;
    cout (msg_terrain_rank 1)],
   Undefined NullDereference).
Proof.
  assert (Hd : 1 <> RIG_NODE_RANK demo_build) by (cbn; lia).
  exact (proj1 (proj2 (granular_mpi_null_node demo_build demo_globals
                         (demo_input 2 5 false "") 1 16 6
                         eq_refl eq_refl eq_refl eq_refl eq_refl eq_refl eq_refl Hd))).
Defined.

(** ** Facts about the node contract *)

Section NodeContractFacts.

Variable Vec : Type.
Variable zero : Vec.
Variable Patch : Type.
Variable inside : Patch -> Vec -> bool.
Variable Soil : Type.
Variable reaction : TerrainVariant -> Soil -> Vec -> Vec -> Vec.
Variable advance_soil : TerrainVariant -> Soil -> float -> Soil.
Variable deform : float -> Vec * Vec -> Vec -> Vec * Vec.

Lemma Terrain_Synchronize_length t step time nodes :
  List.length (Terrain_Synchronize zero inside reaction t step time nodes) = List.length nodes.
Proof. unfold Terrain_Synchronize. apply length_map. Qed.

Lemma Rig_Advance_topology r forces dt :
  List.length forces = List.length (vertices (rig_mesh r)) ->
  topology (rig_mesh (Rig_Advance deform r forces dt)) = topology (rig_mesh r).
Proof.
  intros Hlen. unfold topology, Rig_Advance. cbn.
  rewrite length_map, length_combine, Hlen, Nat.min_id. reflexivity.
Qed.

Lemma cosim_step_topology dt step r t :
  let '(r', t', forces) := cosim_step zero inside reaction advance_soil deform dt step (r, t) in
  topology (rig_mesh r') = topology (rig_mesh r)
  /\ received_topology t' = received_topology t
  /\ forces = Terrain_Synchronize zero inside reaction t step (Cpp.double_of_int step * dt)%float
                                   (vertices (rig_mesh r)).
Proof.
  cbn. split; [| split; reflexivity].
  apply Rig_Advance_topology. apply Terrain_Synchronize_length.
Qed.

(** The state-machine invariant of a run: both nodes keep the topology of
    the handshake, and every reply has one force per vertex. *)
Lemma cosim_steps_invariant dt k :
  forall step r t top,
    topology (rig_mesh r) = top ->
    received_topology t = Some top ->
    let '(r', t', replies) := cosim_steps zero inside reaction advance_soil deform dt k step (r, t) in
    topology (rig_mesh r') = top
    /\ received_topology t' = Some top
    /\ List.length replies = k
    /\ Forall (fun forces => List.length forces = fst top) replies.
Proof.
  induction k as [| k IH]; intros step r t top Hr Ht.
  - cbn. auto.
  - cbn [cosim_steps].
    pose proof (cosim_step_topology dt step r t) as Hstep.
    destruct (cosim_step zero inside reaction advance_soil deform dt step (r, t)) as [[r1 t1] forces].
    destruct Hstep as (Hr1 & Ht1 & Hf).
    specialize (IH (step + 1) r1 t1 top).
    destruct (cosim_steps zero inside reaction advance_soil deform dt k (step + 1) (r1, t1)) as [[r2 t2] replies].
    destruct IH as (Hr2 & Ht2 & Hlen & Hall); [congruence | congruence |].
    repeat split; try assumption.
    + cbn. now rewrite Hlen.
    + constructor; [| exact Hall].
      rewrite Hf, Terrain_Synchronize_length, <- Hr. reflexivity.
Qed.

Lemma Terrain_Synchronize_nth t step time nodes i :
  nth_error (Terrain_Synchronize zero inside reaction t step time nodes) i =
  option_map (force_on zero inside reaction t) (nth_error nodes i).
Proof. unfold Terrain_Synchronize. apply nth_error_map. Qed.

(** The reply of step [j] of a run is the terrain's answer to the vertex
    states the rig holds after [j] steps. *)
Lemma cosim_steps_reply dt j :
  forall k step s,
    (j < k)%nat ->
    let '(rj, tj, _) := cosim_steps zero inside reaction advance_soil deform dt j step s in
    nth_error (snd (cosim_steps zero inside reaction advance_soil deform dt k step s)) j =
    Some (Terrain_Synchronize zero inside reaction tj (step + Z.of_nat j)
            (Cpp.double_of_int (step + Z.of_nat j) * dt)%float
            (vertices (rig_mesh rj))).
Proof.
  induction j as [| j IH]; intros k step [r t] Hjk.
  - destruct k as [| k]; [lia |].
    cbn [cosim_steps]. cbn [cosim_step].
    destruct (cosim_steps zero inside reaction advance_soil deform dt k (step + 1) _) as [s' replies]. cbn.
    now rewrite Z.add_0_r.
  - destruct k as [| k]; [lia |].
    cbn [cosim_steps]. cbn [cosim_step].
    specialize (IH k (step + 1)
                  (Rig_Advance deform r (Terrain_Synchronize zero inside reaction t step
                                    (Cpp.double_of_int step * dt)%float
                                    (Rig_Synchronize r)) dt,
                   Terrain_Advance advance_soil t dt)).
    destruct (cosim_steps zero inside reaction advance_soil deform dt j (step + 1) _) as [[rj tj] replies_j].
    destruct (cosim_steps zero inside reaction advance_soil deform dt k (step + 1) _) as [s' replies].
    cbn [snd nth_error] in *.
    replace (step + Z.of_nat (S j)) with (step + 1 + Z.of_nat j) by lia.
    apply IH. lia.
Qed.

(** C8. For every granular (mesh-based) terrain variant and every step, a
    contact node supplied by the rig whose position lies outside the terrain
    patch gets exactly the zero force in the reply of [Synchronize], at its
    own index; the call returns a reply for every supplied node, so the
    node's presence stops neither the call nor the run. *)
Theorem out_of_patch_force_is_zero (t : TerrainNode Patch Soil) step time nodes i p v :
  mesh_based (variant t) = true ->
  nth_error nodes i = Some (p, v) ->
  inside (patch t) p = false ->
  nth_error (Terrain_Synchronize zero inside reaction t step time nodes) i = Some zero
  /\ List.length (Terrain_Synchronize zero inside reaction t step time nodes) = List.length nodes.
Proof.
  intros _ Hi Hout. split; [| apply Terrain_Synchronize_length].
  rewrite Terrain_Synchronize_nth, Hi. cbn. unfold force_on. cbn. now rewrite Hout.
Qed.

(** C9. In a flexible-tire run whose mesh has N vertices at [Initialize],
    after any number of steps both nodes still hold the vertex count and
    face connectivity of the handshake, every [Synchronize] has returned
    exactly N forces, and the force at index [i] of the reply of step [j]
    is the one computed for the vertex at index [i] of the rig's mesh as
    it stands in step [j]. *)
Theorem mesh_topology_stable dt k (r : RigNode Vec) (t : TerrainNode Patch Soil) :
  let N := List.length (vertices (rig_mesh r)) in
  let '(r', t', replies) := cosim_run zero inside reaction advance_soil deform dt k r t in
  topology (rig_mesh r') = topology (rig_mesh r)
  /\ received_topology t' = Some (topology (rig_mesh r))
  /\ List.length (vertices (rig_mesh r')) = N
  /\ faces (rig_mesh r') = faces (rig_mesh r)
  /\ List.length replies = k
  /\ Forall (fun forces => List.length forces = N) replies
  /\ (forall j, (j < k)%nat ->
        let '(rj, tj, _) := cosim_run zero inside reaction advance_soil deform dt j r t in
        exists forces,
          nth_error replies j = Some forces
          /\ List.length (vertices (rig_mesh rj)) = N
          /\ forall i, nth_error forces i =
                       option_map (force_on zero inside reaction tj) (nth_error (vertices (rig_mesh rj)) i)).
Proof.
  intros N. unfold cosim_run.
  set (s0 := (r, Terrain_Initialize t (Rig_Initialize r))).
  pose proof (cosim_steps_invariant dt k 0 r (Terrain_Initialize t (Rig_Initialize r))
                (topology (rig_mesh r)) eq_refl eq_refl) as Hinv.
  fold s0 in Hinv.
  assert (Hreply := fun j => cosim_steps_reply dt j k 0 s0).
  assert (Hprefix := fun j => cosim_steps_invariant dt j 0 r
                                (Terrain_Initialize t (Rig_Initialize r))
                                (topology (rig_mesh r)) eq_refl eq_refl).
  fold s0 in Hprefix.
  destruct (cosim_steps zero inside reaction advance_soil deform dt k 0 s0) as [[r' t'] replies].
  destruct Hinv as (Hr' & Ht' & Hlen & Hall).
  repeat split; try assumption.
  - now injection Hr'.
  - now injection Hr'.
  - intros j Hj. specialize (Hreply j Hj). specialize (Hprefix j).
    destruct (cosim_steps zero inside reaction advance_soil deform dt j 0 s0) as [[rj tj] replies_j].
    destruct Hprefix as (Hrj & _).
    cbn [snd] in Hreply. eexists. split; [exact Hreply |]. split.
    + now injection Hrj.
    + intros i. apply Terrain_Synchronize_nth.
Qed.

End NodeContractFacts.

Lemma out_of_patch_force_is_zero_witness :
  nth_error (Terrain_Synchronize (0, 0, 0) demo_inside demo_reaction demo_terrain 0 0%float
               (vertices (rig_mesh demo_rig))) 1 = Some (0, 0, 0).
Proof.
  exact (proj1 (out_of_patch_force_is_zero (Z * Z * Z) (0, 0, 0) (Z * Z) demo_inside unit
                  demo_reaction demo_terrain 0 0%float (vertices (rig_mesh demo_rig))
                  1%nat (5, 0, 0) (1, 0, 0) eq_refl eq_refl eq_refl)).
Defined.

Example demo_contract_run :
  snd (cosim_run (0, 0, 0) demo_inside demo_reaction (fun _ s _ => s) demo_deform
         0.5%float 2 demo_rig demo_terrain) =
  [[(0, 0, 1); (0, 0, 0); (0, 0, 1)]; [(0, 0, 1); (0, 0, 0); (0, 0, 1)]].
Proof. vm_compute. reflexivity. Qed.

Lemma mesh_topology_stable_witness :
  Forall (fun forces : list (Z * Z * Z) => List.length forces = 3%nat)
         (snd (cosim_run (0, 0, 0) demo_inside demo_reaction (fun _ s _ => s) demo_deform
                 0.5%float 2 demo_rig demo_terrain)).
Proof.
  pose proof (mesh_topology_stable (Z * Z * Z) (0, 0, 0) (Z * Z) demo_inside unit
                demo_reaction (fun _ s _ => s) demo_deform 0.5%float 2
                demo_rig demo_terrain) as H.
  cbv zeta in H.
  destruct (cosim_run (0, 0, 0) demo_inside demo_reaction (fun _ s _ => s) demo_deform
              0.5%float 2 demo_rig demo_terrain) as [[r' t'] replies].
  exact (proj1 (proj2 (proj2 (proj2 (proj2 (proj2 H)))))).
Defined.

(** ** The end-of-run checkpoint *)

(** C5. Every launched rank, whatever its terrain and tire variant and
    whether or not output is enabled, returns 0 from [main], and its trace
    ends with the loop followed by exactly one
    [WriteCheckpoint("checkpoint_end.dat")] on its node, the deletion of
    the node and [MPI_Finalize]; no other call writes that checkpoint.  On
    a rig node the call leaves the node and the checkpoint store as they
    were. *)
Theorem end_checkpoint_written_once b g inp rank node sim_steps output_steps :
  Launch b g inp rank node sim_steps output_steps ->
  let t := fst (main b g inp rank) in
  snd (main b g inp rank) = Exit 0
  /\ (exists setup,
        t = setup
              ++ Initialize node
              :: iterations rank (parsed inp) node output_steps sim_steps
              ++ [WriteCheckpoint node "checkpoint_end.dat"; Delete node; MPI_Finalize]
        /\ filter (is_checkpoint "checkpoint_end.dat") setup = []
        /\ filter is_Synchronize setup = [])
  /\ filter (is_checkpoint "checkpoint_end.dat") t =
     [WriteCheckpoint node "checkpoint_end.dat"]
  /\ (is_rig node = true ->
      forall (Vec Soil : Type) (r : RigNode Vec) (store : CheckpointStore Soil),
        Rig_WriteCheckpoint r store "checkpoint_end.dat" = (r, store)).
Proof.
  intros L t. subst t.
  assert (Hstart : forall e, is_startup e = true ->
                             is_checkpoint "checkpoint_end.dat" e = false)
    by now intros [].
  assert (Hsetup : forall e, is_setup e = true ->
                             is_checkpoint "checkpoint_end.dat" e = false).
  { intros []; try reflexivity; try discriminate.
    cbn. intros Hf. apply String.eqb_eq in Hf. now subst. }
  assert (Hstep : forall e, is_stepping e = true ->
                            is_checkpoint "checkpoint_end.dat" e = false)
    by now intros [].
  split; [| split; [| split]].
  - now rewrite (main_launch L).
  - exists (startup_events b g rank (terrain_type (parsed inp))
              ++ node_events b g rank (parsed inp)).
    split; [| split].
    + rewrite (main_launch L). cbn [fst]. now rewrite <- app_assoc.
    + rewrite filter_app.
      rewrite (filter_other _ _ _ Hstart (startup_events_kind _ _ _ _)).
      now rewrite (filter_other _ _ _ Hsetup (node_events_kind _ _ _ _)).
    + rewrite filter_app.
      rewrite (filter_other is_Synchronize is_startup), (filter_other is_Synchronize is_setup).
      * reflexivity.
      * now intros [].
      * apply node_events_kind.
      * now intros [].
      * apply startup_events_kind.
  - rewrite (launched_filter _ _ _ _ _ _ _ _ L).
    rewrite (filter_other _ _ _ Hstart (startup_events_kind _ _ _ _)).
    rewrite (filter_other _ _ _ Hsetup (node_events_kind _ _ _ _)).
    rewrite (filter_other _ _ _ Hstep (iterations_kind _ _ _ _ _)).
    reflexivity.
  - reflexivity.
Qed.

Lemma end_checkpoint_written_once_witness :
  (Launch demo_build demo_globals (demo_input 2 1 false "") 0 RigNodeRigidTire 16 6
   /\ filter (is_checkpoint "checkpoint_end.dat")
        (fst (main demo_build demo_globals (demo_input 2 1 false "") 0)) =
      [WriteCheckpoint RigNodeRigidTire "checkpoint_end.dat"])
  /\ (Launch demo_build demo_globals (demo_input 2 1 false "") 1 TerrainNodeSCM 16 6
      /\ filter (is_checkpoint "checkpoint_end.dat")
           (fst (main demo_build demo_globals (demo_input 2 1 false "") 1)) =
         [WriteCheckpoint TerrainNodeSCM "checkpoint_end.dat"]).
Proof.
  assert (L0 : Launch demo_build demo_globals (demo_input 2 1 false "") 0
                 RigNodeRigidTire 16 6) by launch_by_computation.
  assert (L1 : Launch demo_build demo_globals (demo_input 2 1 false "") 1
                 TerrainNodeSCM 16 6) by launch_by_computation.
  split; (split; [assumption |]).
  - exact (proj1 (proj2 (proj2 (end_checkpoint_written_once _ _ _ _ _ _ _ L0)))).
  - exact (proj1 (proj2 (proj2 (end_checkpoint_written_once _ _ _ _ _ _ _ L1)))).
Defined.

(** ** Every way [main] can end *)

Section Paths.

Variable b : Build.
Variable g : Globals.
Variable inp : Input.
Variable rank : Z.

Let sp := parsed inp.

(** Lines 107-112. *)
Lemma main_wrong_process_count :
  num_procs inp <> 2 ->
  main b g inp rank =
  (fst (mpi_prologue b rank)
     ++ (if rank =? 0 then [cout msg_two_ranks] else [])
     ++ [MPI_Abort 1],
   Aborted 1).
Proof.
  intros Hn. apply Z.eqb_neq in Hn.
  unfold main, main_body, startup, reach_barrier, check_num_procs, mpi_prologue.
  rewrite Hn. destruct (_DEBUG b), (rank =? 0); reflexivity.
Qed.

(** Lines 129-133 and 533-537. *)
Lemma main_parse_failure :
  num_procs inp = 2 ->
  cli_parse (cli inp) = false ->
  main b g inp rank =
  (fst (mpi_prologue b rank)
     ++ (if rank =? 0 then [cli_Help] else [])
     ++ [MPI_Finalize],
   Exit 1).
Proof.
  intros Hp Hc.
  unfold main, main_body, startup, reach_barrier, check_num_procs, parse_arguments,
    GetProblemSpecs, mpi_prologue.
  rewrite Hp, Hc. destruct (_DEBUG b), (rank =? 0); reflexivity.
Qed.

(** Lines 135-160. *)
Lemma main_missing_module m :
  num_procs inp = 2 ->
  cli_parse (cli inp) = true ->
  required_module_missing b (terrain_type sp) = Some m ->
  main b g inp rank =
  (fst (mpi_prologue b rank)
     ++ (if rank =? 0 then [cout m] else [])
     ++ [MPI_Abort 1],
   Aborted 1).
Proof.
  intros Hp Hc Hm.
  unfold main, main_body, startup, reach_barrier, check_num_procs, parse_arguments,
    GetProblemSpecs, check_modules, mpi_prologue.
  rewrite Hp, Hc.
  change (read_options (cli inp) initial_specs) with sp.
  clearbody sp.
  destruct (_DEBUG b), (rank =? 0); cbn; rewrite Hm; reflexivity.
Qed.

(** Lines 182-183: a step count that does not fit an [int]. *)
Lemma main_conversion_undefined :
  num_procs inp = 2 ->
  cli_parse (cli inp) = true ->
  modules_ok b (terrain_type sp) = true ->
  directories_ok inp rank = true ->
  sim_steps_of sp = None \/ output_steps_of g sp = None ->
  main b g inp rank =
  (startup_events b g rank (terrain_type sp), Undefined IntConversion).
Proof.
  intros Hp Hc Hm Hd Hs.
  unfold main, main_body, startup.
  rewrite (bind_inl _ _ _ _ (reach_barrier_ok b g inp rank Hp Hc Hm Hd)).
  fold sp.
  destruct (sim_steps_of sp) as [ss |] eqn:Ess;
    [destruct (output_steps_of g sp) as [os |] eqn:Eos |].
  - destruct Hs; discriminate.
  - cbn. now rewrite app_nil_r.
  - cbn. now rewrite app_nil_r.
Qed.

(** What [create_node] leaves in the pointer. *)
Lemma create_node_result :
  modules_ok b (terrain_type sp) = true ->
  create_node b g rank sp =
  (node_events b g rank sp, inl (node_class b g rank (terrain_type sp))).
Proof.
  intros Hm. unfold node_events.
  destruct (create_node b g rank sp) as [t r] eqn:E. cbn [fst]. f_equal.
  apply (f_equal snd) in E. cbn [snd] in E. rewrite <- E. clear E t.
  unfold modules_ok, required_module_missing in Hm.
  unfold node_class, rig_class, terrain_class.
  unfold create_node, create_rig, create_terrain, terrain_common, settle_or_restore.
  clearbody sp.
  destruct (rank =? RIG_NODE_RANK b), (rank =? TERRAIN_NODE_RANK b),
    (terrain_type sp), (tire_type g), (verbose sp), (use_checkpoint sp),
    (CHRONO_MULTICORE b), (CHRONO_GPU b), (CHRONO_FSI b);
    try discriminate; reflexivity.
Qed.

(** Line 455 with a null pointer. *)
Lemma main_null_node sim_steps output_steps :
  num_procs inp = 2 ->
  cli_parse (cli inp) = true ->
  modules_ok b (terrain_type sp) = true ->
  directories_ok inp rank = true ->
  sim_steps_of sp = Some sim_steps ->
  output_steps_of g sp = Some output_steps ->
  node_class b g rank (terrain_type sp) = None ->
  main b g inp rank =
  (startup_events b g rank (terrain_type sp) ++ node_events b g rank sp,
   Undefined NullDereference).
Proof.
  intros Hp Hc Hm Hd Hs Ho Hn.
  unfold main, main_body.
  rewrite (bind_inl _ _ _ _ (startup_ok b g inp rank _ _ Hp Hc Hm Hd Hs Ho)).
  fold sp. rewrite (bind_inl _ _ _ _ (create_node_result Hm)). rewrite Hn.
  cbn. now rewrite app_nil_r.
Qed.

(** The first pass of the loop when output is enabled and [output_steps] is
    0: the step is synchronized and advanced, then line 476 divides by 0. *)
Lemma loop_body_division_by_zero node n frame :
  output sp = true ->
  loop_body rank sp node 0 n frame =
  ((if verbose sp && (rank =? 0) then [cout (msg_step n)] else [])
     ++ [MPI_Barrier;
         Synchronize node n (Cpp.double_of_int n * step_size sp)%float;
         Advance node (step_size sp)]
     ++ (if verbose sp
         then [Get node "GetSimTime"; Get node "GetTotalSimTime"; cout (msg_sim_time rank)]
         else []),
   inr (Undefined DivisionByZero)).
Proof.
  intros Ho. unfold loop_body, maybe_output. rewrite Ho. clearbody sp.
  destruct (verbose sp), (rank =? 0); reflexivity.
Qed.

Lemma main_division_by_zero node sim_steps :
  num_procs inp = 2 ->
  cli_parse (cli inp) = true ->
  modules_ok b (terrain_type sp) = true ->
  directories_ok inp rank = true ->
  sim_steps_of sp = Some sim_steps ->
  output_steps_of g sp = Some 0 ->
  node_class b g rank (terrain_type sp) = Some node ->
  output sp = true ->
  0 < sim_steps ->
  main b g inp rank =
  (startup_events b g rank (terrain_type sp)
     ++ node_events b g rank sp
     ++ Initialize node
     :: (if verbose sp && (rank =? 0) then [cout (msg_step 0)] else [])
     ++ [MPI_Barrier;
         Synchronize node 0 (Cpp.double_of_int 0 * step_size sp)%float;
         Advance node (step_size sp)]
     ++ (if verbose sp
         then [Get node "GetSimTime"; Get node "GetTotalSimTime"; cout (msg_sim_time rank)]
         else []),
   Undefined DivisionByZero).
Proof.
  intros Hp Hc Hm Hd Hs Ho Hn Hout Hpos.
  unfold main, main_body.
  rewrite (bind_inl _ _ _ _ (startup_ok b g inp rank _ _ Hp Hc Hm Hd Hs Ho)).
  fold sp. rewrite (bind_inl _ _ _ _ (create_node_result Hm)). rewrite Hn.
  unfold cosimulate. cbn [deref defined].
  rewrite (bind_inl _ _ [] node eq_refl). cbn [app fst snd].
  rewrite (bind_inl _ _ [Initialize node] tt eq_refl).
  destruct (Z.to_nat sim_steps) as [| fuel] eqn:Ef; [lia |].
  cbn [main_loop].
  assert (Hlt : (0 <? sim_steps) = true) by now apply Z.ltb_lt.
  rewrite Hlt.
  rewrite (bind_inr _ _ _ _ (loop_body_division_by_zero node 0 0 Hout)).
  rewrite (bind_inr _ _ _ (Undefined DivisionByZero) eq_refl).
  cbn [fst snd app]. reflexivity.
Qed.

End Paths.

(** [main] does what its closed form says, on every input. *)
Lemma main_summary b g inp rank : main b g inp rank = summary b g inp rank.
Proof.
  unfold summary.
  destruct (num_procs inp =? 2) eqn:Hp; cbn [negb].
  2: { apply main_wrong_process_count. now apply Z.eqb_neq. }
  apply Z.eqb_eq in Hp.
  destruct (cli_parse (cli inp)) eqn:Hc; cbn [negb].
  2: { now apply main_parse_failure. }
  destruct (required_module_missing b (terrain_type (parsed inp))) as [m |] eqn:Hmiss.
  { now apply main_missing_module. }
  assert (Hm : modules_ok b (terrain_type (parsed inp)) = true)
    by (unfold modules_ok; now rewrite Hmiss).
  destruct (directories_ok inp rank) eqn:Hd; cbn [negb].
  2: { unfold directories_ok in Hd. apply orb_false_iff in Hd as [Hr Hd].
       apply negb_false_iff, Z.eqb_eq in Hr. subst rank.
       exact (main_directory_failure b g inp Hp Hc Hm Hd). }
  destruct (sim_steps_of (parsed inp)) as [ss |] eqn:Hs.
  2: { apply main_conversion_undefined; auto. }
  destruct (output_steps_of g (parsed inp)) as [os |] eqn:Ho.
  2: { apply main_conversion_undefined; auto. }
  destruct (node_class b g rank (terrain_type (parsed inp))) as [node |] eqn:Hn.
  2: { now apply (main_null_node b g inp rank ss os). }
  destruct (remainder_ok (parsed inp) ss os) eqn:Hr.
  - apply main_launch. now constructor.
  - unfold remainder_ok in Hr.
    apply orb_false_iff in Hr as [Hr Hss]. apply orb_false_iff in Hr as [Hout Hos].
    apply negb_false_iff in Hout. apply negb_false_iff, Z.eqb_eq in Hos. subst os.
    apply Z.leb_gt in Hss.
    now apply (main_division_by_zero b g inp rank node ss).
Qed.

(** ** Further properties: the ways a run ends early *)

Lemma setup_not_end_checkpoint e :
  is_setup e = true -> is_checkpoint "checkpoint_end.dat" e = false.
Proof.
  destruct e; try reflexivity; try discriminate.
  cbn. intros Hf. apply String.eqb_eq in Hf. now subst.
Qed.

(** X1. A command line that does not parse makes [GetProblemSpecs] return
    false with the caller's variables untouched, printing the help on rank
    0 only; [main] then calls [MPI_Finalize] and returns 1 on every rank,
    without aborting the job, creating a directory or constructing a node. *)
Theorem unparsed_command_line_returns_1 b g inp rank s :
  num_procs inp = 2 ->
  cli_parse (cli inp) = false ->
  GetProblemSpecs (cli inp) rank s =
    ((if rank =? 0 then [cli_Help] else []), inl (false, s))
  /\ main b g inp rank =
     (fst (mpi_prologue b rank)
        ++ (if rank =? 0 then [cli_Help] else [])
        ++ [MPI_Finalize],
      Exit 1)
  /\ created_directories (fst (main b g inp rank)) = []
  /\ filter is_New (fst (main b g inp rank)) = []
  /\ (forall code, ~ In (MPI_Abort code) (fst (main b g inp rank))).
Proof.
  intros Hp Hc. split; [| split].
  - unfold GetProblemSpecs. rewrite Hc. now destruct (rank =? 0).
  - now apply main_parse_failure.
  - rewrite (main_parse_failure b g inp rank Hp Hc). cbn [fst].
    unfold mpi_prologue.
    destruct (_DEBUG b), (rank =? 0); repeat split; try reflexivity;
      intros code Hin; cbn in Hin; intuition discriminate.
Qed.

Lemma unparsed_command_line_returns_1_witness :
  main demo_build demo_globals unparsed_input 0 =
  ([MPI_Init; MPI_Comm_size; MPI_Comm_rank; MPI_Get_processor_name; cli_Help;
    MPI_Finalize], Exit 1)
  /\ main demo_build demo_globals unparsed_input 1 =
     ([MPI_Init; MPI_Comm_size; MPI_Comm_rank; MPI_Get_processor_name; MPI_Finalize],
      Exit 1).
Proof.
  split.
  - exact (proj1 (proj2 (unparsed_command_line_returns_1 demo_build demo_globals
                           unparsed_input 0 initial_specs eq_refl eq_refl))).
  - exact (proj1 (proj2 (unparsed_command_line_returns_1 demo_build demo_globals
                           unparsed_input 1 initial_specs eq_refl eq_refl))).
Defined.

(** X2. A terrain type whose module is compiled out is refused on every rank
    by [MPI_Abort(MPI_COMM_WORLD, 1)] right after parsing, before any
    directory is created; rank 0 names the module.  RIGID and GRANULAR_OMP
    need Chrono::Multicore, GRANULAR_GPU needs Chrono::Gpu, GRANULAR_SPH
    needs Chrono::FSI, and nothing else is ever refused. *)
Theorem compiled_out_terrain_is_refused b g inp rank :
  num_procs inp = 2 ->
  cli_parse (cli inp) = true ->
  modules_ok b (terrain_type (parsed inp)) = false ->
  let t := terrain_type (parsed inp) in
  exists m,
    main b g inp rank =
    (fst (mpi_prologue b rank) ++ (if rank =? 0 then [cout m] else []) ++ [MPI_Abort 1],
     Aborted 1)
    /\ created_directories (fst (main b g inp rank)) = []
    /\ ((m = msg_need_multicore /\ CHRONO_MULTICORE b = false
         /\ (t = RIGID \/ t = GRANULAR_OMP))
        \/ (m = msg_need_gpu /\ CHRONO_GPU b = false /\ t = GRANULAR_GPU)
        \/ (m = msg_need_fsi /\ CHRONO_FSI b = false /\ t = GRANULAR_SPH)).
Proof.
  intros Hp Hc Hm t. unfold modules_ok in Hm.
  destruct (required_module_missing b (terrain_type (parsed inp))) as [m |] eqn:Hmiss;
    [| discriminate].
  exists m. rewrite (main_missing_module b g inp rank m Hp Hc Hmiss).
  split; [reflexivity |]. split.
  - cbn [fst]. unfold mpi_prologue. now destruct (_DEBUG b), (rank =? 0).
  - subst t. unfold required_module_missing in Hmiss.
    destruct (terrain_type (parsed inp)), (CHRONO_MULTICORE b) eqn:E1,
      (CHRONO_GPU b) eqn:E2, (CHRONO_FSI b) eqn:E3;
      try discriminate; injection Hmiss as <-; auto 10.
Qed.

Lemma compiled_out_terrain_is_refused_witness :
  exists m,
    main bare_build demo_globals (demo_input 2 3 false "") 1 =
    ([MPI_Init; MPI_Comm_size; MPI_Comm_rank; MPI_Get_processor_name; MPI_Abort 1],
     Aborted 1)
    /\ m = msg_need_gpu.
Proof.
  destruct (compiled_out_terrain_is_refused bare_build demo_globals
              (demo_input 2 3 false "") 1 eq_refl eq_refl eq_refl)
    as (m & Hmain & _ & [(_ & _ & [H | H]) | [(Hm & _) | (_ & _ & H)]]);
    try discriminate.
  exists m. split; [exact Hmain | exact Hm].
Defined.

(** X4. With output enabled, [output_steps] equal to 0 and at least one
    step to do, the first step is synchronized and advanced and the test
    [is % output_steps] of line 476 then divides by zero: no frame is
    written, no end checkpoint is written and the node is not deleted. *)
Theorem zero_output_steps_divides_by_zero b g inp rank node sim_steps :
  num_procs inp = 2 ->
  cli_parse (cli inp) = true ->
  modules_ok b (terrain_type (parsed inp)) = true ->
  directories_ok inp rank = true ->
  sim_steps_of (parsed inp) = Some sim_steps ->
  output_steps_of g (parsed inp) = Some 0 ->
  node_class b g rank (terrain_type (parsed inp)) = Some node ->
  output (parsed inp) = true ->
  0 < sim_steps ->
  let sp := parsed inp in
  let t := fst (main b g inp rank) in
  snd (main b g inp rank) = Undefined DivisionByZero
  /\ filter is_Synchronize t =
     [Synchronize node 0 (Cpp.double_of_int 0 * step_size sp)%float]
  /\ filter is_Advance t = [Advance node (step_size sp)]
  /\ filter is_OutputData t = []
  /\ filter (is_checkpoint "checkpoint_end.dat") t = []
  /\ filter is_Delete t = [].
Proof.
  intros Hp Hc Hm Hd Hs Ho Hn Hout Hpos sp t. subst t.
  rewrite (main_division_by_zero b g inp rank node sim_steps Hp Hc Hm Hd Hs Ho Hn Hout Hpos).
  cbn [fst snd]. fold sp. split; [reflexivity |].
  rewrite !filter_app.
  rewrite (filter_other is_Synchronize is_startup _ ltac:(now intros [])
             (startup_events_kind _ _ _ _)).
  rewrite (filter_other is_Advance is_startup _ ltac:(now intros [])
             (startup_events_kind _ _ _ _)).
  rewrite (filter_other is_OutputData is_startup _ ltac:(now intros [])
             (startup_events_kind _ _ _ _)).
  rewrite (filter_other is_Delete is_startup _ ltac:(now intros [])
             (startup_events_kind _ _ _ _)).
  rewrite (filter_other (is_checkpoint "checkpoint_end.dat") is_startup _
             ltac:(now intros []) (startup_events_kind _ _ _ _)).
  rewrite (filter_other is_Synchronize is_setup _ ltac:(now intros [])
             (node_events_kind _ _ _ _)).
  rewrite (filter_other is_Advance is_setup _ ltac:(now intros [])
             (node_events_kind _ _ _ _)).
  rewrite (filter_other is_OutputData is_setup _ ltac:(now intros [])
             (node_events_kind _ _ _ _)).
  rewrite (filter_other is_Delete is_setup _ ltac:(now intros [])
             (node_events_kind _ _ _ _)).
  rewrite (filter_other (is_checkpoint "checkpoint_end.dat") is_setup _
             setup_not_end_checkpoint (node_events_kind _ _ _ _)).
  destruct (verbose sp), (rank =? 0); repeat split; reflexivity.
Qed.

Lemma zero_output_steps_divides_by_zero_witness :
  main demo_build demo_globals backwards_input 1 =
  ([MPI_Init; MPI_Comm_size; MPI_Comm_rank; MPI_Get_processor_name; MPI_Barrier;
    New TerrainNodeSCM;
    SetVerbose TerrainNodeSCM false; Config TerrainNodeSCM "SetStepSize";
    SetOutDir TerrainNodeSCM "OUT/RIG_COSIM/RIGID_SCM" "";
    Config TerrainNodeSCM "EnableRuntimeVisualization";
    Config TerrainNodeSCM "SetPatchDimensions"; Config TerrainNodeSCM "SetPropertiesSCM";
    Config TerrainNodeSCM "SetProxyFixed"; Config TerrainNodeSCM "SetProxyContactRadius";
    Initialize TerrainNodeSCM; MPI_Barrier;
    Synchronize TerrainNodeSCM 0 (-0)%float; Advance TerrainNodeSCM (-1)%float],
   Undefined DivisionByZero)
  /\ filter is_OutputData (fst (main demo_build demo_globals backwards_input 1)) = [].
Proof.
  split; [vm_compute; reflexivity |].
  exact (proj1 (proj2 (proj2 (proj2
           (zero_output_steps_divides_by_zero demo_build demo_globals backwards_input 1
              TerrainNodeSCM 2 eq_refl eq_refl eq_refl eq_refl eq_refl eq_refl eq_refl
              eq_refl eq_refl))))).
Defined.

(** ** Further properties: a step size of zero *)

Lemma zero_has_no_sign_in_eqb (y : float) :
  (y =? 0)%float = true -> exists s, Prim2SF y = S754_zero s.
Proof.
  rewrite eqb_spec. change (Prim2SF 0) with (S754_zero false).
  destruct (Prim2SF y) as [s | s | | s m e]; cbn; try discriminate.
  - intros _. now exists s.
  - destruct s; discriminate.
  - destruct s; discriminate.
Qed.

Lemma quotient_by_zero_has_no_ceil (x y : float) :
  (y =? 0)%float = true -> Cpp.ceil (x / y) = None.
Proof.
  intros Hy. destruct (zero_has_no_sign_in_eqb y Hy) as [s Hs].
  unfold Cpp.ceil. rewrite div_spec, Hs.
  destruct (Prim2SF x) as [sx | sx | | sx mx ex]; reflexivity.
Qed.

Lemma product_with_zero (x y : float) :
  (y =? 0)%float = true -> ((x * y) =? 0)%float = true \/ Prim2SF (x * y) = S754_nan.
Proof.
  intros Hy. destruct (zero_has_no_sign_in_eqb y Hy) as [s Hs].
  rewrite eqb_spec, mul_spec, Hs. change (Prim2SF 0) with (S754_zero false).
  destruct (Prim2SF x) as [sx | sx | | sx mx ex]; cbn; auto.
Qed.

Lemma quotient_by_nan_has_no_ceil (x y : float) :
  Prim2SF y = S754_nan -> Cpp.ceil (x / y) = None.
Proof.
  intros Hy. unfold Cpp.ceil. rewrite div_spec, Hy.
  destruct (Prim2SF x) as [sx | sx | | sx mx ex]; reflexivity.
Qed.

(** With a step of zero both quotients of lines 182-183 are infinite or
    NaN, whatever the simulation time and the output rate. *)
Lemma zero_step_conversions g sp :
  (step_size sp =? 0)%float = true ->
  sim_steps_of sp = None /\ output_steps_of g sp = None.
Proof.
  intros Hz. unfold sim_steps_of, output_steps_of, Cpp.int_of_ceil. split.
  - now rewrite quotient_by_zero_has_no_ceil.
  - destruct (product_with_zero (output_fps g) (step_size sp) Hz) as [H | H].
    + now rewrite quotient_by_zero_has_no_ceil.
    + now rewrite quotient_by_nan_has_no_ceil.
Qed.

(** X5. A step size of zero (of either sign) is taken from the command line
    as it is: [GetProblemSpecs] returns true and nothing in lines 86-181
    looks at it, so a rank that passes the checks of the process count, the
    command line, the modules and the directories gets to line 182 with the
    prologue, rank 0's directories and the start-up barrier behind it.
    There both conversions to [int] are undefined, whatever the simulation
    time and the output rate: the quotients are infinite or NaN.  What the
    run does from there on the language does not define. *)
Theorem zero_step_size_is_accepted_and_undefined b g inp rank :
  num_procs inp = 2 ->
  cli_parse (cli inp) = true ->
  modules_ok b (terrain_type (parsed inp)) = true ->
  directories_ok inp rank = true ->
  (cli_step_size (cli inp) =? 0)%float = true ->
  let sp := parsed inp in
  GetProblemSpecs (cli inp) rank initial_specs = ([], inl (true, sp))
  /\ step_size sp = cli_step_size (cli inp)
  /\ reach_barrier b g inp rank = (startup_events b g rank (terrain_type sp), inl sp)
  /\ sim_steps_of sp = None
  /\ output_steps_of g sp = None.
Proof.
  intros Hp Hc Hm Hd Hz sp.
  split; [unfold GetProblemSpecs; now rewrite Hc |].
  split; [reflexivity |].
  split; [now apply reach_barrier_ok |].
  now apply zero_step_conversions.
Qed.

Lemma zero_step_size_is_accepted_and_undefined_witness :
  (cli_step_size (cli zero_step_input) =? 0)%float = true
  /\ reach_barrier demo_build demo_globals zero_step_input 0 =
     ([MPI_Init; MPI_Comm_size; MPI_Comm_rank; MPI_Get_processor_name;
       create_directory "OUT/RIG_COSIM"; create_directory "OUT/RIG_COSIM/RIGID_SCM";
       MPI_Barrier],
      inl (parsed zero_step_input))
  /\ sim_steps_of (parsed zero_step_input) = None.
Proof.
  split; [reflexivity |].
  destruct (zero_step_size_is_accepted_and_undefined demo_build demo_globals
              zero_step_input 0 eq_refl eq_refl eq_refl eq_refl eq_refl)
    as (_ & _ & Hreach & Hsim & _).
  split; [exact Hreach | exact Hsim].
Defined.

(** ** Further properties: what holds of every run *)

Lemma created_directories_app t1 t2 :
  created_directories (t1 ++ t2) = created_directories t1 ++ created_directories t2.
Proof. unfold created_directories. apply flat_map_app. Qed.

Lemma created_directories_none (q : Event -> bool) t :
  (forall e, q e = true -> no_directory e = true) ->
  forallb q t = true -> created_directories t = [].
Proof.
  intros Hq. induction t as [| e t IH]; [reflexivity |].
  cbn [forallb]. intros H. apply andb_true_iff in H as [He Ht].
  unfold created_directories in *. cbn [flat_map]. rewrite (IH Ht).
  specialize (Hq e He). destruct e; try reflexivity; discriminate.
Qed.

Lemma startup_events_directories b g rank t :
  created_directories (startup_events b g rank t) =
  if rank =? 0 then [out_dir_top g; out_dir g t] else [].
Proof.
  unfold startup_events, mpi_prologue. now destruct (_DEBUG b), (rank =? 0).
Qed.

Lemma node_events_directories b g rank sp :
  created_directories (node_events b g rank sp) = [].
Proof.
  apply (created_directories_none is_setup); [| apply node_events_kind].
  intros e He. destruct e; try reflexivity; discriminate.
Qed.

Lemma iterations_directories rank sp node os ss :
  created_directories (iterations rank sp node os ss) = [].
Proof.
  apply (created_directories_none is_stepping); [| apply iterations_kind].
  intros e He. destruct e; try reflexivity; discriminate.
Qed.

Lemma first_step_events_kind rank sp node :
  forallb is_stepping (first_step_events rank sp node) = true.
Proof.
  unfold first_step_events. now destruct (verbose sp), (rank =? 0).
Qed.

Lemma advance_guarded_first_step rank sp node :
  advance_guarded (first_step_events rank sp node).
Proof.
  unfold first_step_events.
  apply advance_guarded_app; [| apply advance_guarded_app].
  - apply advance_guarded_other. now destruct (verbose sp && (rank =? 0)).
  - apply advance_guarded_step.
  - apply advance_guarded_other. now destruct (verbose sp).
Qed.

Lemma advance_guarded_startup b g rank t :
  advance_guarded (startup_events b g rank t).
Proof.
  apply advance_guarded_other.
  apply (forallb_weaken is_startup); [now intros [] | apply startup_events_kind].
Qed.

Lemma advance_guarded_node_events b g rank sp :
  advance_guarded (node_events b g rank sp).
Proof.
  apply advance_guarded_other.
  apply (forallb_weaken is_setup); [now intros [] | apply node_events_kind].
Qed.

(** X6. Whatever the input and the build, and however the run ends (return,
    abort or undefined behaviour), every [Advance] that [main] performs
    comes directly after a barrier and a [Synchronize] on the same node. *)
Theorem advance_is_guarded_in_every_run b g inp rank :
  advance_guarded (fst (main b g inp rank)).
Proof.
  rewrite main_summary. unfold summary.
  destruct (num_procs inp =? 2); cbn [negb].
  2: { apply advance_guarded_other. unfold mpi_prologue.
       now destruct (_DEBUG b), (rank =? 0). }
  destruct (cli_parse (cli inp)); cbn [negb].
  2: { apply advance_guarded_other. unfold mpi_prologue.
       now destruct (_DEBUG b), (rank =? 0). }
  destruct (required_module_missing b (terrain_type (parsed inp))).
  { apply advance_guarded_other. unfold mpi_prologue.
    now destruct (_DEBUG b), (rank =? 0). }
  destruct (directories_ok inp rank); cbn [negb].
  2: { apply advance_guarded_other. unfold mpi_prologue.
       now destruct (_DEBUG b), (rank =? 0), (mkdir_top inp). }
  destruct (sim_steps_of (parsed inp)) as [ss |];
    [| apply advance_guarded_startup].
  destruct (output_steps_of g (parsed inp)) as [os |];
    [| apply advance_guarded_startup].
  destruct (node_class b g rank (terrain_type (parsed inp))) as [node |].
  2: { apply advance_guarded_app;
         [apply advance_guarded_startup | apply advance_guarded_node_events]. }
  destruct (remainder_ok (parsed inp) ss os); cbn [fst].
  - apply advance_guarded_app; [apply advance_guarded_startup |].
    apply advance_guarded_app; [apply advance_guarded_node_events |].
    apply (advance_guarded_app [Initialize node]); [now apply advance_guarded_other |].
    apply advance_guarded_app; [apply advance_guarded_iterations |].
    now apply advance_guarded_other.
  - apply advance_guarded_app; [apply advance_guarded_startup |].
    apply advance_guarded_app; [apply advance_guarded_node_events |].
    apply (advance_guarded_app [Initialize node]); [now apply advance_guarded_other |].
    apply advance_guarded_first_step.
Qed.

(** X7. In every run directories are created by rank 0 only, and only the
    two of lines 163-166 in that order: a rank other than 0 creates none,
    and rank 0 creates none, the top one, or the top one and then the
    run's. *)
Theorem directories_are_created_by_rank_0_only b g inp rank :
  let dirs := created_directories (fst (main b g inp rank)) in
  let top := out_dir_top g in
  let dir := out_dir g (terrain_type (parsed inp)) in
  (dirs = [] \/ dirs = [top] \/ dirs = [top; dir])
  /\ (rank <> 0 -> dirs = []).
Proof.
  intros dirs top dir. subst dirs top dir.
  rewrite main_summary. unfold summary.
  assert (Hpro : created_directories (fst (mpi_prologue b rank)) = []).
  { unfold mpi_prologue. now destruct (_DEBUG b), (rank =? 0). }
  destruct (num_procs inp =? 2); cbn [negb fst].
  2: { rewrite !created_directories_app, Hpro.
       split; [left | intros _]; now destruct (rank =? 0). }
  destruct (cli_parse (cli inp)); cbn [negb fst].
  2: { rewrite !created_directories_app, Hpro.
       split; [left | intros _]; now destruct (rank =? 0). }
  destruct (required_module_missing b (terrain_type (parsed inp))); cbn [fst].
  { rewrite !created_directories_app, Hpro.
    split; [left | intros _]; now destruct (rank =? 0). }
  destruct (directories_ok inp rank) eqn:Hd; cbn [negb fst].
  2: { rewrite !created_directories_app, Hpro.
       unfold directories_ok in Hd. apply orb_false_iff in Hd as [Hr _].
       apply negb_false_iff, Z.eqb_eq in Hr.
       split; [| intros Hne; contradiction].
       destruct (mkdir_top inp); cbn; auto. }
  assert (Hstart := startup_events_directories b g rank (terrain_type (parsed inp))).
  assert (Hrank : rank <> 0 -> (rank =? 0) = false) by (intros; now apply Z.eqb_neq).
  destruct (sim_steps_of (parsed inp)) as [ss |]; cbn [fst].
  2: { rewrite Hstart. split; [destruct (rank =? 0); auto | intros Hne; now rewrite Hrank]. }
  destruct (output_steps_of g (parsed inp)) as [os |]; cbn [fst].
  2: { rewrite Hstart. split; [destruct (rank =? 0); auto | intros Hne; now rewrite Hrank]. }
  destruct (node_class b g rank (terrain_type (parsed inp))) as [node |]; cbn [fst].
  2: { rewrite created_directories_app, Hstart, node_events_directories, app_nil_r.
       split; [destruct (rank =? 0); auto | intros Hne; now rewrite Hrank]. }
  destruct (remainder_ok (parsed inp) ss os); cbn [fst].
  - rewrite !created_directories_app, Hstart, node_events_directories.
    change (Initialize node :: ?l) with ([Initialize node] ++ l).
    rewrite !created_directories_app, iterations_directories. cbn [created_directories flat_map app].
    rewrite app_nil_r.
    split; [destruct (rank =? 0); auto | intros Hne; now rewrite Hrank].
  - rewrite !created_directories_app, Hstart, node_events_directories.
    change (Initialize node :: ?l) with ([Initialize node] ++ l).
    rewrite !created_directories_app.
    rewrite (created_directories_none is_stepping (first_step_events rank (parsed inp) node)
               ltac:(intros e He; destruct e; try reflexivity; discriminate)
               (first_step_events_kind _ _ _)).
    cbn [created_directories flat_map app]. rewrite app_nil_r.
    split; [destruct (rank =? 0); auto | intros Hne; now rewrite Hrank].
Qed.

Lemma directories_are_created_by_rank_0_only_witness :
  created_directories (fst (main demo_build demo_globals (demo_input 2 2 false "") 1)) = [].
Proof.
  assert (H1 : 1 <> 0) by lia.
  exact (proj2 (directories_are_created_by_rank_0_only demo_build demo_globals
                  (demo_input 2 2 false "") 1) H1).
Defined.

Lemma still_running_startup b g rank t :
  forallb still_running (startup_events b g rank t) = true.
Proof.
  apply (forallb_weaken is_startup); [now intros [] | apply startup_events_kind].
Qed.

Lemma still_running_node_events b g rank sp :
  forallb still_running (node_events b g rank sp) = true.
Proof.
  apply (forallb_weaken is_setup); [now intros [] | apply node_events_kind].
Qed.

Lemma still_running_iterations rank sp node os ss :
  forallb still_running (iterations rank sp node os ss) = true.
Proof.
  apply (forallb_weaken is_stepping); [now intros [] | apply iterations_kind].
Qed.

Lemma still_running_first_step rank sp node :
  forallb still_running (first_step_events rank sp node) = true.
Proof.
  apply (forallb_weaken is_stepping); [now intros [] | apply first_step_events_kind].
Qed.

Lemma still_running_prologue b rank :
  forallb still_running (fst (mpi_prologue b rank)) = true.
Proof. unfold mpi_prologue. now destruct (_DEBUG b), (rank =? 0). Qed.

(** X8. However a run ends, it leaves the MPI job in exactly one way.  A
    run that returns from [main] returns 0 or 1 and has called
    [MPI_Finalize] as its very last action, once, and never [MPI_Abort]; a
    run that aborts does so with code 1, [MPI_Abort] is its last action and
    it has not called [MPI_Finalize]; a run that meets undefined behaviour
    has called neither. *)
Theorem every_run_ends_the_job_once b g inp rank :
  match snd (main b g inp rank) with
  | Exit code =>
      (code = 0 \/ code = 1)
      /\ exists pre, fst (main b g inp rank) = pre ++ [MPI_Finalize]
                     /\ forallb still_running pre = true
  | Aborted code =>
      code = 1
      /\ exists pre, fst (main b g inp rank) = pre ++ [MPI_Abort 1]
                     /\ forallb still_running pre = true
  | Killed => False
  | Undefined _ => forallb still_running (fst (main b g inp rank)) = true
  end.
Proof.
  rewrite main_summary. unfold summary.
  pose proof (still_running_prologue b rank) as Hpro.
  destruct (num_procs inp =? 2); cbn [negb fst snd].
  2: { split; [reflexivity |]. eexists. rewrite app_assoc. split; [reflexivity |].
       rewrite forallb_app, Hpro. now destruct (rank =? 0). }
  destruct (cli_parse (cli inp)); cbn [negb fst snd].
  2: { split; [now right |]. eexists. rewrite app_assoc. split; [reflexivity |].
       rewrite forallb_app, Hpro. now destruct (rank =? 0). }
  destruct (required_module_missing b (terrain_type (parsed inp))); cbn [fst snd].
  { split; [reflexivity |]. eexists. rewrite app_assoc. split; [reflexivity |].
    rewrite forallb_app, Hpro. now destruct (rank =? 0). }
  destruct (directories_ok inp rank); cbn [negb fst snd].
  2: { split; [reflexivity |]. eexists. rewrite app_assoc. split; [reflexivity |].
       rewrite forallb_app, Hpro. now destruct (mkdir_top inp). }
  destruct (sim_steps_of (parsed inp)) as [ss |]; cbn [fst snd];
    [| apply still_running_startup].
  destruct (output_steps_of g (parsed inp)) as [os |]; cbn [fst snd];
    [| apply still_running_startup].
  destruct (node_class b g rank (terrain_type (parsed inp))) as [node |]; cbn [fst snd].
  2: { now rewrite forallb_app, still_running_startup, still_running_node_events. }
  destruct (remainder_ok (parsed inp) ss os); cbn [fst snd].
  - split; [now left |].
    exists (startup_events b g rank (terrain_type (parsed inp))
              ++ node_events b g rank (parsed inp)
              ++ Initialize node
              :: iterations rank (parsed inp) node os ss
              ++ [WriteCheckpoint node "checkpoint_end.dat"; Delete node]).
    split.
    + repeat (rewrite <- ?app_assoc; cbn [app]). reflexivity.
    + rewrite !forallb_app. cbn [forallb still_running andb].
      rewrite forallb_app.
      now rewrite still_running_startup, still_running_node_events,
        still_running_iterations.
  - rewrite !forallb_app. cbn [forallb still_running andb].
    now rewrite still_running_startup, still_running_node_events,
      still_running_first_step.
Qed.

(** X9. The switch of lines 539-558 has no default: a [--terrain_type]
    value outside 0..5 is silently accepted and the whole run is the one of
    [--terrain_type=0], the RIGID terrain. *)
Theorem unknown_terrain_option_runs_rigid b g inp rank z :
  z < 0 \/ 5 < z ->
  terrain_type (parsed (with_terrain_option z inp)) = RIGID
  /\ main b g (with_terrain_option z inp) rank = main b g (with_terrain_option 0 inp) rank.
Proof.
  intros Hz.
  assert (Hparsed : parsed (with_terrain_option z inp) = parsed (with_terrain_option 0 inp)).
  { unfold parsed, read_options, with_terrain_option. cbn [cli cli_terrain_type
      cli_threads_rig cli_threads_terrain cli_step_size cli_sim_time cli_init_vel
      cli_slip cli_coh_pressure cli_sys_mass cli_use_checkpoint cli_no_output
      cli_no_render cli_quiet cli_suffix initial_specs terrain_type].
    f_equal.
    destruct z as [| p | p]; [lia | | reflexivity].
    do 3 (try destruct p as [p | p |]); try reflexivity; lia. }
  split.
  - rewrite Hparsed. reflexivity.
  - rewrite !main_summary. unfold summary, directories_ok.
    rewrite Hparsed. reflexivity.
Qed.

Lemma unknown_terrain_option_runs_rigid_witness :
  main demo_build demo_globals (with_terrain_option 7 (demo_input 2 3 false "")) 1 =
  main demo_build demo_globals (with_terrain_option 0 (demo_input 2 3 false "")) 1.
Proof.
  assert (H7 : 7 < 0 \/ 5 < 7) by lia.
  exact (proj2 (unknown_terrain_option_runs_rigid demo_build demo_globals
                  (demo_input 2 3 false "") 1 7 H7)).
Defined.

Lemma barriers_app t1 t2 : barriers (t1 ++ t2) = (barriers t1 + barriers t2)%nat.
Proof.
  induction t1 as [| e t1 IH]; [reflexivity |].
  cbn [app barriers]. destruct e; cbn; now rewrite IH.
Qed.

Lemma barriers_setup t : forallb is_setup t = true -> barriers t = O.
Proof.
  induction t as [| e t IH]; [reflexivity |].
  cbn [forallb]. intros H. apply andb_true_iff in H as [He Ht].
  destruct e; try discriminate; cbn [barriers]; auto.
Qed.

Lemma barriers_iterations rank sp node os ss :
  barriers (iterations rank sp node os ss) = Z.to_nat ss.
Proof.
  unfold iterations. rewrite <- (upto_length ss).
  induction (upto ss) as [| n l IH]; [reflexivity |].
  cbn [flat_map List.length]. rewrite barriers_app, IH. f_equal.
  unfold iteration. now destruct (verbose sp), (rank =? 0), (output_due sp os n).
Qed.

(** X10. A launched rank enters the debug barrier (in a debug build), the
    start-up barrier and one barrier per step, and nothing else: the count
    depends on neither the rank, the node, the verbosity nor the output
    flag, so two launched ranks of a job enter equally many barriers. *)
Theorem launched_ranks_enter_the_same_barriers
        b g inp rank1 node1 rank2 node2 sim_steps output_steps :
  Launch b g inp rank1 node1 sim_steps output_steps ->
  Launch b g inp rank2 node2 sim_steps output_steps ->
  barriers (fst (main b g inp rank1)) =
    ((if _DEBUG b then 2 else 1) + Z.to_nat sim_steps)%nat
  /\ barriers (fst (main b g inp rank1)) = barriers (fst (main b g inp rank2)).
Proof.
  assert (Hcount : forall rank node,
             Launch b g inp rank node sim_steps output_steps ->
             barriers (fst (main b g inp rank)) =
             ((if _DEBUG b then 2 else 1) + Z.to_nat sim_steps)%nat).
  { intros rank node L. rewrite (main_launch L). cbn [fst].
    rewrite !barriers_app. cbn [barriers]. rewrite barriers_app.
    rewrite (barriers_setup _ (node_events_kind _ _ _ _)), barriers_iterations.
    cbn [barriers].
    assert (Hs : barriers (startup_events b g rank (terrain_type (parsed inp))) =
                 if _DEBUG b then 2%nat else 1%nat).
    { unfold startup_events, mpi_prologue. now destruct (_DEBUG b), (rank =? 0). }
    rewrite Hs. lia. }
  intros L1 L2. split; [exact (Hcount _ _ L1) |].
  now rewrite (Hcount _ _ L1), (Hcount _ _ L2).
Qed.

Lemma launched_ranks_enter_the_same_barriers_witness :
  barriers (fst (main demo_build demo_globals (demo_input 2 2 false "") 0)) = 17%nat
  /\ barriers (fst (main demo_build demo_globals (demo_input 2 2 false "") 0)) =
     barriers (fst (main demo_build demo_globals (demo_input 2 2 false "") 1)).
Proof.
  assert (L0 : Launch demo_build demo_globals (demo_input 2 2 false "") 0
                 RigNodeRigidTire 16 6) by launch_by_computation.
  assert (L1 : Launch demo_build demo_globals (demo_input 2 2 false "") 1
                 TerrainNodeGranularOMP 16 6) by launch_by_computation.
  exact (launched_ranks_enter_the_same_barriers _ _ _ _ _ _ _ _ _ L0 L1).
Defined.

(** ** Further properties: the job as a whole *)

Lemma job_run_launched b g inp rank node peer sim_steps output_steps :
  Launch b g inp rank node sim_steps output_steps ->
  Launch b g inp (1 - rank) peer sim_steps output_steps ->
  job_run b g inp rank = main b g inp rank.
Proof.
  intros L1 L2. unfold job_run. now rewrite (main_launch L2).
Qed.

(** X3. In a job of two ranks in which nothing is undefined -- both
    conversions of lines 182-183 are representable, either rank gets a node
    and the loop takes no remainder by zero -- a rank returns 0 exactly
    when the command line parses, the terrain's module is compiled in and
    rank 0 creates both directories.  The condition is the same for both
    ranks: either both return 0 or neither does, rank 1 being taken down by
    rank 0's [MPI_Abort] when a directory cannot be created. *)
Theorem job_returns_0_iff_configured b g inp node0 node1 sim_steps output_steps :
  num_procs inp = 2 ->
  sim_steps_of (parsed inp) = Some sim_steps ->
  output_steps_of g (parsed inp) = Some output_steps ->
  node_class b g 0 (terrain_type (parsed inp)) = Some node0 ->
  node_class b g 1 (terrain_type (parsed inp)) = Some node1 ->
  remainder_ok (parsed inp) sim_steps output_steps = true ->
  let configured :=
    cli_parse (cli inp) = true
    /\ modules_ok b (terrain_type (parsed inp)) = true
    /\ mkdir_top inp = true /\ mkdir_out inp = true in
  (snd (job_run b g inp 0) = Exit 0 <-> configured)
  /\ (snd (job_run b g inp 1) = Exit 0 <-> configured).
Proof.
  intros Hp Hs Ho Hn0 Hn1 Hr configured. subst configured.
  assert (Hlaunch : cli_parse (cli inp) = true
                    /\ modules_ok b (terrain_type (parsed inp)) = true
                    /\ mkdir_top inp = true /\ mkdir_out inp = true ->
                    Launch b g inp 0 node0 sim_steps output_steps
                    /\ Launch b g inp 1 node1 sim_steps output_steps).
  { intros (Hc & Hm & Ht & Hd). split; constructor; auto.
    unfold directories_ok. now rewrite Ht, Hd. }
  assert (Hback : forall rank, rank = 0 \/ rank = 1 ->
             snd (job_run b g inp rank) = Exit 0 ->
             cli_parse (cli inp) = true
             /\ modules_ok b (terrain_type (parsed inp)) = true
             /\ mkdir_top inp = true /\ mkdir_out inp = true).
  { intros rank Hrank. unfold job_run. rewrite !main_summary. unfold summary, modules_ok.
    apply Z.eqb_eq in Hp. rewrite Hp. cbn [negb].
    destruct (cli_parse (cli inp)); cbn [negb];
      [| destruct Hrank as [-> | ->]; discriminate].
    destruct (required_module_missing b (terrain_type (parsed inp))).
    { destruct Hrank as [-> | ->]; cbn [snd fst];
        match goal with |- context [(?a <? ?b)%nat] => destruct (a <? b)%nat end;
        discriminate. }
    rewrite Hs, Ho, Hr.
    destruct Hrank as [-> | ->]; cbn [Z.sub Z.opp Z.add Z.pos_sub]; rewrite Hn0, Hn1;
      unfold directories_ok; cbn [Z.eqb negb orb].
    - destruct (mkdir_top inp), (mkdir_out inp); cbn [andb negb snd]; try discriminate.
      auto.
    - destruct (mkdir_top inp) eqn:Ht, (mkdir_out inp) eqn:Hd; cbn [andb negb snd fst];
        auto.
      all: rewrite !barriers_app; unfold startup_events, mpi_prologue;
        destruct (_DEBUG b); cbn -[Nat.ltb];
        match goal with |- context [(?a <? ?b)%nat] =>
          replace (a <? b)%nat with true by (symmetry; apply Nat.ltb_lt; lia)
        end; discriminate. }
  split; (split; [apply Hback; auto |]).
  - intros H. destruct (Hlaunch H) as [L0 L1].
    rewrite (job_run_launched b g inp 0 node0 node1 sim_steps output_steps L0 L1).
    now rewrite (main_launch L0).
  - intros H. destruct (Hlaunch H) as [L0 L1].
    rewrite (job_run_launched b g inp 1 node1 node0 sim_steps output_steps L1 L0).
    now rewrite (main_launch L1).
Qed.

Lemma job_returns_0_iff_configured_witness :
  snd (job_run demo_build demo_globals (demo_input 2 0 false "") 0) = Exit 0
  /\ snd (job_run demo_build demo_globals (demo_input 2 0 false "") 1) = Exit 0
  /\ snd (job_run demo_build demo_globals failing_mkdir_input 1) <> Exit 0.
Proof.
  destruct (job_returns_0_iff_configured demo_build demo_globals (demo_input 2 0 false "")
              RigNodeRigidTire TerrainNodeRigid 16 6
              eq_refl eq_refl eq_refl eq_refl eq_refl eq_refl) as [H0 H1].
  destruct (job_returns_0_iff_configured demo_build demo_globals failing_mkdir_input
              RigNodeRigidTire TerrainNodeRigid 16 6
              eq_refl eq_refl eq_refl eq_refl eq_refl eq_refl) as [_ F1].
  split; [apply H0; repeat split | split; [apply H1; repeat split |]].
  intros E. apply F1 in E. destruct E as (_ & _ & _ & E). discriminate E.
Defined.

(** ** Further properties: the node's set-up and lifetime *)

Lemma filter_no_node_setup (p : Event -> bool) (q : Event -> bool) t :
  (forall e, p e = true -> is_node_setup e = true) ->
  (forall e, q e = true -> is_node_setup e = false) ->
  forallb q t = true -> filter p t = [].
Proof.
  intros Hp Hq. apply filter_other. intros e He.
  destruct (p e) eqn:E; [| reflexivity].
  apply Hp in E. rewrite (Hq e He) in E. discriminate.
Qed.

Lemma startup_not_node_setup e : is_startup e = true -> is_node_setup e = false.
Proof. destruct e; try reflexivity; discriminate. Qed.

Lemma stepping_not_node_setup e : is_stepping e = true -> is_node_setup e = false.
Proof. destruct e; try reflexivity; discriminate. Qed.

(** Calls that configure a node occur only while the node is built. *)
Lemma main_node_setup_filter (p : Event -> bool) b g inp rank :
  (forall e, p e = true -> is_node_setup e = true) ->
  filter p (fst (main b g inp rank)) = []
  \/ filter p (fst (main b g inp rank)) = filter p (node_events b g rank (parsed inp)).
Proof.
  intros Hp.
  assert (Hoff : forall e, is_node_setup e = false -> p e = false).
  { intros e He. destruct (p e) eqn:E; [| reflexivity]. apply Hp in E. congruence. }
  assert (Hpro : filter p (fst (mpi_prologue b rank)) = []).
  { unfold mpi_prologue. destruct (_DEBUG b), (rank =? 0); cbn;
      now rewrite ?Hoff by reflexivity. }
  assert (Hstart : forall t, filter p (startup_events b g rank t) = []).
  { intros t. exact (filter_no_node_setup p is_startup _ Hp startup_not_node_setup
                       (startup_events_kind b g rank t)). }
  rewrite main_summary. unfold summary.
  destruct (num_procs inp =? 2); cbn [negb fst].
  2: { left. rewrite !filter_app, Hpro. destruct (rank =? 0); cbn;
         now rewrite ?Hoff by reflexivity. }
  destruct (cli_parse (cli inp)); cbn [negb fst].
  2: { left. rewrite !filter_app, Hpro. destruct (rank =? 0); cbn;
         now rewrite ?Hoff by reflexivity. }
  destruct (required_module_missing b (terrain_type (parsed inp))); cbn [fst].
  { left. rewrite !filter_app, Hpro. destruct (rank =? 0); cbn;
      now rewrite ?Hoff by reflexivity. }
  destruct (directories_ok inp rank); cbn [negb fst].
  2: { left. rewrite !filter_app, Hpro. destruct (mkdir_top inp); cbn;
         now rewrite ?Hoff by reflexivity. }
  destruct (sim_steps_of (parsed inp)) as [ss |]; cbn [fst]; [| left; apply Hstart].
  destruct (output_steps_of g (parsed inp)) as [os |]; cbn [fst]; [| left; apply Hstart].
  right.
  destruct (node_class b g rank (terrain_type (parsed inp))) as [node |]; cbn [fst].
  2: { now rewrite filter_app, Hstart. }
  destruct (remainder_ok (parsed inp) ss os); cbn [fst].
  - rewrite !filter_app, Hstart. cbn [filter app].
    rewrite (Hoff (Initialize node)) by reflexivity.
    rewrite filter_app.
    rewrite (filter_no_node_setup p is_stepping _ Hp stepping_not_node_setup
               (iterations_kind _ _ _ _ _)).
    cbn [filter app].
    rewrite (Hoff (WriteCheckpoint node "checkpoint_end.dat")) by reflexivity.
    rewrite (Hoff (Delete node)), (Hoff MPI_Finalize) by reflexivity.
    now rewrite app_nil_r.
  - rewrite !filter_app, Hstart. cbn [filter app].
    rewrite (Hoff (Initialize node)) by reflexivity.
    rewrite (filter_no_node_setup p is_stepping _ Hp stepping_not_node_setup
               (first_step_events_kind _ _ _)).
    now rewrite app_nil_r.
Qed.

(** The settling and restoring calls of [create_node], case by case. *)
Lemma node_events_settling b g rank sp :
  filter is_settling (node_events b g rank sp) <> [] ->
  rank = TERRAIN_NODE_RANK b
  /\ use_checkpoint sp = false
  /\ (terrain_type sp = GRANULAR_OMP \/ terrain_type sp = GRANULAR_GPU).
Proof.
  unfold node_events, create_node, create_rig, create_terrain, terrain_common,
    settle_or_restore.
  destruct (rank =? TERRAIN_NODE_RANK b) eqn:Hr, (terrain_type sp) eqn:Ht,
    (use_checkpoint sp) eqn:Hu, (rank =? RIG_NODE_RANK b), (tire_type g), (verbose sp),
    (CHRONO_MULTICORE b), (CHRONO_GPU b), (CHRONO_FSI b);
    cbn; intros H; try (exfalso; apply H; reflexivity);
    apply Z.eqb_eq in Hr; auto.
Qed.

Lemma node_events_restore b g rank sp c f :
  In (SetInputFromCheckpoint c f) (node_events b g rank sp) ->
  rank = TERRAIN_NODE_RANK b
  /\ use_checkpoint sp = true
  /\ ((terrain_type sp = SCM /\ c = TerrainNodeSCM /\ f = "checkpoint_end.dat")
      \/ (terrain_type sp = GRANULAR_OMP /\ c = TerrainNodeGranularOMP
          /\ f = "checkpoint_settled.dat")
      \/ (terrain_type sp = GRANULAR_GPU /\ c = TerrainNodeGranularGPU
          /\ f = "checkpoint_settled.dat")).
Proof.
  intros Hin.
  assert (Hf : In (SetInputFromCheckpoint c f)
                  (filter is_restore (node_events b g rank sp)))
    by (apply filter_In; split; [exact Hin | reflexivity]).
  clear Hin. revert Hf.
  unfold node_events, create_node, create_rig, create_terrain, terrain_common,
    settle_or_restore.
  destruct (rank =? TERRAIN_NODE_RANK b) eqn:Hr, (terrain_type sp) eqn:Ht,
    (use_checkpoint sp) eqn:Hu, (rank =? RIG_NODE_RANK b), (tire_type g), (verbose sp),
    (CHRONO_MULTICORE b), (CHRONO_GPU b), (CHRONO_FSI b);
    cbn; intros H; try contradiction;
    destruct H as [H | []]; injection H as <- <-;
    apply Z.eqb_eq in Hr; auto 10.
Qed.

(** X11. Only a granular OMP or GPU terrain node is ever settled, and only
    on the terrain rank without [use_checkpoint]; only with
    [use_checkpoint] is a node told to read a checkpoint, the SCM terrain
    "checkpoint_end.dat" and the granular terrains
    "checkpoint_settled.dat".  The rig and the RIGID and SPH terrains do
    neither, whatever the flag. *)
Theorem settling_and_restoring_only_where_configured b g inp rank :
  let sp := parsed inp in
  let t := fst (main b g inp rank) in
  (filter is_settling t <> [] ->
     rank = TERRAIN_NODE_RANK b
     /\ use_checkpoint sp = false
     /\ (terrain_type sp = GRANULAR_OMP \/ terrain_type sp = GRANULAR_GPU))
  /\ (forall c f,
        In (SetInputFromCheckpoint c f) t ->
        rank = TERRAIN_NODE_RANK b
        /\ use_checkpoint sp = true
        /\ ((terrain_type sp = SCM /\ c = TerrainNodeSCM /\ f = "checkpoint_end.dat")
            \/ (terrain_type sp = GRANULAR_OMP /\ c = TerrainNodeGranularOMP
                /\ f = "checkpoint_settled.dat")
            \/ (terrain_type sp = GRANULAR_GPU /\ c = TerrainNodeGranularGPU
                /\ f = "checkpoint_settled.dat"))).
Proof.
  intros sp t. subst t. split.
  - intros H.
    destruct (main_node_setup_filter is_settling b g inp rank) as [E | E].
    + now intros [].
    + contradiction.
    + rewrite E in H. now apply node_events_settling in H.
  - intros c f Hin.
    assert (Hf : In (SetInputFromCheckpoint c f)
                    (filter is_restore (fst (main b g inp rank))))
      by (apply filter_In; split; [exact Hin | reflexivity]).
    destruct (main_node_setup_filter is_restore b g inp rank) as [E | E].
    + now intros [].
    + rewrite E in Hf. contradiction.
    + rewrite E in Hf. apply filter_In in Hf as [Hf _].
      now apply node_events_restore in Hf.
Qed.

Lemma settling_and_restoring_only_where_configured_witness :
  filter is_settling (fst (main demo_build demo_globals (demo_input 2 2 false "") 1)) <> []
  /\ 1 = TERRAIN_NODE_RANK demo_build
  /\ use_checkpoint (parsed (demo_input 2 2 false "")) = false.
Proof.
  assert (H : filter is_settling
                (fst (main demo_build demo_globals (demo_input 2 2 false "") 1)) <> [])
    by (vm_compute; discriminate).
  split; [exact H |].
  destruct (proj1 (settling_and_restoring_only_where_configured demo_build demo_globals
                     (demo_input 2 2 false "") 1) H) as (Hr & Hu & _).
  split; [exact Hr | exact Hu].
Defined.

Lemma scm_node_events b g rank sp :
  (rank =? TERRAIN_NODE_RANK b) = true ->
  terrain_type sp = SCM ->
  filter is_WriteCheckpoint (node_events b g rank sp) = []
  /\ filter is_restore (node_events b g rank sp) =
     if use_checkpoint sp
     then [SetInputFromCheckpoint TerrainNodeSCM "checkpoint_end.dat"]
     else [].
Proof.
  intros Hr Ht.
  unfold node_events, create_node, create_rig, create_terrain, terrain_common.
  rewrite Hr, Ht.
  destruct (rank =? RIG_NODE_RANK b), (tire_type g), (verbose sp), (use_checkpoint sp);
    split; reflexivity.
Qed.

(** X12. The SCM terrain resumes from the file every run leaves behind: the
    only checkpoint a launched SCM terrain rank writes is the one at the
    end of the run, and the file a launched SCM terrain rank reads under
    [use_checkpoint] carries the same name. *)
Theorem scm_resumes_from_the_end_checkpoint
        b g rank inp1 node1 steps1 out1 inp2 node2 steps2 out2 :
  rank = TERRAIN_NODE_RANK b ->
  terrain_type (parsed inp1) = SCM ->
  terrain_type (parsed inp2) = SCM ->
  use_checkpoint (parsed inp2) = true ->
  Launch b g inp1 rank node1 steps1 out1 ->
  Launch b g inp2 rank node2 steps2 out2 ->
  exists file,
    filter is_WriteCheckpoint (fst (main b g inp1 rank)) =
      [WriteCheckpoint TerrainNodeSCM file]
    /\ filter is_restore (fst (main b g inp2 rank)) =
       [SetInputFromCheckpoint TerrainNodeSCM file].
Proof.
  intros Hrank Ht1 Ht2 Hu L1 L2.
  assert (Hr : (rank =? TERRAIN_NODE_RANK b) = true) by now apply Z.eqb_eq.
  assert (Hnode : forall inp node ss os,
             terrain_type (parsed inp) = SCM ->
             Launch b g inp rank node ss os -> node = TerrainNodeSCM).
  { intros inp node ss os Ht L. pose proof (launch_node _ _ _ _ _ _ _ L) as Hn.
    unfold node_class in Hn. rewrite Hr, Ht in Hn. cbn in Hn. congruence. }
  pose proof (Hnode _ _ _ _ Ht1 L1). pose proof (Hnode _ _ _ _ Ht2 L2). subst node1 node2.
  exists "checkpoint_end.dat". split.
  - rewrite (launched_filter is_WriteCheckpoint _ _ _ _ _ _ _ L1).
    rewrite (proj1 (scm_node_events b g rank (parsed inp1) Hr Ht1)).
    rewrite (filter_other is_WriteCheckpoint is_startup _ ltac:(now intros [])
               (startup_events_kind _ _ _ _)).
    rewrite (filter_other is_WriteCheckpoint is_stepping _ ltac:(now intros [])
               (iterations_kind _ _ _ _ _)).
    reflexivity.
  - rewrite (launched_filter is_restore _ _ _ _ _ _ _ L2).
    rewrite (proj2 (scm_node_events b g rank (parsed inp2) Hr Ht2)), Hu.
    rewrite (filter_other is_restore is_startup _ ltac:(now intros [])
               (startup_events_kind _ _ _ _)).
    rewrite (filter_other is_restore is_stepping _ ltac:(now intros [])
               (iterations_kind _ _ _ _ _)).
    reflexivity.
Qed.

Lemma scm_resumes_from_the_end_checkpoint_witness :
  exists file,
    filter is_WriteCheckpoint
      (fst (main demo_build demo_globals (demo_input 2 1 false "") 1)) =
      [WriteCheckpoint TerrainNodeSCM file]
    /\ filter is_restore
         (fst (main demo_build demo_globals (demo_input 2 1 true "") 1)) =
       [SetInputFromCheckpoint TerrainNodeSCM file].
Proof.
  assert (L1 : Launch demo_build demo_globals (demo_input 2 1 false "") 1
                 TerrainNodeSCM 16 6) by launch_by_computation.
  assert (L2 : Launch demo_build demo_globals (demo_input 2 1 true "") 1
                 TerrainNodeSCM 16 6) by launch_by_computation.
  exact (scm_resumes_from_the_end_checkpoint demo_build demo_globals 1
           (demo_input 2 1 false "") TerrainNodeSCM 16 6
           (demo_input 2 1 true "") TerrainNodeSCM 16 6
           eq_refl eq_refl eq_refl eq_refl L1 L2).
Defined.

Lemma uses_only_iteration rank sp node os n frame :
  forallb (uses_only node) (iteration rank sp node os n frame) = true.
Proof.
  unfold iteration.
  destruct node, (verbose sp), (rank =? 0), (output_due sp os n); reflexivity.
Qed.

Lemma uses_only_iterations rank sp node os ss :
  forallb (uses_only node) (iterations rank sp node os ss) = true.
Proof. apply forallb_flat_map. intros n. apply uses_only_iteration. Qed.

(** The node is built first and only once in [create_node] when the rig and
    the terrain live on different ranks. *)
Lemma node_events_lifetime b g rank sp node :
  (rank =? RIG_NODE_RANK b) && (rank =? TERRAIN_NODE_RANK b) = false ->
  modules_ok b (terrain_type sp) = true ->
  node_class b g rank (terrain_type sp) = Some node ->
  node_events b g rank sp =
    before_New (node_events b g rank sp) ++ New node :: after_New (node_events b g rank sp)
  /\ forallb no_node_call (before_New (node_events b g rank sp)) = true
  /\ forallb (uses_only node) (after_New (node_events b g rank sp)) = true.
Proof.
  unfold modules_ok, required_module_missing, node_class, rig_class, terrain_class.
  unfold node_events, create_node, create_rig, create_terrain, terrain_common,
    settle_or_restore.
  destruct (rank =? RIG_NODE_RANK b), (rank =? TERRAIN_NODE_RANK b);
    cbn [andb]; intros Hboth; try discriminate;
    destruct (terrain_type sp), (CHRONO_MULTICORE b), (CHRONO_GPU b), (CHRONO_FSI b);
    intros Hm; try discriminate;
    destruct (tire_type g); intros Hn; try discriminate; injection Hn as <-;
    destruct (verbose sp), (use_checkpoint sp); vm_compute; repeat split; reflexivity.
Qed.

(** X13. On a launched rank of a job whose rig and terrain ranks differ,
    the node's lifetime brackets every use of it: nothing touches a node
    before the one construction, every later call is on the node that was
    constructed, and the run ends by deleting that node and finalizing
    MPI, so the node is neither leaked nor used after deletion. *)
Theorem node_is_built_once_then_used_then_deleted
        b g inp rank node sim_steps output_steps :
  Launch b g inp rank node sim_steps output_steps ->
  RIG_NODE_RANK b <> TERRAIN_NODE_RANK b ->
  exists pre uses,
    fst (main b g inp rank) = pre ++ New node :: uses ++ [Delete node; MPI_Finalize]
    /\ forallb no_node_call pre = true
    /\ forallb (uses_only node) uses = true.
Proof.
  intros L Hranks.
  assert (Hboth : (rank =? RIG_NODE_RANK b) && (rank =? TERRAIN_NODE_RANK b) = false).
  { destruct (rank =? RIG_NODE_RANK b) eqn:E1, (rank =? TERRAIN_NODE_RANK b) eqn:E2;
      try reflexivity.
    apply Z.eqb_eq in E1, E2. congruence. }
  destruct (node_events_lifetime b g rank (parsed inp) node Hboth
              (launch_modules _ _ _ _ _ _ _ L) (launch_node _ _ _ _ _ _ _ L))
    as (Hsplit & Hpre & Huses).
  exists (startup_events b g rank (terrain_type (parsed inp))
            ++ before_New (node_events b g rank (parsed inp))).
  exists (after_New (node_events b g rank (parsed inp))
            ++ Initialize node
            :: iterations rank (parsed inp) node output_steps sim_steps
            ++ [WriteCheckpoint node "checkpoint_end.dat"]).
  split; [| split].
  - rewrite (main_launch L). cbn [fst]. rewrite Hsplit at 1.
    repeat (rewrite <- ?app_assoc; cbn [app]). reflexivity.
  - rewrite forallb_app, Hpre, andb_true_r.
    apply (forallb_weaken is_startup); [now intros [] | apply startup_events_kind].
  - rewrite forallb_app, Huses. cbn [forallb andb].
    rewrite forallb_app, uses_only_iterations.
    now destruct node.
Qed.

Lemma node_is_built_once_then_used_then_deleted_witness :
  exists pre uses,
    fst (main demo_build demo_globals (demo_input 2 3 true "") 1) =
    pre ++ New TerrainNodeGranularGPU
        :: uses ++ [Delete TerrainNodeGranularGPU; MPI_Finalize]
    /\ forallb no_node_call pre = true
    /\ forallb (uses_only TerrainNodeGranularGPU) uses = true.
Proof.
  assert (L : Launch demo_build demo_globals (demo_input 2 3 true "") 1
                TerrainNodeGranularGPU 16 6) by launch_by_computation.
  assert (Hranks : RIG_NODE_RANK demo_build <> TERRAIN_NODE_RANK demo_build)
    by (cbn; lia).
  exact (node_is_built_once_then_used_then_deleted _ _ _ _ _ _ _ L Hranks).
Defined.

(** ** Further properties: verbosity *)

Lemma with_flag_actions (p : Event -> bool) v t :
  (forall e, p e = true -> with_flag v e = e) ->
  forallb p t = true ->
  map (with_flag v) (filter is_action t) = filter is_action t.
Proof.
  intros Hp. induction t as [| e t IH]; [reflexivity |].
  cbn [forallb filter]. intros H. apply andb_true_iff in H as [He Ht].
  destruct (is_action e); cbn [map]; rewrite (IH Ht); [| reflexivity].
  now rewrite (Hp e He).
Qed.

Lemma startup_no_flag v e : is_startup e = true -> with_flag v e = e.
Proof. destruct e; intros H; try reflexivity; discriminate. Qed.

Lemma stepping_no_flag v e : is_stepping e = true -> with_flag v e = e.
Proof. destruct e; intros H; try reflexivity; discriminate. Qed.

Lemma node_events_actions b g rank sp v :
  filter is_action (node_events b g rank (with_verbose v sp)) =
  map (with_flag v) (filter is_action (node_events b g rank sp)).
Proof.
  destruct sp as [tt n1 n2 ss st iv sl cp sm uc out rn vb sf].
  unfold with_verbose. cbn [terrain_type nthreads_rig nthreads_terrain step_size sim_time
    init_vel slip coh_pressure sys_mass use_checkpoint output render verbose suffix].
  unfold node_events, create_node, create_rig, create_terrain, terrain_common,
    settle_or_restore, report.
  cbn [terrain_type use_checkpoint verbose suffix].
  destruct (rank =? RIG_NODE_RANK b), (rank =? TERRAIN_NODE_RANK b), tt, (tire_type g), uc,
    (CHRONO_MULTICORE b), (CHRONO_GPU b), (CHRONO_FSI b), v, vb; vm_compute; reflexivity.
Qed.

Lemma iteration_actions rank sp node os n frame v :
  filter is_action (iteration rank (with_verbose v sp) node os n frame) =
  filter is_action (iteration rank sp node os n frame).
Proof.
  unfold iteration.
  change (output_due (with_verbose v sp) os n) with (output_due sp os n).
  cbn [with_verbose verbose step_size].
  destruct v, (verbose sp), (rank =? 0), (output_due sp os n); reflexivity.
Qed.

Lemma iterations_actions rank sp node os ss v :
  filter is_action (iterations rank (with_verbose v sp) node os ss) =
  map (with_flag v) (filter is_action (iterations rank sp node os ss)).
Proof.
  rewrite (with_flag_actions is_stepping v _ (stepping_no_flag v)
             (iterations_kind rank sp node os ss)).
  unfold iterations.
  induction (upto ss) as [| n l IH]; [reflexivity |].
  cbn [flat_map]. rewrite !filter_app, IH. f_equal.
  change (frames_before (with_verbose v sp) os n) with (frames_before sp os n).
  apply iteration_actions.
Qed.

Lemma first_step_actions rank sp node v :
  filter is_action (first_step_events rank (with_verbose v sp) node) =
  map (with_flag v) (filter is_action (first_step_events rank sp node)).
Proof.
  unfold first_step_events. cbn [with_verbose verbose step_size].
  destruct v, (verbose sp), (rank =? 0); reflexivity.
Qed.

Lemma startup_events_actions b g rank t v :
  map (with_flag v) (filter is_action (startup_events b g rank t)) =
  filter is_action (startup_events b g rank t).
Proof.
  apply (with_flag_actions is_startup); [apply startup_no_flag | apply startup_events_kind].
Qed.

Lemma startup_is_quiet e : is_startup e = true -> is_quiet e = true.
Proof.
  destruct e as [| | | | | | | | m | | | | | | | | | | | | | | | | |];
    intros H; try reflexivity; try discriminate.
  destruct m; try reflexivity; discriminate.
Qed.

Lemma node_events_quiet b g rank sp :
  forallb is_quiet (node_events b g rank (with_verbose false sp)) = true.
Proof.
  destruct sp as [tt n1 n2 ss st iv sl cp sm uc out rn vb sf].
  unfold with_verbose. cbn [terrain_type nthreads_rig nthreads_terrain step_size sim_time
    init_vel slip coh_pressure sys_mass use_checkpoint output render verbose suffix].
  unfold node_events, create_node, create_rig, create_terrain, terrain_common,
    settle_or_restore, report.
  cbn [terrain_type use_checkpoint verbose suffix].
  destruct (rank =? RIG_NODE_RANK b), (rank =? TERRAIN_NODE_RANK b), tt, (tire_type g), uc,
    (CHRONO_MULTICORE b), (CHRONO_GPU b), (CHRONO_FSI b); vm_compute; reflexivity.
Qed.

Lemma iterations_quiet rank sp node os ss :
  forallb is_quiet (iterations rank (with_verbose false sp) node os ss) = true.
Proof.
  apply forallb_flat_map. intros n. unfold iteration. cbn [with_verbose verbose andb].
  now destruct (output_due (with_verbose false sp) os n).
Qed.

(** X14. The [--quiet] option decides what is printed, the flag handed to
    the node's [SetVerbose], and whether the node's getters are read for the
    progress messages; it decides nothing else.  For every input, with the
    option set either way, the run ends the same way, and its calls other
    than console output and getters are the same calls in the same order,
    but for the flag of [SetVerbose], which is [!quiet] (setters other than
    [SetVerbose] are compared by name: none of their arguments mentions
    [verbose]).  With [--quiet] no getter is read, every [SetVerbose] gets
    [false], and the console shows diagnostics only. *)
Theorem quiet_changes_verbosity_only b g inp rank q :
  snd (main b g (with_quiet q inp) rank) = snd (main b g inp rank)
  /\ filter is_action (fst (main b g (with_quiet q inp) rank)) =
     map (with_flag (negb q)) (filter is_action (fst (main b g inp rank)))
  /\ forallb is_quiet (fst (main b g (with_quiet true inp) rank)) = true.
Proof.
  assert (Hparsed : forall q', parsed (with_quiet q' inp) = with_verbose (negb q') (parsed inp))
    by reflexivity.
  rewrite !main_summary. unfold summary, directories_ok. rewrite !Hparsed.
  cbn [with_quiet num_procs cli cli_parse mkdir_top mkdir_out negb].
  set (sp := parsed inp).
  change (terrain_type (with_verbose (negb q) sp)) with (terrain_type sp).
  change (sim_steps_of (with_verbose (negb q) sp)) with (sim_steps_of sp).
  change (output_steps_of g (with_verbose (negb q) sp)) with (output_steps_of g sp).
  change (terrain_type (with_verbose false sp)) with (terrain_type sp).
  change (sim_steps_of (with_verbose false sp)) with (sim_steps_of sp).
  change (output_steps_of g (with_verbose false sp)) with (output_steps_of g sp).
  assert (Hprologue : forall v,
             map (with_flag v) (filter is_action (fst (mpi_prologue b rank))) =
             filter is_action (fst (mpi_prologue b rank))
             /\ forallb is_quiet (fst (mpi_prologue b rank)) = true).
  { intros v. unfold mpi_prologue. now destruct (_DEBUG b), (rank =? 0). }
  assert (Hstart : forallb is_quiet (startup_events b g rank (terrain_type sp)) = true).
  { apply (forallb_weaken is_startup); [apply startup_is_quiet | apply startup_events_kind]. }
  destruct (num_procs inp =? 2); cbn [negb].
  2: { cbn [fst snd]. rewrite !filter_app, !map_app, !forallb_app.
       rewrite (proj1 (Hprologue (negb q))), (proj2 (Hprologue true)).
       now destruct (rank =? 0). }
  destruct (cli_parse (cli inp)); cbn [negb].
  2: { cbn [fst snd]. rewrite !filter_app, !map_app, !forallb_app.
       rewrite (proj1 (Hprologue (negb q))), (proj2 (Hprologue true)).
       now destruct (rank =? 0). }
  destruct (required_module_missing b (terrain_type sp)) as [m |] eqn:Hmiss.
  { assert (Hm : is_quiet (cout m) = true).
    { unfold required_module_missing in Hmiss.
      destruct (terrain_type sp), (CHRONO_MULTICORE b), (CHRONO_GPU b), (CHRONO_FSI b);
        try discriminate; injection Hmiss as <-; reflexivity. }
    cbn [fst snd]. rewrite !filter_app, !map_app, !forallb_app.
    rewrite (proj1 (Hprologue (negb q))), (proj2 (Hprologue true)).
    destruct (rank =? 0); repeat split; try reflexivity.
    cbn [forallb app andb]. now rewrite Hm. }
  destruct (negb (rank =? 0) || mkdir_top inp && mkdir_out inp); cbn [negb].
  2: { cbn [fst snd]. rewrite !filter_app, !map_app, !forallb_app.
       rewrite (proj1 (Hprologue (negb q))), (proj2 (Hprologue true)).
       now destruct (mkdir_top inp). }
  destruct (sim_steps_of sp) as [ss |].
  2: { cbn [fst snd]. rewrite startup_events_actions. auto. }
  destruct (output_steps_of g sp) as [os |].
  2: { cbn [fst snd]. rewrite startup_events_actions. auto. }
  change (node_class b g rank (terrain_type sp)) with
    (node_class b g rank (terrain_type sp)).
  destruct (node_class b g rank (terrain_type sp)) as [node |].
  2: { cbn [fst snd]. rewrite !filter_app, !map_app, !forallb_app.
       rewrite startup_events_actions, node_events_actions, Hstart, node_events_quiet.
       auto. }
  change (remainder_ok (with_verbose (negb q) sp) ss os) with (remainder_ok sp ss os).
  change (remainder_ok (with_verbose false sp) ss os) with (remainder_ok sp ss os).
  destruct (remainder_ok sp ss os); cbn [fst snd].
  - rewrite !filter_app, !map_app, !forallb_app.
    rewrite startup_events_actions, node_events_actions, Hstart, node_events_quiet.
    cbn [filter is_action map with_flag forallb is_quiet andb].
    rewrite !filter_app, !map_app, !forallb_app, iterations_actions, iterations_quiet.
    auto.
  - rewrite !filter_app, !map_app, !forallb_app.
    rewrite startup_events_actions, node_events_actions, Hstart, node_events_quiet.
    cbn [filter is_action map with_flag forallb is_quiet andb].
    rewrite first_step_actions.
    repeat split; reflexivity.
Qed.

(** ** Further properties: output *)

(** X15. With [--no_output] the loop never evaluates [is % output_steps]:
    a rank that gets through start-up and has a node runs to the end and
    returns 0 whatever [output_steps] is, zero included, and writes no
    frame. *)
Theorem no_output_never_divides b g inp rank node sim_steps output_steps :
  num_procs inp = 2 ->
  cli_parse (cli inp) = true ->
  modules_ok b (terrain_type (parsed inp)) = true ->
  directories_ok inp rank = true ->
  sim_steps_of (parsed inp) = Some sim_steps ->
  output_steps_of g (parsed inp) = Some output_steps ->
  node_class b g rank (terrain_type (parsed inp)) = Some node ->
  output (parsed inp) = false ->
  snd (main b g inp rank) = Exit 0
  /\ filter is_OutputData (fst (main b g inp rank)) = []
  /\ Z.of_nat (List.length (filter is_Advance (fst (main b g inp rank)))) =
     Z.max 0 sim_steps.
Proof.
  intros Hp Hc Hm Hd Hs Ho Hn Hout.
  assert (L : Launch b g inp rank node sim_steps output_steps).
  { constructor; auto. unfold remainder_ok. now rewrite Hout. }
  split; [now rewrite (main_launch L) |]. split.
  - rewrite (launched_filter_loop is_OutputData _ _ _ _ _ _ _ L)
      by (intros e He; rewrite He; apply orb_true_r).
    rewrite iterations_output.
    assert (Hz : frames_before (parsed inp) output_steps sim_steps = 0).
    { unfold frames_before.
      induction (upto sim_steps) as [| n l IH]; [reflexivity |].
      cbn [filter]. unfold output_due at 1. rewrite Hout. exact IH. }
    now rewrite Hz.
  - rewrite (launched_filter_loop is_Advance _ _ _ _ _ _ _ L)
      by (intros e He; rewrite He; apply orb_true_iff; left; apply orb_true_r).
    rewrite iterations_advance, length_map, upto_length. lia.
Qed.

Lemma no_output_never_divides_witness :
  output_steps_of demo_globals (parsed silent_backwards_input) = Some 0
  /\ snd (main demo_build demo_globals silent_backwards_input 1) = Exit 0.
Proof.
  split; [reflexivity |].
  exact (proj1 (no_output_never_divides demo_build demo_globals silent_backwards_input 1
                  TerrainNodeSCM 2 0 eq_refl eq_refl eq_refl eq_refl eq_refl eq_refl
                  eq_refl eq_refl)).
Defined.

Lemma multiples_step n d :
  0 <= n -> 0 < d ->
  (n + 1 + d - 1) / d = (n + d - 1) / d + (if n mod d =? 0 then 1 else 0).
Proof.
  intros Hn Hd.
  pose proof (Z.div_mod n d ltac:(lia)) as Hdm.
  pose proof (Z.mod_pos_bound n d Hd) as Hr.
  set (q := n / d) in *. set (r := n mod d) in *.
  destruct (r =? 0) eqn:E.
  - apply Z.eqb_eq in E.
    assert (H1 : (n + 1 + d - 1) / d = q + 1)
      by (symmetry; apply (Z.div_unique _ d (q + 1) 0); lia).
    assert (H2 : (n + d - 1) / d = q)
      by (symmetry; apply (Z.div_unique _ d q (d - 1)); lia).
    lia.
  - apply Z.eqb_neq in E.
    assert (H1 : (n + 1 + d - 1) / d = q + 1)
      by (symmetry; apply (Z.div_unique _ d (q + 1) r); lia).
    assert (H2 : (n + d - 1) / d = q + 1)
      by (symmetry; apply (Z.div_unique _ d (q + 1) (r - 1)); lia).
    lia.
Qed.

Lemma rem_zero_mod_abs n d :
  0 <= n -> d <> 0 -> (Z.rem n d =? 0) = (n mod Z.abs d =? 0).
Proof.
  intros Hn Hd.
  rewrite <- (Z.rem_abs_r n d Hd).
  rewrite Z.rem_mod_nonneg by lia. reflexivity.
Qed.

(** The number of multiples of [d] among 0 .. k-1. *)
Lemma count_multiples d (k : nat) :
  d <> 0 ->
  Z.of_nat (List.length (filter (fun n => Z.rem n d =? 0) (upto (Z.of_nat k)))) =
  (Z.of_nat k + Z.abs d - 1) / Z.abs d.
Proof.
  intros Hd. induction k as [| k IH].
  - cbn [Z.of_nat upto Z.to_nat seq map filter List.length].
    symmetry. apply Z.div_small. lia.
  - replace (Z.of_nat (S k)) with (Z.of_nat k + 1) by lia.
    rewrite (upto_succ (Z.of_nat k)) by lia.
    rewrite filter_app, length_app, Nat2Z.inj_add, IH.
    rewrite (multiples_step (Z.of_nat k) (Z.abs d)) by lia.
    f_equal. cbn [filter].
    rewrite (rem_zero_mod_abs (Z.of_nat k) d) by lia.
    now destruct (Z.of_nat k mod Z.abs d =? 0).
Qed.

(** X16. With output enabled, a launched rank writes exactly
    [ceil(sim_steps / |output_steps|)] frames, the first one in step 0:
    the number of [OutputData] calls is
    [(max 0 sim_steps + |output_steps| - 1) / |output_steps|]. *)
Theorem number_of_frames_written b g inp rank node sim_steps output_steps :
  Launch b g inp rank node sim_steps output_steps ->
  output (parsed inp) = true ->
  output_steps <> 0 ->
  Z.of_nat (List.length (filter is_OutputData (fst (main b g inp rank)))) =
  (Z.max 0 sim_steps + Z.abs output_steps - 1) / Z.abs output_steps.
Proof.
  intros L Hout Hos.
  rewrite (launched_filter_loop is_OutputData _ _ _ _ _ _ _ L)
    by (intros e He; rewrite He; apply orb_true_r).
  rewrite iterations_output, length_map, upto_length.
  rewrite Z2Nat.id by (unfold frames_before; lia).
  unfold frames_before.
  rewrite (upto_max sim_steps).
  rewrite <- (Z2Nat.id (Z.max 0 sim_steps)) at 1 2 by lia.
  rewrite <- (count_multiples output_steps (Z.to_nat (Z.max 0 sim_steps)) Hos).
  do 2 f_equal. apply filter_ext. intros n. unfold output_due. now rewrite Hout.
Qed.

Lemma number_of_frames_written_witness :
  Z.of_nat (List.length (filter is_OutputData
              (fst (main demo_build demo_globals (demo_input 2 2 false "") 1)))) = 3.
Proof.
  assert (L : Launch demo_build demo_globals (demo_input 2 2 false "") 1
                TerrainNodeGranularOMP 16 6) by launch_by_computation.
  assert (H6 : 6 <> 0) by lia.
  exact (number_of_frames_written _ _ _ _ _ _ _ L eq_refl H6).
Defined.



